(** * Uniswap-v3 simulator: NFT position ledger and swap engine

    A shallow embedding of [token_position_manager.go], of the event
    handlers of [nft_position_simulator.go], of the two variants of the
    pool swap engine ([HandleSwap], [ResolveInputFromSwapResultEvent]) that
    the sources contain, of the pool operations [Initialize], [Mint],
    [Burn] and [Collect], and of the log parsers of
    [nft_event_parsers.go], followed by the properties of the
    specification that concern them and by further properties of the
    code. *)

From Stdlib Require Import ZArith QArith Qabs Qminmax Lqa Lia Bool.
From Stdlib.Strings Require Import Ascii Byte.
From stdpp Require Import gmap strings list fin_maps.

Local Open Scope Z_scope.

(* ===================================================================== *)
(** ** Decimals *)
(* ===================================================================== *)

(** [decimal.Decimal] (shopspring) is an arbitrary-precision decimal
    [value * 10^exp].  It is embedded by the rational it denotes; like the
    Go type, the representation is not canonical and every comparison goes
    through [Cmp].  [Add], [Sub], [Mul], [Neg] and [Abs] are exact.  [Div]
    is not: it keeps [DivisionPrecision] = 16 fractional digits and rounds
    the last one half away from zero; it panics on a zero divisor. *)
Module Decimal.

Definition ZERO : Q := 0%Q.
Definition ONE : Q := 1%Q.

Definition Add (a b : Q) : Q := (a + b)%Q.
Definition Sub (a b : Q) : Q := (a - b)%Q.
Definition Mul (a b : Q) : Q := (a * b)%Q.
Definition Neg (a : Q) : Q := (- a)%Q.
Definition Abs (a : Q) : Q := Qabs a.

Definition Cmp (a b : Q) : comparison := (a ?= b)%Q.

Definition Equal (a b : Q) : bool :=
  match Cmp a b with Eq => true | _ => false end.
Definition LessThan (a b : Q) : bool :=
  match Cmp a b with Lt => true | _ => false end.
Definition GreaterThan (a b : Q) : bool :=
  match Cmp a b with Gt => true | _ => false end.
Definition LessThanOrEqual (a b : Q) : bool :=
  match Cmp a b with Gt => false | _ => true end.
Definition GreaterThanOrEqual (a b : Q) : bool :=
  match Cmp a b with Lt => false | _ => true end.

Definition IsZero (a : Q) : bool := Equal a ZERO.
Definition IsPositive (a : Q) : bool := GreaterThan a ZERO.
Definition IsNegative (a : Q) : bool := LessThan a ZERO.

(** [decimal.Max(first, rest...)]: the running answer is replaced only
    by a strictly greater item. *)
Definition Max (first item : Q) : Q :=
  if GreaterThan item first then item else first.

(** [d.BigInt()]: the integer component, truncated towards zero. *)
Definition BigInt (a : Q) : Z := Z.quot (Qnum a) (Z.pos (Qden a)).

(** [decimal.NewFromBigInt(z, 0)]. *)
Definition NewFromBigInt (z : Z) : Q := inject_Z z.

(** [d.RoundDown(0)]: rounds towards zero to an integer. *)
Definition RoundDown0 (a : Q) : Q := inject_Z (BigInt a).

Definition DivisionPrecision : Z := 16.

(** [d.DivRound(d2, precision)]: the quotient truncated to [precision]
    fractional digits by [QuoRem], then moved one unit of the last digit
    away from zero when twice the remainder reaches the divisor.
    [None] stands for the panic on division by zero. *)
Definition DivRound (d d2 : Q) (precision : Z) : option Q :=
  if (Qnum d2 =? 0)%Z then None
  else
    let x := (d / d2 * inject_Z (10 ^ precision))%Q in
    let q := Z.quot (Qnum x) (Z.pos (Qden x)) in
    let r := Z.rem (Qnum x) (Z.pos (Qden x)) in
    let q' :=
      if (2 * Z.abs r <? Z.pos (Qden x))%Z then q
      else if (Z.sgn (Qnum d) * Z.sgn (Qnum d2) <? 0)%Z then (q - 1)%Z
           else (q + 1)%Z in
    Some (inject_Z q' / inject_Z (10 ^ precision))%Q.

Definition Div (d d2 : Q) : option Q := DivRound d d2 DivisionPrecision.

End Decimal.

(** [Q128 = 2^128], the fixed-point unit of fee growth. *)
Definition Q128 : Q := inject_Z (2 ^ 128).

(* ===================================================================== *)
(** ** Errors and results *)
(* ===================================================================== *)

(** The [error] values the embedded functions build.  [errors.New] keeps
    its message; each [fmt.Errorf] has a constructor that carries the
    formatted arguments; [ErrWrap] is [fmt.Errorf("...: %w", err)]. *)
Inductive error : Type :=
| ErrNew (msg : string)
| ErrPositionDoesNotExist (tokenID : N)
| ErrTokenOwnerMismatch (expected got : string)
| ErrPositionNotFound (tokenID : N)
| ErrPoolNotFound (address : string)
| ErrPriceLimitBelowMin (limit : Q)
| ErrPriceLimitNotBelowCurrent (limit current : Q)
| ErrPriceLimitAboveMax (limit : Q)
| ErrPriceLimitNotAboveCurrent (limit current : Q)
| ErrExcessiveLoopIterations
| ErrSwapEventNil
| ErrFailedToFindSwapSolution (tx pool : string) (amount0 amount1 price : Q)
| ErrWrap (context : string) (e : error).

(** The outcome of a call: a normal return, an error return, or a panic
    (only [Decimal.Div] by zero can panic in the embedded code). *)
Inductive result (A : Type) : Type :=
| Ok (a : A)
| Err (e : error)
| Panic.
Arguments Ok {A} a.
Arguments Err {A} e.
Arguments Panic {A}.

Definition is_Ok {A} (r : result A) : bool :=
  match r with Ok _ => true | _ => false end.

Definition bind {A B} (r : result A) (k : A -> result B) : result B :=
  match r with
  | Ok a => k a
  | Err e => Err e
  | Panic => Panic
  end.

(** [wrap ctx r]: the caller's [if err != nil { return fmt.Errorf(ctx, err) }]. *)
Definition wrap {A} (context : string) (r : result A) : result A :=
  match r with
  | Err e => Err (ErrWrap context e)
  | _ => r
  end.

Definition ofDiv (o : option Q) : result Q :=
  match o with Some q => Ok q | None => Panic end.

(* ===================================================================== *)
(** ** token_position_manager.go *)
(* ===================================================================== *)

Record TokenPosition : Type := mkTokenPosition {
  TokenID : N;
  Owner : string;
  Pool : string;
  TickLower : Z;
  TickUpper : Z;
  Liquidity : Q;
  FeeGrowthInside0LastX128 : Q;
  FeeGrowthInside1LastX128 : Q;
  TokensOwed0 : Q;
  TokensOwed1 : Q
}.

Definition NewTokenPosition (tokenID : N) (owner pool : string)
    (tickLower tickUpper : Z) : TokenPosition :=
  {| TokenID := tokenID; Owner := owner; Pool := pool;
     TickLower := tickLower; TickUpper := tickUpper;
     Liquidity := Decimal.ZERO;
     FeeGrowthInside0LastX128 := Decimal.ZERO;
     FeeGrowthInside1LastX128 := Decimal.ZERO;
     TokensOwed0 := Decimal.ZERO;
     TokensOwed1 := Decimal.ZERO |}.

(** The field assignments of the methods below. *)
Definition setOwner (p : TokenPosition) (owner : string) : TokenPosition :=
  {| TokenID := TokenID p; Owner := owner; Pool := Pool p;
     TickLower := TickLower p; TickUpper := TickUpper p;
     Liquidity := Liquidity p;
     FeeGrowthInside0LastX128 := FeeGrowthInside0LastX128 p;
     FeeGrowthInside1LastX128 := FeeGrowthInside1LastX128 p;
     TokensOwed0 := TokensOwed0 p;
     TokensOwed1 := TokensOwed1 p |}.

Definition setLiquidityAndSnapshots (p : TokenPosition)
    (liquidityNext fgi0 fgi1 : Q) : TokenPosition :=
  {| TokenID := TokenID p; Owner := Owner p; Pool := Pool p;
     TickLower := TickLower p; TickUpper := TickUpper p;
     Liquidity := liquidityNext;
     FeeGrowthInside0LastX128 := fgi0;
     FeeGrowthInside1LastX128 := fgi1;
     TokensOwed0 := TokensOwed0 p;
     TokensOwed1 := TokensOwed1 p |}.

Definition setTokensOwed (p : TokenPosition) (owed0 owed1 : Q) : TokenPosition :=
  {| TokenID := TokenID p; Owner := Owner p; Pool := Pool p;
     TickLower := TickLower p; TickUpper := TickUpper p;
     Liquidity := Liquidity p;
     FeeGrowthInside0LastX128 := FeeGrowthInside0LastX128 p;
     FeeGrowthInside1LastX128 := FeeGrowthInside1LastX128 p;
     TokensOwed0 := owed0;
     TokensOwed1 := owed1 |}.

(** [x.Div(Q128).RoundDown(0)].  [Q128] is not zero, so the division
    never panics and the [None] branch is dead. *)
Definition divQ128RoundDown (x : Q) : Q :=
  match Decimal.Div x Q128 with
  | Some q => Decimal.RoundDown0 q
  | None => Decimal.ZERO
  end.

(** The fees earned since the last snapshot:
    [fgi.Sub(last).Mul(p.Liquidity).Div(Q128).RoundDown(0)]. *)
Definition feesEarned (fgi last liquidity : Q) : Q :=
  divQ128RoundDown (Decimal.Mul (Decimal.Sub fgi last) liquidity).

Record TokenPositionManager : Type := mkTokenPositionManager {
  Positions : gmap N TokenPosition;
  OwnerTokens : gmap string (list N);
  PoolTokens : gmap string (list N)
}.

Definition NewTokenPositionManager : TokenPositionManager :=
  {| Positions := ∅; OwnerTokens := ∅; PoolTokens := ∅ |}.

(** A Go map of slices read at a missing key gives the nil slice. *)
Definition tokensAt (m : gmap string (list N)) (k : string) : list N :=
  default [] (m !! k).

(** Writing through the [*TokenPosition] held by [Positions]. *)
Definition storePosition (tpm : TokenPositionManager) (tokenID : N)
    (p : TokenPosition) : TokenPositionManager :=
  {| Positions := <[tokenID := p]> (Positions tpm);
     OwnerTokens := OwnerTokens tpm;
     PoolTokens := PoolTokens tpm |}.

Definition storeOwnerTokens (tpm : TokenPositionManager) (owner : string)
    (l : list N) : TokenPositionManager :=
  {| Positions := Positions tpm;
     OwnerTokens := <[owner := l]> (OwnerTokens tpm);
     PoolTokens := PoolTokens tpm |}.

Definition storePoolTokens (tpm : TokenPositionManager) (pool : string)
    (l : list N) : TokenPositionManager :=
  {| Positions := Positions tpm;
     OwnerTokens := OwnerTokens tpm;
     PoolTokens := <[pool := l]> (PoolTokens tpm) |}.

(** The index of the first element equal to [tokenID], as found by the
    [for i, tid := range] loop of [HandleTransfer]. *)
Fixpoint indexOf (tokenID : N) (l : list N) : option nat :=
  match l with
  | [] => None
  | tid :: l' =>
      if (tid =? tokenID)%N then Some O
      else option_map S (indexOf tokenID l')
  end.

(** Removal by swapping with the last element and truncating. *)
Definition swapRemove (i : nat) (l : list N) : list N :=
  match l !! (length l - 1)%nat with
  | Some lastTid => take (length l - 1)%nat (<[i := lastTid]> l)
  | None => l
  end.

Section Ledger.

(** [LiquidityAddDelta] is defined outside the files at hand; the ledger
    is embedded over any implementation of it. *)
Variable LiquidityAddDelta : Q -> Q -> result Q.

(** [TokenPosition.IncreaseLiquidity]: the position after the call
    and the returned error. *)
Definition IncreaseLiquidity (p : TokenPosition)
    (liquidityDelta feeGrowthInside0X128 feeGrowthInside1X128 : Q)
    : TokenPosition * result unit :=
  if Decimal.IsZero liquidityDelta || Decimal.IsNegative liquidityDelta then
    (p, Err (ErrNew "liquidity delta must be positive"))
  else
    let tokensOwed0 :=
      feesEarned feeGrowthInside0X128 (FeeGrowthInside0LastX128 p) (Liquidity p) in
    let tokensOwed1 :=
      feesEarned feeGrowthInside1X128 (FeeGrowthInside1LastX128 p) (Liquidity p) in
    match LiquidityAddDelta (Liquidity p) liquidityDelta with
    | Ok liquidityNext =>
        let p1 := setLiquidityAndSnapshots p liquidityNext
                    feeGrowthInside0X128 feeGrowthInside1X128 in
        if Decimal.GreaterThan tokensOwed0 Decimal.ZERO
           || Decimal.GreaterThan tokensOwed1 Decimal.ZERO then
          (setTokensOwed p1 (Decimal.Add (TokensOwed0 p1) tokensOwed0)
                            (Decimal.Add (TokensOwed1 p1) tokensOwed1),
           Ok tt)
        else (p1, Ok tt)
    | Err e => (p, Err e)
    | Panic => (p, Panic)
    end.

(** [TokenPosition.DecreaseLiquidity]. *)
Definition DecreaseLiquidity (p : TokenPosition)
    (liquidityDelta feeGrowthInside0X128 feeGrowthInside1X128 amount0 amount1 : Q)
    : TokenPosition * result unit :=
  if Decimal.IsZero liquidityDelta || Decimal.IsPositive liquidityDelta then
    (p, Err (ErrNew "liquidity delta must be negative"))
  else if Decimal.LessThan (Liquidity p) (Decimal.Abs liquidityDelta) then
    (p, Err (ErrNew "liquidity underflow"))
  else
    let tokensOwed0 :=
      feesEarned feeGrowthInside0X128 (FeeGrowthInside0LastX128 p) (Liquidity p) in
    let tokensOwed1 :=
      feesEarned feeGrowthInside1X128 (FeeGrowthInside1LastX128 p) (Liquidity p) in
    match LiquidityAddDelta (Liquidity p) liquidityDelta with
    | Ok liquidityNext =>
        let p1 := setLiquidityAndSnapshots p liquidityNext
                    feeGrowthInside0X128 feeGrowthInside1X128 in
        (setTokensOwed p1
           (Decimal.Add (Decimal.Add (TokensOwed0 p1) tokensOwed0) amount0)
           (Decimal.Add (Decimal.Add (TokensOwed1 p1) tokensOwed1) amount1),
         Ok tt)
    | Err e => (p, Err e)
    | Panic => (p, Panic)
    end.

(** [TokenPosition.Collect]: the position after the call and the two
    amounts returned. *)
Definition Collect (p : TokenPosition) (amount0Requested amount1Requested : Q)
    : TokenPosition * (Q * Q) :=
  let amount0 :=
    if Decimal.GreaterThan amount0Requested (TokensOwed0 p)
    then TokensOwed0 p else amount0Requested in
  let amount1 :=
    if Decimal.GreaterThan amount1Requested (TokensOwed1 p)
    then TokensOwed1 p else amount1Requested in
  (setTokensOwed p (Decimal.Sub (TokensOwed0 p) amount0)
                   (Decimal.Sub (TokensOwed1 p) amount1),
   (amount0, amount1)).

Definition IsEmpty (p : TokenPosition) : bool :=
  Decimal.IsZero (Liquidity p) && Decimal.IsZero (TokensOwed0 p)
  && Decimal.IsZero (TokensOwed1 p).

(** [CreatePosition]: the new position is stored and appended to both
    indices. *)
Definition CreatePosition (tpm : TokenPositionManager) (tokenID : N)
    (owner pool : string) (tickLower tickUpper : Z)
    : TokenPositionManager * TokenPosition :=
  let position := NewTokenPosition tokenID owner pool tickLower tickUpper in
  let tpm1 := storePosition tpm tokenID position in
  let tpm2 := storeOwnerTokens tpm1 owner
                (tokensAt (OwnerTokens tpm1) owner ++ [tokenID]) in
  let tpm3 := storePoolTokens tpm2 pool
                (tokensAt (PoolTokens tpm2) pool ++ [tokenID]) in
  (tpm3, position).

Definition GetPosition (tpm : TokenPositionManager) (tokenID : N)
    : option TokenPosition :=
  Positions tpm !! tokenID.

(** [GetPositionsByOwner] and [GetPositionsByPool]: the positions of the
    listed token ids that exist. *)
Definition GetPositionsByOwner (tpm : TokenPositionManager) (owner : string)
    : list TokenPosition :=
  omap (fun tokenID => Positions tpm !! tokenID) (tokensAt (OwnerTokens tpm) owner).

Definition GetPositionsByPool (tpm : TokenPositionManager) (pool : string)
    : list TokenPosition :=
  omap (fun tokenID => Positions tpm !! tokenID) (tokensAt (PoolTokens tpm) pool).

Definition HandleMint (tpm : TokenPositionManager) (tokenID : N)
    (owner pool : string) (tickLower tickUpper : Z)
    (amount feeGrowthInside0X128 feeGrowthInside1X128 : Q)
    : TokenPositionManager * result unit :=
  match Positions tpm !! tokenID with
  | Some position =>
      let '(position', r) :=
        IncreaseLiquidity position amount feeGrowthInside0X128 feeGrowthInside1X128 in
      (storePosition tpm tokenID position', r)
  | None =>
      let '(tpm1, position) :=
        CreatePosition tpm tokenID owner pool tickLower tickUpper in
      let '(position', r) :=
        IncreaseLiquidity position amount feeGrowthInside0X128 feeGrowthInside1X128 in
      (storePosition tpm1 tokenID position', r)
  end.

Definition HandleIncreaseLiquidity (tpm : TokenPositionManager) (tokenID : N)
    (amount feeGrowthInside0X128 feeGrowthInside1X128 : Q)
    : TokenPositionManager * result unit :=
  match Positions tpm !! tokenID with
  | None => (tpm, Err (ErrPositionDoesNotExist tokenID))
  | Some position =>
      let '(position', r) :=
        IncreaseLiquidity position amount feeGrowthInside0X128 feeGrowthInside1X128 in
      (storePosition tpm tokenID position', r)
  end.

Definition HandleDecreaseLiquidity (tpm : TokenPositionManager) (tokenID : N)
    (liquidityDelta feeGrowthInside0X128 feeGrowthInside1X128 amount0 amount1 : Q)
    : TokenPositionManager * result unit :=
  match Positions tpm !! tokenID with
  | None => (tpm, Err (ErrPositionDoesNotExist tokenID))
  | Some position =>
      let '(position', r) :=
        DecreaseLiquidity position (Decimal.Neg liquidityDelta)
          feeGrowthInside0X128 feeGrowthInside1X128 amount0 amount1 in
      (storePosition tpm tokenID position', r)
  end.

Definition HandleCollect (tpm : TokenPositionManager) (tokenID : N)
    (amount0Requested amount1Requested : Q)
    : TokenPositionManager * result (Q * Q) :=
  match Positions tpm !! tokenID with
  | None => (tpm, Err (ErrPositionDoesNotExist tokenID))
  | Some position =>
      let '(position', amounts) :=
        Collect position amount0Requested amount1Requested in
      (storePosition tpm tokenID position', Ok amounts)
  end.

(** [HandleTransfer].  The owner field is written before the ownership
    check, so the write is part of the state returned with the
    mismatch error. *)
Definition HandleTransfer (tpm : TokenPositionManager) (tokenID : N)
    (from to : string) : TokenPositionManager * result unit :=
  match Positions tpm !! tokenID with
  | None => (tpm, Err (ErrPositionDoesNotExist tokenID))
  | Some position =>
      let oldOwner := Owner position in
      let tpm1 := storePosition tpm tokenID (setOwner position to) in
      if negb (String.eqb oldOwner from) then
        (tpm1, Err (ErrTokenOwnerMismatch oldOwner from))
      else
        let oldOwnerTokens := tokensAt (OwnerTokens tpm1) from in
        let tpm2 :=
          match indexOf tokenID oldOwnerTokens with
          | Some i => storeOwnerTokens tpm1 from (swapRemove i oldOwnerTokens)
          | None => tpm1
          end in
        let tpm3 := storeOwnerTokens tpm2 to
                      (tokensAt (OwnerTokens tpm2) to ++ [tokenID]) in
        (tpm3, Ok tt)
  end.

(** The mutating operations of the ledger, as values, and the state
    each leaves (whether or not it returned an error). *)
Inductive LedgerOp : Type :=
| OpMint (tokenID : N) (owner pool : string) (tickLower tickUpper : Z)
    (amount feeGrowthInside0X128 feeGrowthInside1X128 : Q)
| OpIncreaseLiquidity (tokenID : N)
    (amount feeGrowthInside0X128 feeGrowthInside1X128 : Q)
| OpDecreaseLiquidity (tokenID : N)
    (liquidityDelta feeGrowthInside0X128 feeGrowthInside1X128 amount0 amount1 : Q)
| OpCollect (tokenID : N) (amount0Requested amount1Requested : Q)
| OpTransfer (tokenID : N) (from to : string).

Definition applyOp (tpm : TokenPositionManager) (op : LedgerOp)
    : TokenPositionManager :=
  match op with
  | OpMint tokenID owner pool tickLower tickUpper amount fgi0 fgi1 =>
      fst (HandleMint tpm tokenID owner pool tickLower tickUpper amount fgi0 fgi1)
  | OpIncreaseLiquidity tokenID amount fgi0 fgi1 =>
      fst (HandleIncreaseLiquidity tpm tokenID amount fgi0 fgi1)
  | OpDecreaseLiquidity tokenID liquidityDelta fgi0 fgi1 amount0 amount1 =>
      fst (HandleDecreaseLiquidity tpm tokenID liquidityDelta fgi0 fgi1
             amount0 amount1)
  | OpCollect tokenID amount0Requested amount1Requested =>
      fst (HandleCollect tpm tokenID amount0Requested amount1Requested)
  | OpTransfer tokenID from to =>
      fst (HandleTransfer tpm tokenID from to)
  end.

Definition applyOps (tpm : TokenPositionManager) (ops : list LedgerOp)
    : TokenPositionManager :=
  fold_left applyOp ops tpm.

End Ledger.

(** The token an operation addresses. *)
Definition opToken (op : LedgerOp) : N :=
  match op with
  | OpMint tokenID _ _ _ _ _ _ _ => tokenID
  | OpIncreaseLiquidity tokenID _ _ _ => tokenID
  | OpDecreaseLiquidity tokenID _ _ _ _ _ => tokenID
  | OpCollect tokenID _ _ => tokenID
  | OpTransfer tokenID _ _ => tokenID
  end.

Definition isCollect (op : LedgerOp) : bool :=
  match op with OpCollect _ _ _ => true | _ => false end.

(** A position whose liquidity is not negative receives a snapshot that
    does not lie below the one it holds. *)
Definition snapshotsAdvance (p : TokenPosition) (fgi0 fgi1 : Q) : Prop :=
  (0 <= Liquidity p)%Q
  /\ (FeeGrowthInside0LastX128 p <= fgi0)%Q
  /\ (FeeGrowthInside1LastX128 p <= fgi1)%Q.

(** The operations under which the owed tokens are shown not to shrink:
    the snapshot handed to a liquidity update advances, and a decrease
    credits non-negative amounts. *)
Definition advancing (tpm : TokenPositionManager) (op : LedgerOp) : Prop :=
  match op with
  | OpMint tokenID _ _ _ _ _ fgi0 fgi1
  | OpIncreaseLiquidity tokenID _ fgi0 fgi1 =>
      forall p, Positions tpm !! tokenID = Some p -> snapshotsAdvance p fgi0 fgi1
  | OpDecreaseLiquidity tokenID _ fgi0 fgi1 amount0 amount1 =>
      (forall p, Positions tpm !! tokenID = Some p -> snapshotsAdvance p fgi0 fgi1)
      /\ (0 <= amount0)%Q /\ (0 <= amount1)%Q
  | OpCollect _ _ _ => True
  | OpTransfer _ _ _ => True
  end.

(** The indices are exact inverses of the position map: a token is
    listed under an owner (a pool) exactly when its position names that
    owner (that pool). *)
Definition indicesInverse (tpm : TokenPositionManager) : Prop :=
  forall (tokenID : N) (a : string),
    (tokenID ∈ tokensAt (OwnerTokens tpm) a
       <-> exists p, Positions tpm !! tokenID = Some p /\ Owner p = a)
    /\ (tokenID ∈ tokensAt (PoolTokens tpm) a
       <-> exists p, Positions tpm !! tokenID = Some p /\ Pool p = a).

(** The ledger is well indexed when the indices are inverses of the
    position map and no owner list names a token twice. *)
Definition wellIndexed (tpm : TokenPositionManager) : Prop :=
  indicesInverse tpm /\ forall a, NoDup (tokensAt (OwnerTokens tpm) a).

(** A transfer that names a sender other than the owner of the token. *)
Definition refused (tpm : TokenPositionManager) (op : LedgerOp) : Prop :=
  match op with
  | OpTransfer tokenID from _ =>
      exists p, Positions tpm !! tokenID = Some p /\ Owner p <> from
  | _ => False
  end.

(** The identity of a position: what no liquidity update writes. *)
Definition sameIdentity (p p' : TokenPosition) : Prop :=
  TokenID p' = TokenID p /\ Owner p' = Owner p /\ Pool p' = Pool p
  /\ TickLower p' = TickLower p /\ TickUpper p' = TickUpper p.

(* ===================================================================== *)
(** ** The pool: data model *)
(* ===================================================================== *)

(** Constants of the pool engine.  They are declared outside the files at
    hand; the tick bounds are the ones the specification gives, the price
    bounds are the on-chain values at those ticks. *)
Definition MIN_TICK : Z := -887272.
Definition MAX_TICK : Z := 887272.
Definition MIN_SQRT_RATIO : Q := inject_Z 4295128739.
Definition MAX_SQRT_RATIO : Q :=
  inject_Z 1461446703485210103287273052203988822378723970342.

(** Modelled from the spec: the per-tick record of section 3 (the [Tick]
    type is declared outside the files at hand; [HandleSwap] reads its
    [LiquidityNet] field and calls its [Cross] method). *)
Record Tick : Type := mkTick {
  LiquidityGross : Q;
  LiquidityNet : Q;
  FeeGrowthOutside0X128 : Q;
  FeeGrowthOutside1X128 : Q
}.

Definition NewTick : Tick :=
  {| LiquidityGross := Decimal.ZERO; LiquidityNet := Decimal.ZERO;
     FeeGrowthOutside0X128 := Decimal.ZERO;
     FeeGrowthOutside1X128 := Decimal.ZERO |}.

(** Modelled from the spec: fee-growth subtraction wraps in the 256-bit
    unsigned domain (section 9). *)
Definition subMod256 (a b : Q) : Q :=
  inject_Z (Decimal.BigInt (Decimal.Sub a b) mod 2 ^ 256).

(** Modelled from the spec: [Tick.cross] of section 4.2 (the method is
    defined outside the files at hand): both outside fee growths are
    replaced by their distance to the globals; the tick's [liquidityNet]
    is what the call returns. *)
Definition Cross (t : Tick) (feeGrowthGlobal0X128 feeGrowthGlobal1X128 : Q)
    : Tick * Q :=
  ({| LiquidityGross := LiquidityGross t;
      LiquidityNet := LiquidityNet t;
      FeeGrowthOutside0X128 :=
        subMod256 feeGrowthGlobal0X128 (FeeGrowthOutside0X128 t);
      FeeGrowthOutside1X128 :=
        subMod256 feeGrowthGlobal1X128 (FeeGrowthOutside1X128 t) |},
   LiquidityNet t).

(** Modelled from the spec: the tick manager is the sparse mapping
    [tickIndex -> Tick] of section 3 (the [TickManager] type and its
    methods are defined outside the files at hand). *)
Abbreviation TickManager := (gmap Z Tick).

(** Modelled from the spec: [GetTickAndInitIfAbsent] obtains the tick at
    an index, creating it when the map has none (section 4.4, step 2). *)
Definition GetTickAndInitIfAbsent (tm : TickManager) (index : Z)
    : TickManager * result Tick :=
  match tm !! index with
  | Some t => (tm, Ok t)
  | None => (<[index := NewTick]> tm, Ok NewTick)
  end.

Fixpoint maxOf (l : list Z) : option Z :=
  match l with
  | [] => None
  | k :: l' =>
      match maxOf l' with
      | None => Some k
      | Some m => Some (Z.max k m)
      end
  end.

Fixpoint minOf (l : list Z) : option Z :=
  match l with
  | [] => None
  | k :: l' =>
      match minOf l' with
      | None => Some k
      | Some m => Some (Z.min k m)
      end
  end.

(** The initialised ticks a search may return: multiples of the spacing
    within the tick bounds. *)
Definition addressable (tickSpacing k : Z) : bool :=
  (k mod tickSpacing =? 0) && (MIN_TICK <=? k) && (k <=? MAX_TICK).

(** Modelled from the spec: [getNextInitializedTick] of section 4.2 (the
    method is defined outside the files at hand).  For [zeroForOne] the
    largest initialised tick at most [from - 1] whose index is a multiple
    of the spacing, symmetrically the smallest one at least [from + 1];
    without such a tick, the boundary with [initialized = false]. *)
Definition GetNextInitializedTick (tm : TickManager) (from tickSpacing : Z)
    (zeroForOne : bool) : result (Z * bool) :=
  let ticks := List.filter (addressable tickSpacing) (elements (dom tm)) in
  if zeroForOne then
    match maxOf (List.filter (fun k => k <=? from - 1) ticks) with
    | Some k => Ok (k, true)
    | None => Ok (MIN_TICK, false)
    end
  else
    match minOf (List.filter (fun k => from + 1 <=? k) ticks) with
    | Some k => Ok (k, true)
    | None => Ok (MAX_TICK, false)
    end.

(** Modelled from the spec: the per-(owner, range) record of section 3;
    the position store of a pool is keyed by the position key.  The swap
    engine never reads it. *)
Record Position : Type := mkPosition {
  PositionLiquidity : Q;
  PositionFeeGrowthInside0LastX128 : Q;
  PositionFeeGrowthInside1LastX128 : Q;
  PositionTokensOwed0 : Q;
  PositionTokensOwed1 : Q
}.

(** The arithmetic the engine calls and that lives outside the files at
    hand: [utils.GetSqrtRatioAtTick] and [utils.ComputeSwapStep] of the
    SDK (on [big.Int]), and the repository's [GetTickAtSqrtRatio] and
    [AddDelta] (on decimals).  The engine is embedded over any
    implementation of them. *)
Record MathLib : Type := mkMathLib {
  GetSqrtRatioAtTick : Z -> result Z;
  ComputeSwapStep : Z -> Z -> Z -> Z -> Z -> result (Z * Z * Z * Z);
  GetTickAtSqrtRatio : Q -> result Z;
  AddDelta : Q -> Q -> result Q
}.

Module CorePool.

Record t : Type := mk {
  PoolAddress : string;
  HasCreated : bool;
  Token0 : string;
  Token1 : string;
  Fee : Z;
  TickSpacing : Z;
  MaxLiquidityPerTick : Q;
  CurrentBlockNum : N;
  DeployBlockNum : N;
  Token0Balance : Q;
  Token1Balance : Q;
  SqrtPriceX96 : Q;
  Liquidity : Q;
  TickCurrent : Z;
  FeeGrowthGlobal0X128 : Q;
  FeeGrowthGlobal1X128 : Q;
  Ticks : TickManager;
  PositionManager : gmap string Position
}.

(** The pool with its tick map replaced: the writes that reach the pool
    through [p.TickManager] during a swap. *)
Definition setTicks (p : t) (tm : TickManager) : t :=
  {| PoolAddress := PoolAddress p; HasCreated := HasCreated p;
     Token0 := Token0 p; Token1 := Token1 p; Fee := Fee p;
     TickSpacing := TickSpacing p;
     MaxLiquidityPerTick := MaxLiquidityPerTick p;
     CurrentBlockNum := CurrentBlockNum p;
     DeployBlockNum := DeployBlockNum p;
     Token0Balance := Token0Balance p; Token1Balance := Token1Balance p;
     SqrtPriceX96 := SqrtPriceX96 p; Liquidity := Liquidity p;
     TickCurrent := TickCurrent p;
     FeeGrowthGlobal0X128 := FeeGrowthGlobal0X128 p;
     FeeGrowthGlobal1X128 := FeeGrowthGlobal1X128 p;
     Ticks := tm;
     PositionManager := PositionManager p |}.

(** The four assignments at the end of a committing swap. *)
Definition setSwapResult (p : t) (sqrtPriceX96 : Q) (tickCurrent : Z)
    (liquidity feeGrowthGlobal0X128 feeGrowthGlobal1X128 : Q) : t :=
  {| PoolAddress := PoolAddress p; HasCreated := HasCreated p;
     Token0 := Token0 p; Token1 := Token1 p; Fee := Fee p;
     TickSpacing := TickSpacing p;
     MaxLiquidityPerTick := MaxLiquidityPerTick p;
     CurrentBlockNum := CurrentBlockNum p;
     DeployBlockNum := DeployBlockNum p;
     Token0Balance := Token0Balance p; Token1Balance := Token1Balance p;
     SqrtPriceX96 := sqrtPriceX96; Liquidity := liquidity;
     TickCurrent := tickCurrent;
     FeeGrowthGlobal0X128 := feeGrowthGlobal0X128;
     FeeGrowthGlobal1X128 := feeGrowthGlobal1X128;
     Ticks := Ticks p;
     PositionManager := PositionManager p |}.

End CorePool.

Record swapState : Type := mkSwapState {
  amountSpecifiedRemaining : Q;
  amountCalculated : Q;
  sqrtPriceX96 : Q;
  tick : Z;
  liquidity : Q;
  feeGrowthGlobalX128 : Q
}.

Record StepComputations : Type := mkStepComputations {
  sqrtPriceStartX96 : Q;
  tickNext : Z;
  initialized : bool;
  sqrtPriceNextX96 : Q;
  amountIn : Q;
  amountOut : Q;
  feeAmount : Q
}.

(** The swap event as the resolver reads it (the [UniV3SwapEvent] type is
    declared outside the files at hand): the transaction hash and the
    pool address of the raw log, the two net amounts, the price after the
    swap and the liquidity field. *)
Record UniV3SwapEvent : Type := mkUniV3SwapEvent {
  TxHash : string;
  Address : string;
  Amount0 : Q;
  Amount1 : Q;
  SqrtPriceX96 : Q;
  EventLiquidity : Q
}.

Record SwapSolution : Type := mkSwapSolution {
  AmountSpecified : Q;
  SqrtPriceLimitX96 : option Q
}.

(* ===================================================================== *)
(** ** The pool: the swap engine *)
(* ===================================================================== *)

Definition incTowardsInfinity (d : Q) : Q :=
  if Decimal.IsZero d then d
  else if Decimal.IsPositive d then Decimal.Add d Decimal.ONE
  else Decimal.Sub d Decimal.ONE.

Section SwapEngine.

Variable lib : MathLib.

(** [ctx] is what a caller does with the error of a callee: the first
    variant of [HandleSwap] returns it as it is, the second wraps it in
    a message. *)
Variable ctx : string -> error -> error.

Definition failing {A} (context : string) (r : result A) : result A :=
  match r with
  | Err e => Err (ctx context e)
  | _ => r
  end.

(** The price limit of a swap: the caller's, or the default of the
    direction. *)
Definition priceLimit (zeroForOne : bool) (optionalSqrtPriceLimitX96 : option Q) : Q :=
  match optionalSqrtPriceLimitX96 with
  | None =>
      if zeroForOne then Decimal.Add MIN_SQRT_RATIO Decimal.ONE
      else Decimal.Sub MAX_SQRT_RATIO Decimal.ONE
  | Some limit => limit
  end.

Definition initialState (p : CorePool.t) (zeroForOne : bool) (amountSpecified : Q)
    : swapState :=
  {| amountSpecifiedRemaining := amountSpecified;
     amountCalculated := Decimal.ZERO;
     sqrtPriceX96 := CorePool.SqrtPriceX96 p;
     tick := CorePool.TickCurrent p;
     liquidity := CorePool.Liquidity p;
     feeGrowthGlobalX128 :=
       if zeroForOne then CorePool.FeeGrowthGlobal0X128 p
       else CorePool.FeeGrowthGlobal1X128 p |}.

Definition clampTick (tickNext : Z) : Z :=
  if tickNext <? MIN_TICK then MIN_TICK
  else if tickNext >? MAX_TICK then MAX_TICK
  else tickNext.

(** The first half of the loop body, which is the same text in both
    variants: the search for the next tick, the step of the SDK, and
    the update of the amounts and of the fee growth.  It does not touch
    the pool. *)
Definition computeStep (p : CorePool.t) (tm : TickManager)
    (zeroForOne exactInput : bool) (sqrtPriceLimitX96 : Q) (state : swapState)
    : result (StepComputations * swapState) :=
  bind (failing "error finding next tick"
          (GetNextInitializedTick tm (tick state) (CorePool.TickSpacing p) zeroForOne))
    (fun '(tickNext0, initialized0) =>
  let tickNext1 := clampTick tickNext0 in
  bind (failing "error getting sqrt ratio at tick"
          (GetSqrtRatioAtTick lib tickNext1))
    (fun sqrtPriceNextX96bi =>
  let sqrtPriceNext := Decimal.NewFromBigInt sqrtPriceNextX96bi in
  let sqrtRatioTargetX96 :=
    if zeroForOne then
      if Decimal.LessThan sqrtPriceNext sqrtPriceLimitX96
      then sqrtPriceLimitX96 else sqrtPriceNext
    else
      if Decimal.GreaterThan sqrtPriceNext sqrtPriceLimitX96
      then sqrtPriceLimitX96 else sqrtPriceNext in
  bind (failing "error computing swap step"
          (ComputeSwapStep lib
             (Decimal.BigInt (sqrtPriceX96 state))
             (Decimal.BigInt sqrtRatioTargetX96)
             (Decimal.BigInt (liquidity state))
             (Decimal.BigInt (amountSpecifiedRemaining state))
             (CorePool.Fee p)))
    (fun '(_sqrtPriceX96, _amountIn, _amountOut, _feeAmount) =>
  let step :=
    {| sqrtPriceStartX96 := sqrtPriceX96 state;
       tickNext := tickNext1;
       initialized := initialized0;
       sqrtPriceNextX96 := sqrtPriceNext;
       amountIn := Decimal.NewFromBigInt _amountIn;
       amountOut := Decimal.NewFromBigInt _amountOut;
       feeAmount := Decimal.NewFromBigInt _feeAmount |} in
  let remaining :=
    if exactInput then
      Decimal.Sub (amountSpecifiedRemaining state)
        (Decimal.Add (amountIn step) (feeAmount step))
    else Decimal.Add (amountSpecifiedRemaining state) (amountOut step) in
  let calculated :=
    if exactInput then Decimal.Sub (amountCalculated state) (amountOut step)
    else Decimal.Add (amountCalculated state)
           (Decimal.Add (amountIn step) (feeAmount step)) in
  bind (if Decimal.IsPositive (liquidity state) then
          bind (ofDiv (Decimal.Div (Decimal.Mul (feeAmount step) Q128)
                         (liquidity state)))
            (fun feeGrowthDelta =>
               Ok (Decimal.Add (feeGrowthGlobalX128 state)
                     (Decimal.RoundDown0 feeGrowthDelta)))
        else Ok (feeGrowthGlobalX128 state))
    (fun feeGrowth =>
  Ok (step,
      {| amountSpecifiedRemaining := remaining;
         amountCalculated := calculated;
         sqrtPriceX96 := Decimal.NewFromBigInt _sqrtPriceX96;
         tick := tick state;
         liquidity := liquidity state;
         feeGrowthGlobalX128 := feeGrowth |}))))).

Definition setLiquidity (state : swapState) (l : Q) : swapState :=
  {| amountSpecifiedRemaining := amountSpecifiedRemaining state;
     amountCalculated := amountCalculated state;
     sqrtPriceX96 := sqrtPriceX96 state;
     tick := tick state;
     liquidity := l;
     feeGrowthGlobalX128 := feeGrowthGlobalX128 state |}.

Definition setTick (state : swapState) (tk : Z) : swapState :=
  {| amountSpecifiedRemaining := amountSpecifiedRemaining state;
     amountCalculated := amountCalculated state;
     sqrtPriceX96 := sqrtPriceX96 state;
     tick := tk;
     liquidity := liquidity state;
     feeGrowthGlobalX128 := feeGrowthGlobalX128 state |}.

(** The crossing of an initialised tick: a static swap reads the net
    liquidity, a committing one calls [Cross], which writes the tick. *)
Definition crossInitialized (p : CorePool.t) (tm : TickManager)
    (zeroForOne isStatic : bool) (step : StepComputations) (state : swapState)
    : TickManager * result swapState :=
  match GetTickAndInitIfAbsent tm (tickNext step) with
  | (tm1, Ok nextTick) =>
      let '(tm2, liquidityNet0) :=
        if isStatic then (tm1, LiquidityNet nextTick)
        else
          let '(crossed, net) :=
            if zeroForOne then
              Cross nextTick (feeGrowthGlobalX128 state)
                (CorePool.FeeGrowthGlobal1X128 p)
            else
              Cross nextTick (CorePool.FeeGrowthGlobal0X128 p)
                (feeGrowthGlobalX128 state) in
          (<[tickNext step := crossed]> tm1, net) in
      let liquidityNet :=
        if zeroForOne then Decimal.Neg liquidityNet0 else liquidityNet0 in
      (tm2,
       bind (failing "error updating liquidity at tick"
               (AddDelta lib (liquidity state) liquidityNet))
         (fun l => Ok (setLiquidity state l)))
  | (tm1, Err e) => (tm1, Err (ctx "error getting tick" e))
  | (tm1, Panic) => (tm1, Panic)
  end.

(** The second half of the loop body: the tick is crossed when the step
    ended on its price, and recomputed when the price moved inside the
    range. *)
Definition finishStep (p : CorePool.t) (tm : TickManager)
    (zeroForOne isStatic : bool) (step : StepComputations) (state : swapState)
    : TickManager * result swapState :=
  if Decimal.Equal (sqrtPriceX96 state) (sqrtPriceNextX96 step) then
    let '(tm1, r) :=
      if initialized step then crossInitialized p tm zeroForOne isStatic step state
      else (tm, Ok state) in
    (tm1,
     bind r (fun state1 =>
       Ok (setTick state1
             (if zeroForOne then tickNext step - 1 else tickNext step))))
  else if negb (Decimal.Equal (sqrtPriceX96 state) (sqrtPriceStartX96 step)) then
    (tm,
     bind (failing "error computing tick at price"
             (GetTickAtSqrtRatio lib (sqrtPriceX96 state)))
       (fun tk => Ok (setTick state tk)))
  else (tm, Ok state).

(** One pass through the loop body. *)
Definition swapStep (p : CorePool.t) (zeroForOne exactInput isStatic : bool)
    (sqrtPriceLimitX96 : Q) (tm : TickManager) (state : swapState)
    : TickManager * result swapState :=
  match computeStep p tm zeroForOne exactInput sqrtPriceLimitX96 state with
  | Ok (step, state1) => finishStep p tm zeroForOne isStatic step state1
  | Err e => (tm, Err e)
  | Panic => (tm, Panic)
  end.

(** What [HandleSwap] does after its loop: the commit of a non-static
    swap and the two amounts. *)
Definition commit (p : CorePool.t) (zeroForOne : bool) (state : swapState)
    : CorePool.t :=
  CorePool.setSwapResult p
    (sqrtPriceX96 state)
    (tick state)
    (if negb (Decimal.Equal (liquidity state) (CorePool.Liquidity p))
     then liquidity state else CorePool.Liquidity p)
    (if zeroForOne then feeGrowthGlobalX128 state
     else CorePool.FeeGrowthGlobal0X128 p)
    (if zeroForOne then CorePool.FeeGrowthGlobal1X128 p
     else feeGrowthGlobalX128 state).

Definition finalAmounts (zeroForOne exactInput : bool) (amountSpecified : Q)
    (state : swapState) : Q * Q * Q :=
  if Bool.eqb zeroForOne exactInput then
    (Decimal.Sub amountSpecified (amountSpecifiedRemaining state),
     amountCalculated state, sqrtPriceX96 state)
  else
    (amountCalculated state,
     Decimal.Sub amountSpecified (amountSpecifiedRemaining state),
     sqrtPriceX96 state).

Definition finish (p : CorePool.t) (zeroForOne exactInput isStatic : bool)
    (amountSpecified : Q) (looped : TickManager * result swapState)
    : CorePool.t * result (Q * Q * Q) :=
  let p1 := CorePool.setTicks p (fst looped) in
  match snd looped with
  | Ok state =>
      (if isStatic then p1 else commit p1 zeroForOne state,
       Ok (finalAmounts zeroForOne exactInput amountSpecified state))
  | Err e => (p1, Err e)
  | Panic => (p1, Panic)
  end.

End SwapEngine.

(* --------------------------------------------------------------------- *)
(** *** First variant of the engine (lines 301-1047 of the source file):
    tolerance-based loop exit, forced exit after [maxIterations] passes,
    resolver that accepts approximate matches. *)
(* --------------------------------------------------------------------- *)

Module Tolerant.
Section Engine.

Variable lib : MathLib.

Definition maxIterations : nat := 1024.

(** [decimal.NewFromFloat(0.00001)]. *)
Definition epsilonDecimal : Q := (1 # 100000)%Q.

(** Errors of callees are returned as they are. *)
Definition ctx (context : string) (e : error) : error := e.

(** The exit test of the loop.  Both flags are evaluated before they
    are combined; the relative price gap is a [Div], which panics when
    the greater of the two prices is zero. *)
Definition exitCheck (sqrtPriceLimitX96 : Q) (state : swapState) : result bool :=
  let amountIsZero :=
    Decimal.LessThanOrEqual (Decimal.Abs (amountSpecifiedRemaining state))
      epsilonDecimal in
  bind (ofDiv (Decimal.Div
                 (Decimal.Abs (Decimal.Sub (sqrtPriceX96 state) sqrtPriceLimitX96))
                 (Decimal.Max (sqrtPriceX96 state) sqrtPriceLimitX96)))
    (fun gap =>
       let priceReached := Decimal.LessThanOrEqual gap epsilonDecimal in
       Ok (amountIsZero || priceReached)).

(** The loop, by the number of passes still allowed: once
    [iterationCount] exceeds [maxIterations] the loop is left by
    [break], as it is when the exit test holds. *)
Fixpoint swapLoop (passes : nat) (p : CorePool.t)
    (zeroForOne exactInput isStatic : bool) (sqrtPriceLimitX96 : Q)
    (tm : TickManager) (state : swapState) : TickManager * result swapState :=
  match passes with
  | O => (tm, Ok state)
  | S passes' =>
      match exitCheck sqrtPriceLimitX96 state with
      | Ok true => (tm, Ok state)
      | Ok false =>
          match swapStep lib ctx p zeroForOne exactInput isStatic
                  sqrtPriceLimitX96 tm state with
          | (tm1, Ok state1) =>
              swapLoop passes' p zeroForOne exactInput isStatic
                sqrtPriceLimitX96 tm1 state1
          | (tm1, Err e) => (tm1, Err e)
          | (tm1, Panic) => (tm1, Panic)
          end
      | Err e => (tm, Err e)
      | Panic => (tm, Panic)
      end
  end.

(** [passed n tm state tm' state']: from [tm] and [state] the loop
    goes through [n] passes of its body, none of them stopped by the
    exit test or by an error, and reaches [tm'] and [state']. *)
Inductive passed (p : CorePool.t) (zeroForOne exactInput isStatic : bool)
    (sqrtPriceLimitX96 : Q)
    : nat -> TickManager -> swapState -> TickManager -> swapState -> Prop :=
| passed_O tm state :
    passed p zeroForOne exactInput isStatic sqrtPriceLimitX96 O tm state tm state
| passed_S n tm state tm1 state1 tm' state' :
    exitCheck sqrtPriceLimitX96 state = Ok false ->
    swapStep lib ctx p zeroForOne exactInput isStatic sqrtPriceLimitX96 tm state
    = (tm1, Ok state1) ->
    passed p zeroForOne exactInput isStatic sqrtPriceLimitX96 n tm1 state1 tm' state' ->
    passed p zeroForOne exactInput isStatic sqrtPriceLimitX96 (S n) tm state tm' state'.

Definition validate (p : CorePool.t) (zeroForOne : bool) (sqrtPriceLimitX96 : Q)
    : option error :=
  if zeroForOne then
    if negb (Decimal.GreaterThan sqrtPriceLimitX96 MIN_SQRT_RATIO)
    then Some (ErrNew "RATIO_MIN")
    else if negb (Decimal.LessThan sqrtPriceLimitX96 (CorePool.SqrtPriceX96 p))
    then Some (ErrNew "RATIO_CURRENT")
    else None
  else
    if negb (Decimal.LessThan sqrtPriceLimitX96 MAX_SQRT_RATIO)
    then Some (ErrNew "RATIO_MAX")
    else if negb (Decimal.GreaterThan sqrtPriceLimitX96 (CorePool.SqrtPriceX96 p))
    then Some (ErrNew "RATIO_CURRENT")
    else None.

(** [HandleSwap]: the pool after the call, and the returned
    [(amount0, amount1, sqrtPriceX96)] or error. *)
Definition HandleSwap (p : CorePool.t) (zeroForOne : bool) (amountSpecified : Q)
    (optionalSqrtPriceLimitX96 : option Q) (isStatic : bool)
    : CorePool.t * result (Q * Q * Q) :=
  let sqrtPriceLimitX96 := priceLimit zeroForOne optionalSqrtPriceLimitX96 in
  match validate p zeroForOne sqrtPriceLimitX96 with
  | Some e => (p, Err e)
  | None =>
      let exactInput := Decimal.GreaterThanOrEqual amountSpecified Decimal.ZERO in
      let state := initialState p zeroForOne amountSpecified in
      finish p zeroForOne exactInput isStatic amountSpecified
        (swapLoop maxIterations p zeroForOne exactInput isStatic
           sqrtPriceLimitX96 (CorePool.Ticks p) state)
  end.

(** [tryToDryRun] (the debugging prints left out). *)
Definition tryToDryRun (p : CorePool.t) (param : UniV3SwapEvent)
    (amountSpec : Q) (sqrtPriceLimitX96 : option Q) : CorePool.t * result bool :=
  let zeroForOne := Decimal.IsPositive (Amount0 param) in
  match HandleSwap p zeroForOne amountSpec sqrtPriceLimitX96 true with
  | (p1, Ok (amount0, amount1, priceX96)) =>
      (p1, Ok (Decimal.Equal amount0 (Amount0 param)
               && Decimal.Equal amount1 (Amount1 param)
               && Decimal.Equal priceX96 (SqrtPriceX96 param)))
  | (p1, Err _) => (p1, Ok false)
  | (p1, Panic) => (p1, Panic)
  end.

(** The candidates of the resolver, in the order they are appended. *)
Definition solutionList (param : UniV3SwapEvent) : list SwapSolution :=
  let target := Some (SqrtPriceX96 param) in
  let incrementedAmount0 := incTowardsInfinity (Amount0 param) in
  let incrementedAmount1 := incTowardsInfinity (Amount1 param) in
  let adjustmentFactor : Q := (1 # 1000)%Q in
  let up := Decimal.Add (inject_Z 1) adjustmentFactor in
  let down := Decimal.Sub (inject_Z 1) adjustmentFactor in
  [ mkSwapSolution (Amount0 param) target;
    mkSwapSolution (Amount1 param) target;
    mkSwapSolution (Amount0 param) None;
    mkSwapSolution (Amount1 param) None;
    mkSwapSolution incrementedAmount0 target;
    mkSwapSolution incrementedAmount1 target;
    mkSwapSolution incrementedAmount0 None;
    mkSwapSolution incrementedAmount1 None;
    mkSwapSolution (Decimal.Mul (Amount0 param) up) target;
    mkSwapSolution (Decimal.Mul (Amount1 param) up) target;
    mkSwapSolution (Decimal.Mul (Amount0 param) down) target;
    mkSwapSolution (Decimal.Mul (Amount1 param) down) target ]
  ++ (if Decimal.IsZero (EventLiquidity param) then
        [ mkSwapSolution (Decimal.Mul (Amount0 param) (101 # 100)%Q) target;
          mkSwapSolution (Decimal.Mul (Amount1 param) (101 # 100)%Q) target;
          mkSwapSolution (Decimal.Mul (Amount0 param) (99 # 100)%Q) target;
          mkSwapSolution (Decimal.Mul (Amount1 param) (99 # 100)%Q) target ]
      else []).

Definition tolerance : Q := (1 # 1000)%Q.

(** The three tolerance tests on the outcome of a dry run.  All three
    are evaluated; the last divides by the event's price. *)
Definition withinTolerance (param : UniV3SwapEvent) (amount0 amount1 priceX96 : Q)
    : result bool :=
  bind (ofDiv (Decimal.Div (Decimal.Abs (Decimal.Sub amount0 (Amount0 param)))
                 (Decimal.Max (Decimal.Abs (Amount0 param)) (inject_Z 1))))
    (fun e0 =>
  bind (ofDiv (Decimal.Div (Decimal.Abs (Decimal.Sub amount1 (Amount1 param)))
                 (Decimal.Max (Decimal.Abs (Amount1 param)) (inject_Z 1))))
    (fun e1 =>
  bind (ofDiv (Decimal.Div (Decimal.Abs (Decimal.Sub priceX96 (SqrtPriceX96 param)))
                 (SqrtPriceX96 param)))
    (fun ep =>
  Ok (Decimal.LessThanOrEqual e0 tolerance
      && Decimal.LessThanOrEqual e1 tolerance
      && Decimal.LessThanOrEqual ep tolerance)))).

(** An absolute error normalised by the expected value; [1] when zero
    was expected and something else came out. *)
Definition normalisedAmountError (expected got : Q) : result Q :=
  let absError := Decimal.Abs (Decimal.Sub got expected) in
  if negb (Decimal.IsZero expected) then
    ofDiv (Decimal.Div absError (Decimal.Abs expected))
  else if negb (Decimal.IsZero got) then Ok (inject_Z 1)
  else Ok absError.

Definition totalError (param : UniV3SwapEvent) (amount0 amount1 priceX96 : Q)
    : result Q :=
  let priceError0 := Decimal.Abs (Decimal.Sub priceX96 (SqrtPriceX96 param)) in
  bind (if negb (Decimal.IsZero (SqrtPriceX96 param))
        then ofDiv (Decimal.Div priceError0 (SqrtPriceX96 param))
        else Ok priceError0)
    (fun priceError =>
  bind (normalisedAmountError (Amount0 param) amount0) (fun amount0Error =>
  bind (normalisedAmountError (Amount1 param) amount1) (fun amount1Error =>
  Ok (Decimal.Add (Decimal.Add priceError amount0Error) amount1Error)))).

(** The loop over the candidates, with the best approximation so far. *)
Fixpoint trySolutions (p : CorePool.t) (param : UniV3SwapEvent)
    (solutions : list SwapSolution) (bestSolution : option SwapSolution)
    (bestError : Q) : CorePool.t * result (option SwapSolution * Q + SwapSolution) :=
  match solutions with
  | [] => (p, Ok (inl (bestSolution, bestError)))
  | solution :: rest =>
      let zeroForOne := Decimal.IsPositive (Amount0 param) in
      match HandleSwap p zeroForOne (AmountSpecified solution)
              (SqrtPriceLimitX96 solution) true with
      | (p1, Err _) => trySolutions p1 param rest bestSolution bestError
      | (p1, Panic) => (p1, Panic)
      | (p1, Ok (amount0, amount1, priceX96)) =>
          match withinTolerance param amount0 amount1 priceX96 with
          | Ok true => (p1, Ok (inr solution))
          | Ok false =>
              match totalError param amount0 amount1 priceX96 with
              | Ok total =>
                  if match bestSolution with None => true | Some _ => false end
                     || Decimal.LessThan total bestError
                  then trySolutions p1 param rest (Some solution) total
                  else trySolutions p1 param rest bestSolution bestError
              | Err e => (p1, Err e)
              | Panic => (p1, Panic)
              end
          | Err e => (p1, Err e)
          | Panic => (p1, Panic)
          end
      end
  end.

(** [ResolveInputFromSwapResultEvent]; a nil event is dereferenced. *)
Definition ResolveInputFromSwapResultEvent (p : CorePool.t)
    (param : option UniV3SwapEvent) : CorePool.t * result (Q * option Q) :=
  match param with
  | None => (p, Panic)
  | Some param =>
      match trySolutions p param (solutionList param) None (inject_Z 0) with
      | (p1, Ok (inr solution)) =>
          (p1, Ok (AmountSpecified solution, SqrtPriceLimitX96 solution))
      | (p1, Ok (inl (Some best, bestError))) =>
          if Decimal.LessThan bestError (3 # 1000)%Q
          then (p1, Ok (AmountSpecified best, SqrtPriceLimitX96 best))
          else (p1, Err (ErrFailedToFindSwapSolution (TxHash param) (Address param)
                           (Amount0 param) (Amount1 param) (SqrtPriceX96 param)))
      | (p1, Ok (inl (None, _))) =>
          (p1, Err (ErrFailedToFindSwapSolution (TxHash param) (Address param)
                      (Amount0 param) (Amount1 param) (SqrtPriceX96 param)))
      | (p1, Err e) => (p1, Err e)
      | (p1, Panic) => (p1, Panic)
      end
  end.

End Engine.
End Tolerant.

(* --------------------------------------------------------------------- *)
(** *** Second variant of the engine (lines 1048-1720 of the source
    file): exact loop guard, error after 1000 passes, resolver that
    accepts exact matches only. *)
(* --------------------------------------------------------------------- *)

Module Exact.
Section Engine.

Variable lib : MathLib.

Definition maxLoopCount : nat := 1000.

(** Errors of callees are wrapped in a message. *)
Definition ctx (context : string) (e : error) : error := ErrWrap context e.

(** The guard of the [for] loop, negated: the loop is left when it
    holds. *)
Definition loopDone (sqrtPriceLimitX96 : Q) (state : swapState) : bool :=
  Decimal.Equal (amountSpecifiedRemaining state) Decimal.ZERO
  || Decimal.Equal (sqrtPriceX96 state) sqrtPriceLimitX96.

(** The loop, by the number of passes still allowed: a pass beyond
    [loopCount = 1000] returns the error. *)
Fixpoint swapLoop (passes : nat) (p : CorePool.t)
    (zeroForOne exactInput isStatic : bool) (sqrtPriceLimitX96 : Q)
    (tm : TickManager) (state : swapState) : TickManager * result swapState :=
  if loopDone sqrtPriceLimitX96 state then (tm, Ok state)
  else
    match passes with
    | O => (tm, Err ErrExcessiveLoopIterations)
    | S passes' =>
        match swapStep lib ctx p zeroForOne exactInput isStatic
                sqrtPriceLimitX96 tm state with
        | (tm1, Ok state1) =>
            swapLoop passes' p zeroForOne exactInput isStatic
              sqrtPriceLimitX96 tm1 state1
        | (tm1, Err e) => (tm1, Err e)
        | (tm1, Panic) => (tm1, Panic)
        end
    end.

(** [passed n tm state tm' state']: from [tm] and [state] the loop
    goes through [n] passes of its body, each entered because the guard
    held and none of them stopped by an error, and reaches [tm'] and
    [state']. *)
Inductive passed (p : CorePool.t) (zeroForOne exactInput isStatic : bool)
    (sqrtPriceLimitX96 : Q)
    : nat -> TickManager -> swapState -> TickManager -> swapState -> Prop :=
| passed_O tm state :
    passed p zeroForOne exactInput isStatic sqrtPriceLimitX96 O tm state tm state
| passed_S n tm state tm1 state1 tm' state' :
    loopDone sqrtPriceLimitX96 state = false ->
    swapStep lib ctx p zeroForOne exactInput isStatic sqrtPriceLimitX96 tm state
    = (tm1, Ok state1) ->
    passed p zeroForOne exactInput isStatic sqrtPriceLimitX96 n tm1 state1 tm' state' ->
    passed p zeroForOne exactInput isStatic sqrtPriceLimitX96 (S n) tm state tm' state'.

Definition validate (p : CorePool.t) (zeroForOne : bool) (sqrtPriceLimitX96 : Q)
    : option error :=
  if zeroForOne then
    if negb (Decimal.GreaterThan sqrtPriceLimitX96 MIN_SQRT_RATIO)
    then Some (ErrPriceLimitBelowMin sqrtPriceLimitX96)
    else if negb (Decimal.LessThan sqrtPriceLimitX96 (CorePool.SqrtPriceX96 p))
    then Some (ErrPriceLimitNotBelowCurrent sqrtPriceLimitX96 (CorePool.SqrtPriceX96 p))
    else None
  else
    if negb (Decimal.LessThan sqrtPriceLimitX96 MAX_SQRT_RATIO)
    then Some (ErrPriceLimitAboveMax sqrtPriceLimitX96)
    else if negb (Decimal.GreaterThan sqrtPriceLimitX96 (CorePool.SqrtPriceX96 p))
    then Some (ErrPriceLimitNotAboveCurrent sqrtPriceLimitX96 (CorePool.SqrtPriceX96 p))
    else None.

Definition HandleSwap (p : CorePool.t) (zeroForOne : bool) (amountSpecified : Q)
    (optionalSqrtPriceLimitX96 : option Q) (isStatic : bool)
    : CorePool.t * result (Q * Q * Q) :=
  let sqrtPriceLimitX96 := priceLimit zeroForOne optionalSqrtPriceLimitX96 in
  match validate p zeroForOne sqrtPriceLimitX96 with
  | Some e => (p, Err e)
  | None =>
      let exactInput := Decimal.GreaterThanOrEqual amountSpecified Decimal.ZERO in
      let state := initialState p zeroForOne amountSpecified in
      finish p zeroForOne exactInput isStatic amountSpecified
        (swapLoop maxLoopCount p zeroForOne exactInput isStatic
           sqrtPriceLimitX96 (CorePool.Ticks p) state)
  end.

(** [tryToDryRun]: a static swap; all three values must be equal. *)
Definition tryToDryRun (p : CorePool.t) (param : UniV3SwapEvent)
    (amountSpec : Q) (sqrtPriceLimitX96 : option Q) : CorePool.t * result bool :=
  let zeroForOne := Decimal.IsPositive (Amount0 param) in
  match HandleSwap p zeroForOne amountSpec sqrtPriceLimitX96 true with
  | (p1, Ok (amount0, amount1, priceX96)) =>
      (p1, Ok (Decimal.Equal amount0 (Amount0 param)
               && Decimal.Equal amount1 (Amount1 param)
               && Decimal.Equal priceX96 (SqrtPriceX96 param)))
  | (p1, Err _) => (p1, Ok false)
  | (p1, Panic) => (p1, Panic)
  end.

(** The candidates of the resolver, in the order they are appended. *)
Definition solutionList (p : CorePool.t) (param : UniV3SwapEvent)
    : list SwapSolution :=
  let solution3 := mkSwapSolution (Amount0 param) None in
  let solution4 := mkSwapSolution (Amount1 param) None in
  let solution1 :=
    mkSwapSolution
      (if Decimal.IsZero (EventLiquidity param)
       then incTowardsInfinity (Amount0 param) else Amount0 param)
      (Some (SqrtPriceX96 param)) in
  let solution2 :=
    mkSwapSolution
      (if Decimal.IsZero (EventLiquidity param)
       then incTowardsInfinity (Amount1 param) else Amount1 param)
      (Some (SqrtPriceX96 param)) in
  [solution3; solution4]
  ++ (if negb (Decimal.Equal (SqrtPriceX96 param) (CorePool.SqrtPriceX96 p)) then
        (if Decimal.Equal (EventLiquidity param) (inject_Z (-1)) then
           [ mkSwapSolution (Amount0 param) (Some (SqrtPriceX96 param));
             mkSwapSolution (Amount1 param) (Some (SqrtPriceX96 param)) ]
         else [])
        ++ [solution1; solution2]
      else []).

(** The loop over the candidates: the first one whose dry run succeeds
    is returned. *)
Fixpoint trySolutions (p : CorePool.t) (param : UniV3SwapEvent)
    (solutions : list SwapSolution) : CorePool.t * result (option SwapSolution) :=
  match solutions with
  | [] => (p, Ok None)
  | solution :: rest =>
      match tryToDryRun p param (AmountSpecified solution)
              (SqrtPriceLimitX96 solution) with
      | (p1, Ok true) => (p1, Ok (Some solution))
      | (p1, Ok false) => trySolutions p1 param rest
      | (p1, Err e) => (p1, Err e)
      | (p1, Panic) => (p1, Panic)
      end
  end.

Definition ResolveInputFromSwapResultEvent (p : CorePool.t)
    (param : option UniV3SwapEvent) : CorePool.t * result (Q * option Q) :=
  match param with
  | None => (p, Err ErrSwapEventNil)
  | Some param =>
      match trySolutions p param (solutionList p param) with
      | (p1, Ok (Some solution)) =>
          (p1, Ok (AmountSpecified solution, SqrtPriceLimitX96 solution))
      | (p1, Ok None) =>
          (p1, Err (ErrFailedToFindSwapSolution (TxHash param) (Address param)
                      (Amount0 param) (Amount1 param) (SqrtPriceX96 param)))
      | (p1, Err e) => (p1, Err e)
      | (p1, Panic) => (p1, Panic)
      end
  end.

End Engine.
End Exact.

(* ===================================================================== *)
(** ** nft_position_simulator.go: the event handlers *)
(* ===================================================================== *)

(** The decoded events of [nft_event_parsers.go].  The handlers are
    embedded from the point where the log has been parsed. *)
Module NFTMintEvent.
Record t : Type := mk {
  TokenID : N; Owner : string; TickLower : Z; TickUpper : Z;
  Amount : Q; Pool : string }.
End NFTMintEvent.

Module NFTIncreaseLiquidityEvent.
Record t : Type := mk { TokenID : N; Liquidity : Q; Amount0 : Q; Amount1 : Q }.
End NFTIncreaseLiquidityEvent.

Module NFTDecreaseLiquidityEvent.
Record t : Type := mk { TokenID : N; Liquidity : Q; Amount0 : Q; Amount1 : Q }.
End NFTDecreaseLiquidityEvent.

Module NFTCollectEvent.
Record t : Type := mk { TokenID : N; Amount0 : Q; Amount1 : Q }.
End NFTCollectEvent.

Module NFTTransferEvent.
Record t : Type := mk { TokenID : N; From : string; To : string }.
End NFTTransferEvent.

Inductive NFTEvent : Type :=
| EvMint (e : NFTMintEvent.t)
| EvIncreaseLiquidity (e : NFTIncreaseLiquidityEvent.t)
| EvDecreaseLiquidity (e : NFTDecreaseLiquidityEvent.t)
| EvCollect (e : NFTCollectEvent.t)
| EvTransfer (e : NFTTransferEvent.t).

(** The simulator state the handlers read and write: the ledger and the
    pools by address. *)
Record NFTPositionSimulator : Type := mkNFTPositionSimulator {
  tokenPositionManager : TokenPositionManager;
  pools : gmap string CorePool.t
}.

Definition zeroAddress : string := "0x0000000000000000000000000000000000000000".

Section Simulator.

Variable LiquidityAddDelta : Q -> Q -> result Q.

(** [TickManager.GetFeeGrowthInside] is defined outside the files at
    hand; the handlers are embedded over any implementation of it. *)
Variable GetFeeGrowthInside :
  TickManager -> Z -> Z -> Z -> Q -> Q -> result (Q * Q).

(** [common.HexToAddress(s).Hex()]: the key under which a pool address
    is looked up. *)
Variable addressHex : string -> string.

Definition setLedger (nps : NFTPositionSimulator) (tpm : TokenPositionManager)
    : NFTPositionSimulator :=
  {| tokenPositionManager := tpm; pools := pools nps |}.

Definition GetPool (nps : NFTPositionSimulator) (address : string)
    : result CorePool.t :=
  match pools nps !! addressHex address with
  | Some pool => Ok pool
  | None => Err (ErrPoolNotFound (addressHex address))
  end.

(** The fee-growth-inside snapshot of a range in the pool of a
    position, with the two error messages of the handlers. *)
Definition snapshot (nps : NFTPositionSimulator) (pool : string)
    (tickLower tickUpper : Z) : result (Q * Q) :=
  bind (wrap "failed to get pool" (GetPool nps pool)) (fun pool =>
  wrap "failed to get fee growth inside"
    (GetFeeGrowthInside (CorePool.Ticks pool) tickLower tickUpper
       (CorePool.TickCurrent pool)
       (CorePool.FeeGrowthGlobal0X128 pool)
       (CorePool.FeeGrowthGlobal1X128 pool))).

Definition processMintEvent (nps : NFTPositionSimulator) (event : NFTMintEvent.t)
    : NFTPositionSimulator * result unit :=
  match snapshot nps (NFTMintEvent.Pool event)
          (NFTMintEvent.TickLower event) (NFTMintEvent.TickUpper event) with
  | Ok (feeGrowthInside0X128, feeGrowthInside1X128) =>
      let '(tpm, r) :=
        HandleMint LiquidityAddDelta (tokenPositionManager nps)
          (NFTMintEvent.TokenID event) (NFTMintEvent.Owner event)
          (NFTMintEvent.Pool event)
          (NFTMintEvent.TickLower event) (NFTMintEvent.TickUpper event)
          (NFTMintEvent.Amount event)
          feeGrowthInside0X128 feeGrowthInside1X128 in
      (setLedger nps tpm, wrap "failed to handle mint" r)
  | Err e => (nps, Err e)
  | Panic => (nps, Panic)
  end.

Definition processIncreaseLiquidityEvent (nps : NFTPositionSimulator)
    (event : NFTIncreaseLiquidityEvent.t) : NFTPositionSimulator * result unit :=
  match GetPosition (tokenPositionManager nps)
          (NFTIncreaseLiquidityEvent.TokenID event) with
  | None => (nps, Err (ErrPositionNotFound (NFTIncreaseLiquidityEvent.TokenID event)))
  | Some position =>
      match snapshot nps (Pool position) (TickLower position) (TickUpper position) with
      | Ok (feeGrowthInside0X128, feeGrowthInside1X128) =>
          let '(tpm, r) :=
            HandleIncreaseLiquidity LiquidityAddDelta (tokenPositionManager nps)
              (NFTIncreaseLiquidityEvent.TokenID event)
              (NFTIncreaseLiquidityEvent.Liquidity event)
              feeGrowthInside0X128 feeGrowthInside1X128 in
          (setLedger nps tpm, wrap "failed to handle increase liquidity" r)
      | Err e => (nps, Err e)
      | Panic => (nps, Panic)
      end
  end.

(** [processDecreaseLiquidityEvent]: the liquidity of the event is
    negated here ("Negate as we're decreasing") before it is handed to
    [HandleDecreaseLiquidity], which negates its argument again. *)
Definition processDecreaseLiquidityEvent (nps : NFTPositionSimulator)
    (event : NFTDecreaseLiquidityEvent.t) : NFTPositionSimulator * result unit :=
  match GetPosition (tokenPositionManager nps)
          (NFTDecreaseLiquidityEvent.TokenID event) with
  | None => (nps, Err (ErrPositionNotFound (NFTDecreaseLiquidityEvent.TokenID event)))
  | Some position =>
      match snapshot nps (Pool position) (TickLower position) (TickUpper position) with
      | Ok (feeGrowthInside0X128, feeGrowthInside1X128) =>
          let '(tpm, r) :=
            HandleDecreaseLiquidity LiquidityAddDelta (tokenPositionManager nps)
              (NFTDecreaseLiquidityEvent.TokenID event)
              (Decimal.Neg (NFTDecreaseLiquidityEvent.Liquidity event))
              feeGrowthInside0X128 feeGrowthInside1X128
              (NFTDecreaseLiquidityEvent.Amount0 event)
              (NFTDecreaseLiquidityEvent.Amount1 event) in
          (setLedger nps tpm, wrap "failed to handle decrease liquidity" r)
      | Err e => (nps, Err e)
      | Panic => (nps, Panic)
      end
  end.

Definition processCollectEvent (nps : NFTPositionSimulator)
    (event : NFTCollectEvent.t) : NFTPositionSimulator * result unit :=
  let '(tpm, r) :=
    HandleCollect (tokenPositionManager nps) (NFTCollectEvent.TokenID event)
      (NFTCollectEvent.Amount0 event) (NFTCollectEvent.Amount1 event) in
  (setLedger nps tpm,
   wrap "failed to handle collect" (bind r (fun _ => Ok tt))).

Definition processTransferEvent (nps : NFTPositionSimulator)
    (event : NFTTransferEvent.t) : NFTPositionSimulator * result unit :=
  if String.eqb (NFTTransferEvent.From event) zeroAddress
     || String.eqb (NFTTransferEvent.To event) zeroAddress
  then (nps, Ok tt)
  else
    let '(tpm, r) :=
      HandleTransfer (tokenPositionManager nps) (NFTTransferEvent.TokenID event)
        (NFTTransferEvent.From event) (NFTTransferEvent.To event) in
    (setLedger nps tpm, wrap "failed to handle transfer" r).

Definition processEvent (nps : NFTPositionSimulator) (event : NFTEvent)
    : NFTPositionSimulator * result unit :=
  match event with
  | EvMint e => processMintEvent nps e
  | EvIncreaseLiquidity e => processIncreaseLiquidityEvent nps e
  | EvDecreaseLiquidity e => processDecreaseLiquidityEvent nps e
  | EvCollect e => processCollectEvent nps e
  | EvTransfer e => processTransferEvent nps e
  end.

End Simulator.

(* ===================================================================== *)
(** ** Liquidity arithmetic and sample states *)
(* ===================================================================== *)

Definition MaxUint128 : Q := inject_Z (2 ^ 128 - 1).

(** Modelled from the spec: [addDelta(L, dL)] of sections 4.1 and 4.3
    ([LiquidityAddDelta] and [AddDelta] are defined outside the files at
    hand): the sum, unless it leaves the unsigned 128-bit range; a
    negative delta larger than the liquidity is [LiquidityUnderflow]. *)
Definition addDelta (x y : Q) : result Q :=
  let z := Decimal.Add x y in
  if Decimal.IsNegative z then Err (ErrNew "LiquidityUnderflow")
  else if Decimal.GreaterThan z MaxUint128 then Err (ErrNew "LiquidityOverflow")
  else Ok z.

(** The values of the arithmetic outside the files at hand on the inputs
    the examples reach: the prices of the two boundary ticks and of tick
    0, and the step of the SDK when nothing is left to swap in a range
    with liquidity (the price stays and no amount moves).  Elsewhere the
    table answers with an error. *)
Definition tabulatedLib : MathLib :=
  {| GetSqrtRatioAtTick := fun t =>
       if t =? MIN_TICK then Ok 4295128739
       else if t =? MAX_TICK then Ok 1461446703485210103287273052203988822378723970342
       else if t =? 0 then Ok (2 ^ 96)
       else Err (ErrNew "not tabulated");
     ComputeSwapStep := fun current target l remaining fee =>
       if (remaining =? 0) && (0 <? l) && (0 <? current)
       then Ok (current, 0, 0, 0)
       else Err (ErrNew "not tabulated");
     GetTickAtSqrtRatio := fun _ => Err (ErrNew "not tabulated");
     AddDelta := addDelta |}.

(** A pool at price 1 (tick 0) with in-range liquidity [10^18] and no
    initialised tick. *)
Definition samplePool : CorePool.t :=
  {| CorePool.PoolAddress := "0xpool";
     CorePool.HasCreated := false;
     CorePool.Token0 := "0xtoken0";
     CorePool.Token1 := "0xtoken1";
     CorePool.Fee := 3000;
     CorePool.TickSpacing := 60;
     CorePool.MaxLiquidityPerTick := MaxUint128;
     CorePool.CurrentBlockNum := 0%N;
     CorePool.DeployBlockNum := 0%N;
     CorePool.Token0Balance := Decimal.ZERO;
     CorePool.Token1Balance := Decimal.ZERO;
     CorePool.SqrtPriceX96 := inject_Z (2 ^ 96);
     CorePool.Liquidity := inject_Z (10 ^ 18);
     CorePool.TickCurrent := 0;
     CorePool.FeeGrowthGlobal0X128 := Decimal.ZERO;
     CorePool.FeeGrowthGlobal1X128 := Decimal.ZERO;
     CorePool.Ticks := ∅;
     CorePool.PositionManager := ∅ |}.

(** The same pool with the two boundary ticks of a position of liquidity
    [10^18] over [-60, 60]. *)
Definition sampleTicks : TickManager :=
  <[ -60 := {| LiquidityGross := inject_Z (10 ^ 18);
               LiquidityNet := inject_Z (10 ^ 18);
               FeeGrowthOutside0X128 := Decimal.ZERO;
               FeeGrowthOutside1X128 := Decimal.ZERO |} ]>
  (<[ 60 := {| LiquidityGross := inject_Z (10 ^ 18);
               LiquidityNet := inject_Z (- 10 ^ 18);
               FeeGrowthOutside0X128 := Decimal.ZERO;
               FeeGrowthOutside1X128 := Decimal.ZERO |} ]> ∅).

Definition samplePoolWithTicks : CorePool.t :=
  CorePool.setTicks samplePool sampleTicks.

(** The sample pool with no liquidity in range. *)
Definition drainedPool : CorePool.t :=
  CorePool.setSwapResult samplePool (inject_Z (2 ^ 96)) 0 0%Q 0%Q 0%Q.

(** A ledger position of liquidity [2^127] that owes 100 and 200, with
    fee-growth snapshots 10 and 0. *)
Definition samplePosition : TokenPosition :=
  {| TokenID := 1%N; Owner := "0xalice"; Pool := "0xpool";
     TickLower := -60; TickUpper := 60;
     Liquidity := inject_Z (2 ^ 127);
     FeeGrowthInside0LastX128 := inject_Z 10;
     FeeGrowthInside1LastX128 := inject_Z 0;
     TokensOwed0 := inject_Z 100;
     TokensOwed1 := inject_Z 200 |}.

Definition sampleLedger : TokenPositionManager :=
  {| Positions := {[ 1%N := samplePosition ]};
     OwnerTokens := {[ "0xalice" := [1%N] ]};
     PoolTokens := {[ "0xpool" := [1%N] ]} |}.

Definition sampleSimulator : NFTPositionSimulator :=
  {| tokenPositionManager := sampleLedger;
     pools := {[ "0xpool" := samplePool ]} |}.

(** A fee-growth-inside oracle for the examples: the same snapshot for
    every range. *)
Definition constantFeeGrowthInside (fgi0 fgi1 : Q)
    : TickManager -> Z -> Z -> Z -> Q -> Q -> result (Q * Q) :=
  fun _ _ _ _ _ _ => Ok (fgi0, fgi1).

(** A dry run: the static swap of a candidate on the pool, compared with
    the event by [Equal] on all three values. *)
Definition reproduces (lib : MathLib) (p : CorePool.t) (param : UniV3SwapEvent)
    (solution : SwapSolution) : Prop :=
  exists amount0 amount1 priceX96,
    Exact.HandleSwap lib p (Decimal.IsPositive (Amount0 param))
      (AmountSpecified solution) (SqrtPriceLimitX96 solution) true
    = (p, Ok (amount0, amount1, priceX96))
    /\ (amount0 == Amount0 param)%Q
    /\ (amount1 == Amount1 param)%Q
    /\ (priceX96 == SqrtPriceX96 param)%Q.

(* ===================================================================== *)
(** ** nft_event_parsers.go *)
(* ===================================================================== *)

(** A log as the parsers read it: the topics, of 32 bytes each, and the
    data. *)
Record Log : Type := mkLog {
  Topics : list (list byte);
  Data : list byte
}.

(** [big.Int.SetBytes]: the bytes as a big-endian unsigned integer. *)
Definition SetBytes (b : list byte) : Z :=
  fold_left (fun acc x => acc * 256 + Z.of_N (Byte.to_N x)) b 0.

(** [x.Uint64()] of a non-negative [x]: its low 64 bits. *)
Definition Uint64 (x : Z) : Z := x mod 2 ^ 64.

(** [x.Int64()] of a non-negative [x]: its low 64 bits read as a signed
    integer; [int(...)] keeps them on a 64-bit platform. *)
Definition Int64 (x : Z) : Z :=
  let u := x mod 2 ^ 64 in
  if u <? 2 ^ 63 then u else u - 2 ^ 64.

(** [data[low:high]] of a slice whose capacity is its length: a panic
    ([None]) when [high] is beyond the end. *)
Definition slice (data : list byte) (low high : nat) : option (list byte) :=
  if (high <=? length data)%nat then Some (take (high - low) (drop low data))
  else None.

Definition AddressLength : nat := 20.

(** [common.BytesToAddress]: the last 20 bytes, or the bytes padded with
    zeros on the left. *)
Definition BytesToAddress (b : list byte) : list byte :=
  if (AddressLength <? length b)%nat then drop (length b - AddressLength) b
  else replicate (AddressLength - length b) "000"%byte ++ b.

Definition hexDigit (n : N) : ascii :=
  if (n <? 10)%N then ascii_of_N (48 + n) else ascii_of_N (87 + n).

Fixpoint hexOfBytes (b : list byte) : string :=
  match b with
  | [] => EmptyString
  | x :: b' =>
      String (hexDigit (Byte.to_N x / 16))
        (String (hexDigit (Byte.to_N x mod 16)) (hexOfBytes b'))
  end.

(** [strings.ToLower(address.Hex())]: the checksum of [Hex] only chooses
    the case of the digits, which [ToLower] undoes. *)
Definition lowerHex (address : list byte) : string :=
  String "0" (String "x" (hexOfBytes address)).

(** The 32-byte word of index [i] of the data. *)
Definition dataWord (data : list byte) (i : nat) : option (list byte) :=
  slice data (32 * i) (32 * i + 32).

(** [abi.ReadInteger(uint256, topic)] followed by [Uint64()]. *)
Definition topicTokenID (log : Log) (i : nat) : N :=
  Z.to_N (Uint64 (SetBytes (nth i (Topics log) []))).

Definition parseNFTMintEvent (log : Log) : result NFTMintEvent.t :=
  if (length (Topics log) <? 2)%nat then
    Err (ErrNew "not enough topics for NFT Mint event")
  else
    match dataWord (Data log) 0, dataWord (Data log) 1, dataWord (Data log) 2,
          dataWord (Data log) 3, dataWord (Data log) 4 with
    | Some owner, Some tickLowerRaw, Some tickUpperRaw, Some pool, Some amount =>
        Ok {| NFTMintEvent.TokenID := topicTokenID log 1;
              NFTMintEvent.Owner := lowerHex (BytesToAddress owner);
              NFTMintEvent.TickLower := Int64 (SetBytes tickLowerRaw);
              NFTMintEvent.TickUpper := Int64 (SetBytes tickUpperRaw);
              NFTMintEvent.Amount := Decimal.NewFromBigInt (SetBytes amount);
              NFTMintEvent.Pool := lowerHex (BytesToAddress pool) |}
    | _, _, _, _, _ => Panic
    end.

Definition parseNFTIncreaseLiquidityEvent (log : Log)
    : result NFTIncreaseLiquidityEvent.t :=
  if (length (Topics log) <? 2)%nat then
    Err (ErrNew "not enough topics for NFT IncreaseLiquidity event")
  else
    match dataWord (Data log) 0, dataWord (Data log) 1, dataWord (Data log) 2 with
    | Some liquidity, Some amount0, Some amount1 =>
        Ok {| NFTIncreaseLiquidityEvent.TokenID := topicTokenID log 1;
              NFTIncreaseLiquidityEvent.Liquidity :=
                Decimal.NewFromBigInt (SetBytes liquidity);
              NFTIncreaseLiquidityEvent.Amount0 :=
                Decimal.NewFromBigInt (SetBytes amount0);
              NFTIncreaseLiquidityEvent.Amount1 :=
                Decimal.NewFromBigInt (SetBytes amount1) |}
    | _, _, _ => Panic
    end.

Definition parseNFTDecreaseLiquidityEvent (log : Log)
    : result NFTDecreaseLiquidityEvent.t :=
  if (length (Topics log) <? 2)%nat then
    Err (ErrNew "not enough topics for NFT DecreaseLiquidity event")
  else
    match dataWord (Data log) 0, dataWord (Data log) 1, dataWord (Data log) 2 with
    | Some liquidity, Some amount0, Some amount1 =>
        Ok {| NFTDecreaseLiquidityEvent.TokenID := topicTokenID log 1;
              NFTDecreaseLiquidityEvent.Liquidity :=
                Decimal.NewFromBigInt (SetBytes liquidity);
              NFTDecreaseLiquidityEvent.Amount0 :=
                Decimal.NewFromBigInt (SetBytes amount0);
              NFTDecreaseLiquidityEvent.Amount1 :=
                Decimal.NewFromBigInt (SetBytes amount1) |}
    | _, _, _ => Panic
    end.

Definition parseNFTCollectEvent (log : Log) : result NFTCollectEvent.t :=
  if (length (Topics log) <? 2)%nat then
    Err (ErrNew "not enough topics for NFT Collect event")
  else
    match dataWord (Data log) 0, dataWord (Data log) 1 with
    | Some amount0, Some amount1 =>
        Ok {| NFTCollectEvent.TokenID := topicTokenID log 1;
              NFTCollectEvent.Amount0 := Decimal.NewFromBigInt (SetBytes amount0);
              NFTCollectEvent.Amount1 := Decimal.NewFromBigInt (SetBytes amount1) |}
    | _, _ => Panic
    end.

Definition parseNFTTransferEvent (log : Log) : result NFTTransferEvent.t :=
  if (length (Topics log) <? 4)%nat then
    Err (ErrNew "not enough topics for NFT Transfer event")
  else
    Ok {| NFTTransferEvent.TokenID := topicTokenID log 3;
          NFTTransferEvent.From :=
            lowerHex (BytesToAddress (nth 1 (Topics log) []));
          NFTTransferEvent.To :=
            lowerHex (BytesToAddress (nth 2 (Topics log) [])) |}.

(** The ABI encoding the parsers undo: an integer as a big-endian word of
    32 bytes (a negative one in two's complement), an address as 12 zero
    bytes and its 20 bytes. *)
Definition byteOfZ (z : Z) : byte :=
  default "000"%byte (Byte.of_N (Z.to_N (z mod 256))).

Fixpoint bigEndian (n : nat) (v : Z) : list byte :=
  match n with
  | O => []
  | S n' => bigEndian n' (v / 256) ++ [byteOfZ v]
  end.

Definition abiWord (v : Z) : list byte := bigEndian 32 v.

Definition abiAddress (address : list byte) : list byte :=
  replicate 12 "000"%byte ++ address.

Section LogHandlers.

Variable LiquidityAddDelta : Q -> Q -> result Q.
Variable GetFeeGrowthInside :
  TickManager -> Z -> Z -> Z -> Q -> Q -> result (Q * Q).
Variable addressHex : string -> string.

(** The handlers from the log: the parse, whose error is wrapped, and the
    handling of the decoded event. *)
Definition processDecreaseLiquidityLog (nps : NFTPositionSimulator) (log : Log)
    : NFTPositionSimulator * result unit :=
  match parseNFTDecreaseLiquidityEvent log with
  | Ok event =>
      processDecreaseLiquidityEvent LiquidityAddDelta GetFeeGrowthInside
        addressHex nps event
  | Err e => (nps, Err (ErrWrap "failed to parse NFT decrease liquidity event" e))
  | Panic => (nps, Panic)
  end.

Definition processTransferLog (nps : NFTPositionSimulator) (log : Log)
    : NFTPositionSimulator * result unit :=
  match parseNFTTransferEvent log with
  | Ok event => processTransferEvent nps event
  | Err e => (nps, Err (ErrWrap "failed to parse NFT transfer event" e))
  | Panic => (nps, Panic)
  end.

End LogHandlers.

(* ===================================================================== *)
(** ** The ledger: sequences of operations *)
(* ===================================================================== *)

(** The mint of a given token, and the transfer of a given token. *)
Definition isMintOf (tokenID : N) (op : LedgerOp) : bool :=
  match op with
  | OpMint tid _ _ _ _ _ _ _ => (tid =? tokenID)%N
  | _ => false
  end.

Definition isTransferOf (tokenID : N) (op : LedgerOp) : bool :=
  match op with
  | OpTransfer tid _ _ => (tid =? tokenID)%N
  | _ => false
  end.

(** What a position keeps for as long as the ledger holds it. *)
Definition sameRange (p p' : TokenPosition) : Prop :=
  TokenID p' = TokenID p /\ Pool p' = Pool p
  /\ TickLower p' = TickLower p /\ TickUpper p' = TickUpper p.

(** A sequence of operations none of which is, at its turn, a transfer
    that names a sender other than the owner. *)
Fixpoint unrefused (LiquidityAddDelta : Q -> Q -> result Q)
    (tpm : TokenPositionManager) (ops : list LedgerOp) : Prop :=
  match ops with
  | [] => True
  | op :: ops' =>
      ~ refused tpm op
      /\ unrefused LiquidityAddDelta (applyOp LiquidityAddDelta tpm op) ops'
  end.

(* ===================================================================== *)
(** ** The swap engine: notions for its properties *)
(* ===================================================================== *)

(** A price limit on the side of the current price the direction moves
    to, and strictly inside the price bounds. *)
Definition admissibleLimit (p : CorePool.t) (zeroForOne : bool) (limit : Q) : Prop :=
  if zeroForOne
  then (MIN_SQRT_RATIO < limit)%Q /\ (limit < CorePool.SqrtPriceX96 p)%Q
  else (CorePool.SqrtPriceX96 p < limit)%Q /\ (limit < MAX_SQRT_RATIO)%Q.

(** The configuration of a pool and its token balances. *)
Definition sameConfiguration (p p' : CorePool.t) : Prop :=
  CorePool.PoolAddress p' = CorePool.PoolAddress p
  /\ CorePool.HasCreated p' = CorePool.HasCreated p
  /\ CorePool.Token0 p' = CorePool.Token0 p
  /\ CorePool.Token1 p' = CorePool.Token1 p
  /\ CorePool.Fee p' = CorePool.Fee p
  /\ CorePool.TickSpacing p' = CorePool.TickSpacing p
  /\ CorePool.MaxLiquidityPerTick p' = CorePool.MaxLiquidityPerTick p
  /\ CorePool.CurrentBlockNum p' = CorePool.CurrentBlockNum p
  /\ CorePool.DeployBlockNum p' = CorePool.DeployBlockNum p
  /\ CorePool.Token0Balance p' = CorePool.Token0Balance p
  /\ CorePool.Token1Balance p' = CorePool.Token1Balance p.

(** The frame of a call of [HandleSwap] in a direction, on its outcome
    [r]: the configuration, the balances and the position store are
    kept; so is the fee growth of the token that is not paid in; and a
    call that does not return normally has written the tick map at most. *)
Definition swapFrame (p : CorePool.t) (zeroForOne : bool)
    (r : CorePool.t * result (Q * Q * Q)) : Prop :=
  sameConfiguration p (fst r)
  /\ CorePool.PositionManager (fst r) = CorePool.PositionManager p
  /\ (if zeroForOne
      then CorePool.FeeGrowthGlobal1X128 (fst r) = CorePool.FeeGrowthGlobal1X128 p
      else CorePool.FeeGrowthGlobal0X128 (fst r) = CorePool.FeeGrowthGlobal0X128 p)
  /\ (is_Ok (snd r) = false ->
      fst r = CorePool.setTicks p (CorePool.Ticks (fst r))).

(* ===================================================================== *)
(** ** The pool: initialisation, mint, burn and collect *)
(* ===================================================================== *)

(** [Initialize], [Mint], [Burn], [Collect], [checkTicks],
    [modifyPosition] and [updatePosition] have the same text in both
    variants of the pool (lines 407-462 and 892-1016, and again lines
    1153-1208 and 1565-1689). *)
Module Pool.

(** What these methods call and that lives outside the files at hand.
    A callee that returns a value with an error is taken with both
    where the caller assigns the value before it looks at the error
    ([GetTickAtSqrtRatio] in [Initialize], [AddDelta] in
    [modifyPosition]).  A method that writes its receiver ([Tick.Update],
    [Position.Update], [Position.UpdateBurn]) returns the receiver after
    the call; [CollectPosition] returns the position store after the
    call. *)
Record Lib : Type := mkLib {
  GetTickAtSqrtRatio : Q -> Z * option error;
  GetSqrtRatioAtTick : Z -> result Q;
  GetAmount0Delta : Q -> Q -> Q -> result Q;
  GetAmount1Delta : Q -> Q -> Q -> result Q;
  AddDelta : Q -> Q -> Q * option error;
  GetPositionKey : string -> Z -> Z -> string;
  GetPositionReadonly : gmap string Position -> string -> Z -> Z -> Position;
  TickUpdate : Tick -> Q -> Z -> Q -> Q -> bool -> Q -> Tick * result bool;
  GetFeeGrowthInside : TickManager -> Z -> Z -> Z -> Q -> Q -> result (Q * Q);
  PositionUpdate : Position -> Q -> Q -> Q -> Position * result unit;
  PositionUpdateBurn : Position -> Q -> Q -> Position;
  CollectPosition :
    gmap string Position -> string -> Z -> Z -> Q -> Q
    -> gmap string Position * result (Q * Q)
}.

Definition NewPosition : Position :=
  {| PositionLiquidity := Decimal.ZERO;
     PositionFeeGrowthInside0LastX128 := Decimal.ZERO;
     PositionFeeGrowthInside1LastX128 := Decimal.ZERO;
     PositionTokensOwed0 := Decimal.ZERO;
     PositionTokensOwed1 := Decimal.ZERO |}.

(** Modelled from the spec: [GetPositionAndInitIfAbsent] obtains the
    position under a key, creating it when the store has none (section
    3: positions materialise on first mint; the method is defined
    outside the files at hand). *)
Definition GetPositionAndInitIfAbsent (pm : gmap string Position) (key : string)
    : gmap string Position * Position :=
  match pm !! key with
  | Some position => (pm, position)
  | None => (<[key := NewPosition]> pm, NewPosition)
  end.

(** Modelled from the spec: [TickManager.Clear] removes a tick from the
    map (section 3; the method is defined outside the files at hand). *)
Definition Clear (tm : TickManager) (index : Z) : TickManager := delete index tm.

(** The field assignments of the methods below. *)
Definition setTickCurrent (p : CorePool.t) (tickCurrent : Z) : CorePool.t :=
  {| CorePool.PoolAddress := CorePool.PoolAddress p;
     CorePool.HasCreated := CorePool.HasCreated p;
     CorePool.Token0 := CorePool.Token0 p; CorePool.Token1 := CorePool.Token1 p;
     CorePool.Fee := CorePool.Fee p; CorePool.TickSpacing := CorePool.TickSpacing p;
     CorePool.MaxLiquidityPerTick := CorePool.MaxLiquidityPerTick p;
     CorePool.CurrentBlockNum := CorePool.CurrentBlockNum p;
     CorePool.DeployBlockNum := CorePool.DeployBlockNum p;
     CorePool.Token0Balance := CorePool.Token0Balance p;
     CorePool.Token1Balance := CorePool.Token1Balance p;
     CorePool.SqrtPriceX96 := CorePool.SqrtPriceX96 p;
     CorePool.Liquidity := CorePool.Liquidity p;
     CorePool.TickCurrent := tickCurrent;
     CorePool.FeeGrowthGlobal0X128 := CorePool.FeeGrowthGlobal0X128 p;
     CorePool.FeeGrowthGlobal1X128 := CorePool.FeeGrowthGlobal1X128 p;
     CorePool.Ticks := CorePool.Ticks p;
     CorePool.PositionManager := CorePool.PositionManager p |}.

Definition setSqrtPriceX96 (p : CorePool.t) (sqrtPriceX96 : Q) : CorePool.t :=
  {| CorePool.PoolAddress := CorePool.PoolAddress p;
     CorePool.HasCreated := CorePool.HasCreated p;
     CorePool.Token0 := CorePool.Token0 p; CorePool.Token1 := CorePool.Token1 p;
     CorePool.Fee := CorePool.Fee p; CorePool.TickSpacing := CorePool.TickSpacing p;
     CorePool.MaxLiquidityPerTick := CorePool.MaxLiquidityPerTick p;
     CorePool.CurrentBlockNum := CorePool.CurrentBlockNum p;
     CorePool.DeployBlockNum := CorePool.DeployBlockNum p;
     CorePool.Token0Balance := CorePool.Token0Balance p;
     CorePool.Token1Balance := CorePool.Token1Balance p;
     CorePool.SqrtPriceX96 := sqrtPriceX96;
     CorePool.Liquidity := CorePool.Liquidity p;
     CorePool.TickCurrent := CorePool.TickCurrent p;
     CorePool.FeeGrowthGlobal0X128 := CorePool.FeeGrowthGlobal0X128 p;
     CorePool.FeeGrowthGlobal1X128 := CorePool.FeeGrowthGlobal1X128 p;
     CorePool.Ticks := CorePool.Ticks p;
     CorePool.PositionManager := CorePool.PositionManager p |}.

Definition setLiquidity (p : CorePool.t) (liquidity : Q) : CorePool.t :=
  {| CorePool.PoolAddress := CorePool.PoolAddress p;
     CorePool.HasCreated := CorePool.HasCreated p;
     CorePool.Token0 := CorePool.Token0 p; CorePool.Token1 := CorePool.Token1 p;
     CorePool.Fee := CorePool.Fee p; CorePool.TickSpacing := CorePool.TickSpacing p;
     CorePool.MaxLiquidityPerTick := CorePool.MaxLiquidityPerTick p;
     CorePool.CurrentBlockNum := CorePool.CurrentBlockNum p;
     CorePool.DeployBlockNum := CorePool.DeployBlockNum p;
     CorePool.Token0Balance := CorePool.Token0Balance p;
     CorePool.Token1Balance := CorePool.Token1Balance p;
     CorePool.SqrtPriceX96 := CorePool.SqrtPriceX96 p;
     CorePool.Liquidity := liquidity;
     CorePool.TickCurrent := CorePool.TickCurrent p;
     CorePool.FeeGrowthGlobal0X128 := CorePool.FeeGrowthGlobal0X128 p;
     CorePool.FeeGrowthGlobal1X128 := CorePool.FeeGrowthGlobal1X128 p;
     CorePool.Ticks := CorePool.Ticks p;
     CorePool.PositionManager := CorePool.PositionManager p |}.

(** The writes that reach the pool through [p.PositionManager]. *)
Definition setPositions (p : CorePool.t) (pm : gmap string Position) : CorePool.t :=
  {| CorePool.PoolAddress := CorePool.PoolAddress p;
     CorePool.HasCreated := CorePool.HasCreated p;
     CorePool.Token0 := CorePool.Token0 p; CorePool.Token1 := CorePool.Token1 p;
     CorePool.Fee := CorePool.Fee p; CorePool.TickSpacing := CorePool.TickSpacing p;
     CorePool.MaxLiquidityPerTick := CorePool.MaxLiquidityPerTick p;
     CorePool.CurrentBlockNum := CorePool.CurrentBlockNum p;
     CorePool.DeployBlockNum := CorePool.DeployBlockNum p;
     CorePool.Token0Balance := CorePool.Token0Balance p;
     CorePool.Token1Balance := CorePool.Token1Balance p;
     CorePool.SqrtPriceX96 := CorePool.SqrtPriceX96 p;
     CorePool.Liquidity := CorePool.Liquidity p;
     CorePool.TickCurrent := CorePool.TickCurrent p;
     CorePool.FeeGrowthGlobal0X128 := CorePool.FeeGrowthGlobal0X128 p;
     CorePool.FeeGrowthGlobal1X128 := CorePool.FeeGrowthGlobal1X128 p;
     CorePool.Ticks := CorePool.Ticks p;
     CorePool.PositionManager := pm |}.

Section Operations.

Variable lib : Lib.

(** [Initialize]: the current tick is assigned before the error of
    [GetTickAtSqrtRatio] is looked at. *)
Definition Initialize (p : CorePool.t) (sqrtPriceX96 : Q) : CorePool.t * result unit :=
  if negb (Decimal.IsZero (CorePool.SqrtPriceX96 p)) then
    (p, Err (ErrNew "Already initialized!"))
  else
    let '(tickCurrent, err) := GetTickAtSqrtRatio lib sqrtPriceX96 in
    let p1 := setTickCurrent p tickCurrent in
    match err with
    | Some e => (p1, Err e)
    | None => (setSqrtPriceX96 p1 sqrtPriceX96, Ok tt)
    end.

Definition checkTicks (tickLower tickUpper : Z) : option error :=
  if negb (tickLower <? tickUpper) then
    Some (ErrNew "tickLower should lower than tickUpper")
  else if negb (tickLower >=? MIN_TICK) then
    Some (ErrNew "tickLower should NOT lower than MIN_TICK")
  else if negb (tickUpper <=? MAX_TICK) then
    Some (ErrNew "tickUpper should NOT greater than MAX_TICK")
  else None.

(** [GetTickAndInitIfAbsent] followed by [tick.Update] on the tick the
    map holds, as [updatePosition] does for each of the two boundaries. *)
Definition updateTick (p : CorePool.t) (tm : TickManager) (index : Z) (delta : Q)
    (upper : bool) : TickManager * result bool :=
  match GetTickAndInitIfAbsent tm index with
  | (tm1, Ok tick) =>
      let '(tick', r) :=
        TickUpdate lib tick delta (CorePool.TickCurrent p)
          (CorePool.FeeGrowthGlobal0X128 p) (CorePool.FeeGrowthGlobal1X128 p)
          upper (CorePool.MaxLiquidityPerTick p) in
      (<[index := tick']> tm1, r)
  | (tm1, Err e) => (tm1, Err e)
  | (tm1, Panic) => (tm1, Panic)
  end.

(** [updatePosition]: the pool after the call and the key of the
    position returned (a pointer into the position store). *)
Definition updatePosition (p : CorePool.t) (owner : string) (lower upper : Z)
    (delta : Q) : CorePool.t * result string :=
  let key := GetPositionKey lib owner lower upper in
  let '(pm1, position) :=
    GetPositionAndInitIfAbsent (CorePool.PositionManager p) key in
  let p1 := setPositions p pm1 in
  let '(tm2, flipped) :=
    if negb (Decimal.IsZero delta) then
      match updateTick p (CorePool.Ticks p) lower delta false with
      | (tm1, Ok flippedLower) =>
          match updateTick p tm1 upper delta true with
          | (tm2, Ok flippedUpper) => (tm2, Ok (flippedLower, flippedUpper))
          | (tm2, Err e) => (tm2, Err e)
          | (tm2, Panic) => (tm2, Panic)
          end
      | (tm1, Err e) => (tm1, Err e)
      | (tm1, Panic) => (tm1, Panic)
      end
    else (CorePool.Ticks p, Ok (false, false)) in
  let p2 := CorePool.setTicks p1 tm2 in
  match flipped with
  | Ok (flippedLower, flippedUpper) =>
      match GetFeeGrowthInside lib tm2 lower upper (CorePool.TickCurrent p)
              (CorePool.FeeGrowthGlobal0X128 p) (CorePool.FeeGrowthGlobal1X128 p) with
      | Ok (fi0, fi1) =>
          let '(position', r) := PositionUpdate lib position delta fi0 fi1 in
          let p3 := setPositions p2 (<[key := position']> pm1) in
          match r with
          | Ok _ =>
              if Decimal.IsNegative delta then
                let tm3 := if flippedLower then Clear tm2 lower else tm2 in
                let tm4 := if flippedUpper then Clear tm3 upper else tm3 in
                (CorePool.setTicks p3 tm4, Ok key)
              else (p3, Ok key)
          | Err e => (p3, Err e)
          | Panic => (p3, Panic)
          end
      | Err e => (p2, Err e)
      | Panic => (p2, Panic)
      end
  | Err e => (p2, Err e)
  | Panic => (p2, Panic)
  end.

(** The amounts of [modifyPosition] for a delta that is not zero, by the
    place of the current tick; in range the liquidity of the pool is
    assigned, before the error of [AddDelta] is looked at. *)
Definition positionAmounts (p : CorePool.t) (tickLower tickUpper : Z)
    (liquidityDelta : Q) : CorePool.t * result (Q * Q) :=
  if CorePool.TickCurrent p <? tickLower then
    (p,
     bind (GetSqrtRatioAtTick lib tickLower) (fun tmp1 =>
     bind (GetSqrtRatioAtTick lib tickUpper) (fun tmp2 =>
     bind (GetAmount0Delta lib tmp1 tmp2 liquidityDelta) (fun amount0 =>
     Ok (amount0, Decimal.ZERO)))))
  else if CorePool.TickCurrent p <? tickUpper then
    match
      bind (GetSqrtRatioAtTick lib tickUpper) (fun tmp2 =>
      bind (GetAmount0Delta lib (CorePool.SqrtPriceX96 p) tmp2 liquidityDelta)
        (fun amount0 =>
      bind (GetSqrtRatioAtTick lib tickLower) (fun tmp3 =>
      bind (GetAmount1Delta lib tmp3 (CorePool.SqrtPriceX96 p) liquidityDelta)
        (fun amount1 =>
      Ok (amount0, amount1)))))
    with
    | Ok amounts =>
        let '(liquidity, err) := AddDelta lib (CorePool.Liquidity p) liquidityDelta in
        let p1 := setLiquidity p liquidity in
        match err with
        | Some e => (p1, Err e)
        | None => (p1, Ok amounts)
        end
    | Err e => (p, Err e)
    | Panic => (p, Panic)
    end
  else
    (p,
     bind (GetSqrtRatioAtTick lib tickLower) (fun tmp1 =>
     bind (GetSqrtRatioAtTick lib tickUpper) (fun tmp2 =>
     bind (GetAmount1Delta lib tmp1 tmp2 liquidityDelta) (fun amount1 =>
     Ok (Decimal.ZERO, amount1))))).

(** [modifyPosition]: the pool after the call; the key of the position
    and the two amounts. *)
Definition modifyPosition (p : CorePool.t) (owner : string)
    (tickLower tickUpper : Z) (liquidityDelta : Q)
    : CorePool.t * result (string * (Q * Q)) :=
  match checkTicks tickLower tickUpper with
  | Some e => (p, Err e)
  | None =>
      let positionView :=
        GetPositionReadonly lib (CorePool.PositionManager p) owner
          tickLower tickUpper in
      if Decimal.IsNegative liquidityDelta
         && negb (Decimal.GreaterThanOrEqual (PositionLiquidity positionView)
                    (Decimal.Neg liquidityDelta))
      then (p, Err (ErrNew "Liquidity Underflow"))
      else
        match updatePosition p owner tickLower tickUpper liquidityDelta with
        | (p1, Ok position) =>
            if negb (Decimal.IsZero liquidityDelta) then
              let '(p2, r) := positionAmounts p1 tickLower tickUpper liquidityDelta in
              (p2, bind r (fun amounts => Ok (position, amounts)))
            else (p1, Ok (position, (Decimal.ZERO, Decimal.ZERO)))
        | (p1, Err e) => (p1, Err e)
        | (p1, Panic) => (p1, Panic)
        end
  end.

Definition Mint (p : CorePool.t) (recipient : string) (tickLower tickUpper : Z)
    (amount : Q) : CorePool.t * result (Q * Q) :=
  if negb (Decimal.GreaterThan amount Decimal.ZERO) then
    (p, Err (ErrNew "Mint amount should greater than 0"))
  else
    let '(p1, r) := modifyPosition p recipient tickLower tickUpper amount in
    (p1, bind r (fun '(_, amounts) => Ok amounts)).

(** [Burn]: the amounts are negated; when one of them is positive the
    position returned by [modifyPosition] is written through its
    pointer. *)
Definition Burn (p : CorePool.t) (owner : string) (tickLower tickUpper : Z)
    (amount : Q) : CorePool.t * result (Q * Q) :=
  match modifyPosition p owner tickLower tickUpper (Decimal.Neg amount) with
  | (p1, Ok (key, (amount0, amount1))) =>
      let amount0 := Decimal.Neg amount0 in
      let amount1 := Decimal.Neg amount1 in
      if Decimal.IsPositive amount0 || Decimal.IsPositive amount1 then
        match CorePool.PositionManager p1 !! key with
        | Some position =>
            let newTokensOwed0 := Decimal.Add (PositionTokensOwed0 position) amount0 in
            let newTokensOwed1 := Decimal.Add (PositionTokensOwed1 position) amount1 in
            (setPositions p1
               (<[key := PositionUpdateBurn lib position newTokensOwed0 newTokensOwed1]>
                  (CorePool.PositionManager p1)),
             Ok (amount0, amount1))
        | None => (p1, Panic)
        end
      else (p1, Ok (amount0, amount1))
  | (p1, Err e) => (p1, Err e)
  | (p1, Panic) => (p1, Panic)
  end.

Definition Collect (p : CorePool.t) (recipient : string) (tickLower tickUpper : Z)
    (amount0Req amount1Req : Q) : CorePool.t * result (Q * Q) :=
  match checkTicks tickLower tickUpper with
  | Some e => (p, Err e)
  | None =>
      let '(pm, r) :=
        CollectPosition lib (CorePool.PositionManager p) recipient
          tickLower tickUpper amount0Req amount1Req in
      (setPositions p pm, r)
  end.

End Operations.

(** What no mint, burn or collect assigns: the configuration and the
    balances, the price, the current tick and both global fee growths. *)
Definition samePrice (p p' : CorePool.t) : Prop :=
  sameConfiguration p p'
  /\ CorePool.SqrtPriceX96 p' = CorePool.SqrtPriceX96 p
  /\ CorePool.TickCurrent p' = CorePool.TickCurrent p
  /\ CorePool.FeeGrowthGlobal0X128 p' = CorePool.FeeGrowthGlobal0X128 p
  /\ CorePool.FeeGrowthGlobal1X128 p' = CorePool.FeeGrowthGlobal1X128 p.

(** The frame of a change of liquidity by [delta] over a range: the
    liquidity of the pool is assigned only when the current tick is in
    the range and the delta is not zero, and then with what [AddDelta]
    returns for it. *)
Definition liquidityFrame (lib : Lib) (p p' : CorePool.t)
    (tickLower tickUpper : Z) (delta : Q) : Prop :=
  samePrice p p'
  /\ (CorePool.Liquidity p' = CorePool.Liquidity p
      \/ (tickLower <= CorePool.TickCurrent p < tickUpper
          /\ Decimal.IsZero delta = false
          /\ CorePool.Liquidity p'
             = fst (AddDelta lib (CorePool.Liquidity p) delta))).

(** Externals for the examples: prices that grow with the tick, amounts
    that are the liquidity delta itself, the sum as [AddDelta], and
    tick and position updates that add the delta. *)
Definition sampleLib : Lib :=
  {| GetTickAtSqrtRatio := fun _ => (0, None);
     GetSqrtRatioAtTick := fun t => Ok (inject_Z (2 ^ 96 + t));
     GetAmount0Delta := fun _ _ l => Ok l;
     GetAmount1Delta := fun _ _ l => Ok l;
     AddDelta := fun x y => (Decimal.Add x y, None);
     GetPositionKey := fun owner _ _ => owner;
     GetPositionReadonly := fun pm owner _ _ => default NewPosition (pm !! owner);
     TickUpdate := fun t delta _ _ _ upper _ =>
       ({| LiquidityGross := Decimal.Add (LiquidityGross t) (Decimal.Abs delta);
           LiquidityNet :=
             if upper then Decimal.Sub (LiquidityNet t) delta
             else Decimal.Add (LiquidityNet t) delta;
           FeeGrowthOutside0X128 := FeeGrowthOutside0X128 t;
           FeeGrowthOutside1X128 := FeeGrowthOutside1X128 t |},
        Ok false);
     GetFeeGrowthInside := fun _ _ _ _ _ _ => Ok (Decimal.ZERO, Decimal.ZERO);
     PositionUpdate := fun pos delta fi0 fi1 =>
       ({| PositionLiquidity := Decimal.Add (PositionLiquidity pos) delta;
           PositionFeeGrowthInside0LastX128 := fi0;
           PositionFeeGrowthInside1LastX128 := fi1;
           PositionTokensOwed0 := PositionTokensOwed0 pos;
           PositionTokensOwed1 := PositionTokensOwed1 pos |},
        Ok tt);
     PositionUpdateBurn := fun pos owed0 owed1 =>
       {| PositionLiquidity := PositionLiquidity pos;
          PositionFeeGrowthInside0LastX128 := PositionFeeGrowthInside0LastX128 pos;
          PositionFeeGrowthInside1LastX128 := PositionFeeGrowthInside1LastX128 pos;
          PositionTokensOwed0 := owed0;
          PositionTokensOwed1 := owed1 |};
     CollectPosition := fun pm _ _ _ _ _ => (pm, Ok (Decimal.ZERO, Decimal.ZERO)) |}.

(** A pool that has not been initialised. *)
Definition freshPool : CorePool.t :=
  CorePool.setSwapResult samplePool Decimal.ZERO 0 Decimal.ZERO Decimal.ZERO
    Decimal.ZERO.

End Pool.

(* ===================================================================== *)
(** ** Facts about decimals *)
(* ===================================================================== *)

Lemma GreaterThan_spec (a b : Q) : Decimal.GreaterThan a b = true <-> (b < a)%Q.
Proof.
  unfold Decimal.GreaterThan, Decimal.Cmp.
  change (b < a)%Q with (a > b)%Q. rewrite Qgt_alt.
  destruct (a ?= b)%Q; split; congruence.
Qed.

Lemma LessThan_spec (a b : Q) : Decimal.LessThan a b = true <-> (a < b)%Q.
Proof.
  unfold Decimal.LessThan, Decimal.Cmp. rewrite Qlt_alt.
  destruct (a ?= b)%Q; split; congruence.
Qed.

Lemma Equal_spec (a b : Q) : Decimal.Equal a b = true <-> (a == b)%Q.
Proof.
  unfold Decimal.Equal, Decimal.Cmp. rewrite Qeq_alt.
  destruct (a ?= b)%Q; split; congruence.
Qed.

Lemma IsZero_spec (a : Q) : Decimal.IsZero a = true <-> (a == 0)%Q.
Proof. apply Equal_spec. Qed.

Lemma IsPositive_spec (a : Q) : Decimal.IsPositive a = true <-> (0 < a)%Q.
Proof. apply GreaterThan_spec. Qed.

Lemma IsNegative_spec (a : Q) : Decimal.IsNegative a = true <-> (a < 0)%Q.
Proof. apply LessThan_spec. Qed.

Lemma GreaterThan_false (a b : Q) : Decimal.GreaterThan a b = false <-> (a <= b)%Q.
Proof.
  rewrite <- not_true_iff_false, GreaterThan_spec. split.
  - apply Qnot_lt_le.
  - apply Qle_not_lt.
Qed.

Lemma Qnum_nonneg (x : Q) : (0 <= x)%Q <-> (0 <= Qnum x)%Z.
Proof. unfold Qle. simpl. rewrite Z.mul_1_r. reflexivity. Qed.

Lemma BigInt_nonneg (x : Q) : (0 <= x)%Q -> (0 <= Decimal.BigInt x)%Z.
Proof.
  rewrite Qnum_nonneg. intros H. unfold Decimal.BigInt.
  apply Z.quot_pos; lia.
Qed.

Lemma RoundDown0_nonneg (x : Q) : (0 <= x)%Q -> (0 <= Decimal.RoundDown0 x)%Q.
Proof.
  intros H. unfold Decimal.RoundDown0.
  apply Qnum_nonneg. simpl. apply BigInt_nonneg, H.
Qed.

(** A quotient of a non-negative decimal by a positive one is
    non-negative: the rounding of the last digit moves away from zero
    only upwards. *)
Lemma DivRound_nonneg (d d2 : Q) (precision : Z) (q : Q) :
  (0 <= d)%Q -> (0 < d2)%Q ->
  Decimal.DivRound d d2 precision = Some q -> (0 <= q)%Q.
Proof.
  intros Hd Hd2. unfold Decimal.DivRound.
  destruct (Qnum d2 =? 0)%Z eqn:E; [discriminate|].
  cbv zeta.
  set (x := (d / d2 * inject_Z (10 ^ precision))%Q).
  assert (Hpow : (0 <= 10 ^ precision)%Z) by (apply Z.pow_nonneg; lia).
  assert (Hx : (0 <= Qnum x)%Z).
  { apply Qnum_nonneg. unfold x. apply Qmult_le_0_compat.
    - apply Qle_shift_div_l; [exact Hd2|]. rewrite Qmult_0_l. exact Hd.
    - apply Qnum_nonneg. simpl. exact Hpow. }
  assert (Hq : (0 <= Z.quot (Qnum x) (Z.pos (Qden x)))%Z)
    by (apply Z.quot_pos; lia).
  assert (Hs : (Z.sgn (Qnum d) * Z.sgn (Qnum d2) <? 0)%Z = false).
  { apply Z.ltb_ge. apply Z.mul_nonneg_nonneg.
    - apply Z.sgn_nonneg. apply Qnum_nonneg, Hd.
    - apply Z.sgn_nonneg. apply Qnum_nonneg. apply Qlt_le_weak, Hd2. }
  rewrite Hs. intros [= <-].
  unfold Qdiv. apply Qmult_le_0_compat.
  - match goal with
    | |- context [Z.quot ?n ?m] =>
        assert (Hq' : (0 <= Z.quot n m)%Z)
          by (apply Z.quot_pos; [exact Hx | lia])
    end.
    match goal with
    | |- (0 <= inject_Z ?z)%Q =>
        assert (Hz : (0 <= z)%Z) by (destruct (2 * Z.abs _ <? _)%Z; lia);
        apply Qnum_nonneg; exact Hz
    end.
  - apply Qinv_le_0_compat. apply Qnum_nonneg. cbn [Qnum inject_Z]. exact Hpow.
Qed.

Lemma Q128_pos : (0 < Q128)%Q.
Proof. reflexivity. Qed.

Lemma divQ128RoundDown_nonneg (x : Q) : (0 <= x)%Q -> (0 <= divQ128RoundDown x)%Q.
Proof.
  intros H. unfold divQ128RoundDown, Decimal.Div.
  destruct (Decimal.DivRound x Q128 Decimal.DivisionPrecision) as [q|] eqn:E.
  - apply RoundDown0_nonneg. eapply DivRound_nonneg; eauto. apply Q128_pos.
  - apply Qle_refl.
Qed.

(** The fees earned are non-negative when the snapshot did not go back
    and the liquidity is non-negative. *)
Lemma feesEarned_nonneg (fgi last l : Q) :
  (last <= fgi)%Q -> (0 <= l)%Q -> (0 <= feesEarned fgi last l)%Q.
Proof.
  intros H1 H2. unfold feesEarned. apply divQ128RoundDown_nonneg.
  unfold Decimal.Mul, Decimal.Sub. apply Qmult_le_0_compat; [lra|exact H2].
Qed.

(** The quotient kept by [Div] is not the floor: just below a whole
    number of units the sixteenth digit rounds up to it. *)
Example feesEarned_above_floor :
  feesEarned (inject_Z (2 ^ 128 - 1)) 0%Q 1%Q = 1%Q
  /\ ((2 ^ 128 - 1) / 2 ^ 128 = 0)%Z.
Proof. split; reflexivity. Qed.

(* ===================================================================== *)
(** ** The ledger: positions *)
(* ===================================================================== *)

Lemma storePosition_same (tpm : TokenPositionManager) (tokenID : N) (p : TokenPosition) :
  Positions tpm !! tokenID = Some p -> storePosition tpm tokenID p = tpm.
Proof.
  intros H. destruct tpm as [ps os pl]. unfold storePosition. simpl in *.
  f_equal. by apply insert_id.
Qed.

Lemma setLedger_same (nps : NFTPositionSimulator) :
  setLedger nps (tokenPositionManager nps) = nps.
Proof. by destruct nps. Qed.

Section LedgerFacts.

Variable LiquidityAddDelta : Q -> Q -> result Q.

Lemma IncreaseLiquidity_identity (p : TokenPosition) (d f0 f1 : Q) :
  sameIdentity p (fst (IncreaseLiquidity LiquidityAddDelta p d f0 f1)).
Proof.
  unfold IncreaseLiquidity, sameIdentity.
  destruct (_ || _); [by simpl|].
  destruct (LiquidityAddDelta _ _); [|by simpl|by simpl].
  destruct (_ || _); by simpl.
Qed.

(** With a zero delta both updates return their error and leave the
    position as it was. *)
Lemma IncreaseLiquidity_zero (p : TokenPosition) (d f0 f1 : Q) :
  (d == 0)%Q ->
  IncreaseLiquidity LiquidityAddDelta p d f0 f1
  = (p, Err (ErrNew "liquidity delta must be positive")).
Proof.
  intros Hd. unfold IncreaseLiquidity.
  apply IsZero_spec in Hd. by rewrite Hd.
Qed.

Lemma DecreaseLiquidity_zero (p : TokenPosition) (d f0 f1 a0 a1 : Q) :
  (d == 0)%Q ->
  DecreaseLiquidity LiquidityAddDelta p d f0 f1 a0 a1
  = (p, Err (ErrNew "liquidity delta must be negative")).
Proof.
  intros Hd. unfold DecreaseLiquidity.
  apply IsZero_spec in Hd. by rewrite Hd.
Qed.

(** A positive delta is what [DecreaseLiquidity] refuses. *)
Lemma DecreaseLiquidity_positive (p : TokenPosition) (d f0 f1 a0 a1 : Q) :
  (0 < d)%Q ->
  DecreaseLiquidity LiquidityAddDelta p d f0 f1 a0 a1
  = (p, Err (ErrNew "liquidity delta must be negative")).
Proof.
  intros Hd. unfold DecreaseLiquidity.
  apply IsPositive_spec in Hd. rewrite Hd. by rewrite orb_true_r.
Qed.

(** What a successful increase writes. *)
Lemma IncreaseLiquidity_ok (p p' : TokenPosition) (d f0 f1 : Q) :
  IncreaseLiquidity LiquidityAddDelta p d f0 f1 = (p', Ok tt) ->
  let fees0 := feesEarned f0 (FeeGrowthInside0LastX128 p) (Liquidity p) in
  let fees1 := feesEarned f1 (FeeGrowthInside1LastX128 p) (Liquidity p) in
  (0 < d)%Q
  /\ LiquidityAddDelta (Liquidity p) d = Ok (Liquidity p')
  /\ FeeGrowthInside0LastX128 p' = f0
  /\ FeeGrowthInside1LastX128 p' = f1
  /\ TokensOwed0 p' =
       (if Decimal.GreaterThan fees0 0 || Decimal.GreaterThan fees1 0
        then TokensOwed0 p + fees0 else TokensOwed0 p)%Q
  /\ TokensOwed1 p' =
       (if Decimal.GreaterThan fees0 0 || Decimal.GreaterThan fees1 0
        then TokensOwed1 p + fees1 else TokensOwed1 p)%Q.
Proof.
  unfold IncreaseLiquidity.
  destruct (Decimal.IsZero d) eqn:Ez; [discriminate|].
  destruct (Decimal.IsNegative d) eqn:En; [discriminate|]. simpl.
  assert (Hd : (0 < d)%Q).
  { apply Qnot_le_lt. intros Hle. apply Qle_lteq in Hle as [Hlt|Heq].
    - apply IsNegative_spec in Hlt. congruence.
    - apply IsZero_spec in Heq. congruence. }
  destruct (LiquidityAddDelta _ _) as [l| |] eqn:El; [|discriminate|discriminate].
  unfold Decimal.ZERO.
  destruct (_ || _); intros [= <-]; simpl; auto 10.
Qed.

(** What a successful decrease writes, when it is handed a negative
    delta. *)
Lemma DecreaseLiquidity_ok (p p' : TokenPosition) (d f0 f1 a0 a1 : Q) :
  DecreaseLiquidity LiquidityAddDelta p d f0 f1 a0 a1 = (p', Ok tt) ->
  (d < 0)%Q
  /\ LiquidityAddDelta (Liquidity p) d = Ok (Liquidity p')
  /\ FeeGrowthInside0LastX128 p' = f0
  /\ FeeGrowthInside1LastX128 p' = f1
  /\ TokensOwed0 p' =
       (TokensOwed0 p
        + feesEarned f0 (FeeGrowthInside0LastX128 p) (Liquidity p) + a0)%Q
  /\ TokensOwed1 p' =
       (TokensOwed1 p
        + feesEarned f1 (FeeGrowthInside1LastX128 p) (Liquidity p) + a1)%Q.
Proof.
  unfold DecreaseLiquidity.
  destruct (Decimal.IsZero d) eqn:Ez; [discriminate|].
  destruct (Decimal.IsPositive d) eqn:Ep; [discriminate|]. simpl.
  assert (Hd : (d < 0)%Q).
  { apply Qnot_le_lt. intros Hle. apply Qle_lteq in Hle as [Hlt|Heq].
    - apply IsPositive_spec in Hlt. congruence.
    - symmetry in Heq. apply IsZero_spec in Heq. congruence. }
  destruct (Decimal.LessThan _ _); [discriminate|].
  destruct (LiquidityAddDelta _ _) as [l| |] eqn:El; [|discriminate|discriminate].
  intros [= <-]; simpl; auto 10.
Qed.

(** The owed tokens across one update of a position. *)
Lemma IncreaseLiquidity_owed (p : TokenPosition) (d f0 f1 : Q) :
  snapshotsAdvance p f0 f1 ->
  let p' := fst (IncreaseLiquidity LiquidityAddDelta p d f0 f1) in
  (TokensOwed0 p <= TokensOwed0 p')%Q /\ (TokensOwed1 p <= TokensOwed1 p')%Q.
Proof.
  intros (Hl & H0 & H1).
  pose proof (feesEarned_nonneg _ _ _ H0 Hl) as F0.
  pose proof (feesEarned_nonneg _ _ _ H1 Hl) as F1.
  unfold IncreaseLiquidity.
  destruct (_ || _); [simpl; split; apply Qle_refl|].
  destruct (LiquidityAddDelta _ _); [|simpl; split; apply Qle_refl..].
  destruct (_ || _); simpl; unfold Decimal.Add; split; lra.
Qed.

Lemma DecreaseLiquidity_owed (p : TokenPosition) (d f0 f1 a0 a1 : Q) :
  snapshotsAdvance p f0 f1 -> (0 <= a0)%Q -> (0 <= a1)%Q ->
  let p' := fst (DecreaseLiquidity LiquidityAddDelta p d f0 f1 a0 a1) in
  (TokensOwed0 p <= TokensOwed0 p')%Q /\ (TokensOwed1 p <= TokensOwed1 p')%Q.
Proof.
  intros (Hl & H0 & H1) Ha0 Ha1.
  pose proof (feesEarned_nonneg _ _ _ H0 Hl) as F0.
  pose proof (feesEarned_nonneg _ _ _ H1 Hl) as F1.
  unfold DecreaseLiquidity.
  destruct (_ || _); [simpl; split; apply Qle_refl|].
  destruct (Decimal.LessThan _ _); [simpl; split; apply Qle_refl|].
  destruct (LiquidityAddDelta _ _); [|simpl; split; apply Qle_refl..].
  simpl; unfold Decimal.Add; split; lra.
Qed.

(** Where each handler leaves the position map: the addressed position
    is rewritten, the others stay. *)
Lemma HandleMint_existing (tpm : TokenPositionManager) (tokenID : N)
    (p : TokenPosition) (owner pool : string) (tl tu : Z) (amount f0 f1 : Q) :
  Positions tpm !! tokenID = Some p ->
  HandleMint LiquidityAddDelta tpm tokenID owner pool tl tu amount f0 f1
  = (storePosition tpm tokenID
       (fst (IncreaseLiquidity LiquidityAddDelta p amount f0 f1)),
     snd (IncreaseLiquidity LiquidityAddDelta p amount f0 f1)).
Proof.
  intros H. unfold HandleMint. rewrite H.
  by destruct (IncreaseLiquidity _ _ _ _ _).
Qed.

Lemma HandleIncreaseLiquidity_existing (tpm : TokenPositionManager) (tokenID : N)
    (p : TokenPosition) (amount f0 f1 : Q) :
  Positions tpm !! tokenID = Some p ->
  HandleIncreaseLiquidity LiquidityAddDelta tpm tokenID amount f0 f1
  = (storePosition tpm tokenID
       (fst (IncreaseLiquidity LiquidityAddDelta p amount f0 f1)),
     snd (IncreaseLiquidity LiquidityAddDelta p amount f0 f1)).
Proof.
  intros H. unfold HandleIncreaseLiquidity. rewrite H.
  by destruct (IncreaseLiquidity _ _ _ _ _).
Qed.

Lemma HandleDecreaseLiquidity_existing (tpm : TokenPositionManager) (tokenID : N)
    (p : TokenPosition) (d f0 f1 a0 a1 : Q) :
  Positions tpm !! tokenID = Some p ->
  HandleDecreaseLiquidity LiquidityAddDelta tpm tokenID d f0 f1 a0 a1
  = (storePosition tpm tokenID
       (fst (DecreaseLiquidity LiquidityAddDelta p (Decimal.Neg d) f0 f1 a0 a1)),
     snd (DecreaseLiquidity LiquidityAddDelta p (Decimal.Neg d) f0 f1 a0 a1)).
Proof.
  intros H. unfold HandleDecreaseLiquidity. rewrite H.
  by destruct (DecreaseLiquidity _ _ _ _ _ _ _).
Qed.

End LedgerFacts.

Lemma HandleTransfer_mismatch (tpm : TokenPositionManager) (tokenID : N)
    (p : TokenPosition) (from to : string) :
  Positions tpm !! tokenID = Some p -> Owner p <> from ->
  HandleTransfer tpm tokenID from to
  = (storePosition tpm tokenID (setOwner p to),
     Err (ErrTokenOwnerMismatch (Owner p) from)).
Proof.
  intros H Hne. unfold HandleTransfer. rewrite H.
  apply String.eqb_neq in Hne. by rewrite Hne.
Qed.

Section LedgerOps.

Variable LiquidityAddDelta : Q -> Q -> result Q.

(** No handler writes a position other than the one it addresses. *)
Lemma applyOp_other (tpm : TokenPositionManager) (op : LedgerOp) (other : N) :
  other <> opToken op ->
  Positions (applyOp LiquidityAddDelta tpm op) !! other = Positions tpm !! other.
Proof.
  intros Hne. destruct op; simpl in *.
  - unfold HandleMint. destruct (Positions tpm !! tokenID) eqn:E.
    + destruct (IncreaseLiquidity _ _ _ _ _). simpl. by rewrite lookup_insert_ne.
    + unfold CreatePosition. destruct (IncreaseLiquidity _ _ _ _ _). simpl.
      by rewrite !lookup_insert_ne.
  - unfold HandleIncreaseLiquidity. destruct (Positions tpm !! tokenID) eqn:E; [|done].
    destruct (IncreaseLiquidity _ _ _ _ _). simpl. by rewrite lookup_insert_ne.
  - unfold HandleDecreaseLiquidity. destruct (Positions tpm !! tokenID) eqn:E; [|done].
    destruct (DecreaseLiquidity _ _ _ _ _ _ _). simpl. by rewrite lookup_insert_ne.
  - unfold HandleCollect. destruct (Positions tpm !! tokenID) eqn:E; [|done].
    simpl. by rewrite lookup_insert_ne.
  - unfold HandleTransfer. destruct (Positions tpm !! tokenID) eqn:E; [|done].
    destruct (negb _); simpl; [by rewrite lookup_insert_ne|].
    destruct (indexOf _ _); simpl; by rewrite lookup_insert_ne.
Qed.

(** A transfer, refused or not, rewrites the owner of the position and
    nothing else of it. *)
Lemma HandleTransfer_positions (tpm : TokenPositionManager) (tokenID : N)
    (p : TokenPosition) (from to : string) :
  Positions tpm !! tokenID = Some p ->
  Positions (fst (HandleTransfer tpm tokenID from to))
  = <[tokenID := setOwner p to]> (Positions tpm).
Proof.
  intros H. unfold HandleTransfer. rewrite H.
  destruct (negb _); simpl; [done|].
  destruct (indexOf _ _); by simpl.
Qed.

End LedgerOps.

(** C8. A collect on an existing token position returns, for each token,
    the smaller of the requested amount and the owed amount, and takes
    exactly what it returns off the owed amount of the stored position:
    the position after the call differs from the one before in its two
    owed amounts only, every other position and both indices are as
    they were, and an owed amount that was not negative is not negative
    afterwards. *)
Theorem HandleCollect_min_and_decrement (tpm : TokenPositionManager)
    (tokenID : N) (p : TokenPosition) (req0 req1 : Q) :
  Positions tpm !! tokenID = Some p ->
  let out0 := Qmin req0 (TokensOwed0 p) in
  let out1 := Qmin req1 (TokensOwed1 p) in
  let p' :=
    {| TokenID := TokenID p; Owner := Owner p; Pool := Pool p;
       TickLower := TickLower p; TickUpper := TickUpper p;
       Liquidity := Liquidity p;
       FeeGrowthInside0LastX128 := FeeGrowthInside0LastX128 p;
       FeeGrowthInside1LastX128 := FeeGrowthInside1LastX128 p;
       TokensOwed0 := (TokensOwed0 p - out0)%Q;
       TokensOwed1 := (TokensOwed1 p - out1)%Q |} in
  Collect p req0 req1 = (p', (out0, out1))
  /\ HandleCollect tpm tokenID req0 req1
     = ({| Positions := <[tokenID := p']> (Positions tpm);
           OwnerTokens := OwnerTokens tpm;
           PoolTokens := PoolTokens tpm |},
        Ok (out0, out1))
  /\ ((0 <= TokensOwed0 p)%Q -> (0 <= TokensOwed0 p - out0)%Q)
  /\ ((0 <= TokensOwed1 p)%Q -> (0 <= TokensOwed1 p - out1)%Q).
Proof.
  intros H out0 out1 p'.
  assert (HC : Collect p req0 req1 = (p', (out0, out1))).
  { unfold Collect, setTokensOwed, p', out0, out1, Qmin, GenericMinMax.gmin,
      Decimal.GreaterThan, Decimal.Cmp, Decimal.Sub.
    destruct (req0 ?= TokensOwed0 p)%Q; destruct (req1 ?= TokensOwed1 p)%Q;
      reflexivity. }
  split; [exact HC|]. split.
  - unfold HandleCollect. rewrite H, HC. reflexivity.
  - subst out0 out1. split; intros _.
    + pose proof (Q.le_min_r req0 (TokensOwed0 p)). lra.
    + pose proof (Q.le_min_r req1 (TokensOwed1 p)). lra.
Qed.

(** A collect of 30 and 500 from the position that owes 100 and 200
    returns 30 and 200 and leaves 70 and 0 owed in the ledger. *)
Lemma HandleCollect_min_and_decrement_witness :
  Positions sampleLedger !! 1%N = Some samplePosition
  /\ snd (HandleCollect sampleLedger 1%N (inject_Z 30) (inject_Z 500))
     = Ok (inject_Z 30, inject_Z 200)
  /\ TokensOwed0
     <$> Positions (fst (HandleCollect sampleLedger 1%N (inject_Z 30) (inject_Z 500)))
         !! 1%N = Some (70 # 1)%Q
  /\ TokensOwed1
     <$> Positions (fst (HandleCollect sampleLedger 1%N (inject_Z 30) (inject_Z 500)))
         !! 1%N = Some (0 # 1)%Q
  /\ Liquidity
     <$> Positions (fst (HandleCollect sampleLedger 1%N (inject_Z 30) (inject_Z 500)))
         !! 1%N = Some (Liquidity samplePosition).
Proof.
  split; [reflexivity|].
  destruct (HandleCollect_min_and_decrement sampleLedger 1%N samplePosition
              (inject_Z 30) (inject_Z 500)) as (_ & H & _); [reflexivity|].
  rewrite H. cbn [fst snd Positions]. rewrite lookup_insert_eq.
  repeat split; reflexivity.
Defined.

(** C10. A mint for a token that the ledger already holds leaves the
    owner, pool and tick range of the stored position as they were, the
    other positions and both indices untouched, and does not depend on
    the owner, pool and ticks it was called with. *)
Theorem HandleMint_existing_keeps_identity (LiquidityAddDelta : Q -> Q -> result Q)
    (tpm : TokenPositionManager) (tokenID : N) (p : TokenPosition)
    (owner pool : string) (tickLower tickUpper : Z) (amount fgi0 fgi1 : Q) :
  Positions tpm !! tokenID = Some p ->
  let tpm' := fst (HandleMint LiquidityAddDelta tpm tokenID owner pool
                     tickLower tickUpper amount fgi0 fgi1) in
  (exists p', Positions tpm' !! tokenID = Some p' /\ sameIdentity p p')
  /\ (forall other, other <> tokenID ->
        Positions tpm' !! other = Positions tpm !! other)
  /\ OwnerTokens tpm' = OwnerTokens tpm
  /\ PoolTokens tpm' = PoolTokens tpm
  /\ (forall owner' pool' tickLower' tickUpper',
        HandleMint LiquidityAddDelta tpm tokenID owner' pool'
          tickLower' tickUpper' amount fgi0 fgi1
        = HandleMint LiquidityAddDelta tpm tokenID owner pool
            tickLower tickUpper amount fgi0 fgi1).
Proof.
  intros H tpm'. subst tpm'.
  rewrite (HandleMint_existing _ _ _ _ _ _ _ _ _ _ _ H). simpl.
  split; [|split; [|split; [|split]]].
  - eexists. split; [apply lookup_insert_eq|]. apply IncreaseLiquidity_identity.
  - intros other Hne. by rewrite lookup_insert_ne.
  - reflexivity.
  - reflexivity.
  - intros. by rewrite (HandleMint_existing _ _ _ _ _ _ _ _ _ _ _ H).
Qed.

Lemma HandleMint_existing_keeps_identity_witness :
  Positions sampleLedger !! 1%N = Some samplePosition
  /\ exists p',
       Positions (fst (HandleMint addDelta sampleLedger 1%N "0xmallory" "0xother"
                         0 120 (inject_Z 5) (inject_Z 12) (inject_Z 3)))
         !! 1%N = Some p'
       /\ sameIdentity samplePosition p'.
Proof.
  split; [reflexivity|].
  apply (HandleMint_existing_keeps_identity addDelta sampleLedger 1%N samplePosition
           "0xmallory" "0xother" 0 120 (inject_Z 5) (inject_Z 12) (inject_Z 3)).
  reflexivity.
Defined.

(** C9, as the code has it. A liquidity update with a zero delta is
    refused by both handlers and by both methods of the position, and
    the ledger and the position are left as they were: nothing accrues
    and no snapshot is refreshed. *)
Theorem zero_delta_update_is_refused (LiquidityAddDelta : Q -> Q -> result Q)
    (tpm : TokenPositionManager) (tokenID : N) (p : TokenPosition)
    (d fgi0 fgi1 amount0 amount1 : Q) :
  Positions tpm !! tokenID = Some p ->
  (d == 0)%Q ->
  HandleIncreaseLiquidity LiquidityAddDelta tpm tokenID d fgi0 fgi1
  = (tpm, Err (ErrNew "liquidity delta must be positive"))
  /\ HandleDecreaseLiquidity LiquidityAddDelta tpm tokenID d fgi0 fgi1 amount0 amount1
     = (tpm, Err (ErrNew "liquidity delta must be negative"))
  /\ IncreaseLiquidity LiquidityAddDelta p d fgi0 fgi1
     = (p, Err (ErrNew "liquidity delta must be positive"))
  /\ DecreaseLiquidity LiquidityAddDelta p d fgi0 fgi1 amount0 amount1
     = (p, Err (ErrNew "liquidity delta must be negative")).
Proof.
  intros H Hd. split; [|split; [|split]].
  - rewrite (HandleIncreaseLiquidity_existing _ _ _ _ _ _ _ H).
    rewrite IncreaseLiquidity_zero by exact Hd. simpl.
    by rewrite storePosition_same.
  - rewrite (HandleDecreaseLiquidity_existing _ _ _ _ _ _ _ _ _ H).
    rewrite DecreaseLiquidity_zero by (unfold Decimal.Neg; lra). simpl.
    by rewrite storePosition_same.
  - by apply IncreaseLiquidity_zero.
  - by apply DecreaseLiquidity_zero.
Qed.

Lemma zero_delta_update_is_refused_witness :
  Positions sampleLedger !! 1%N = Some samplePosition
  /\ (0 == 0)%Q
  /\ HandleIncreaseLiquidity addDelta sampleLedger 1%N 0%Q (inject_Z 12) (inject_Z 3)
     = (sampleLedger, Err (ErrNew "liquidity delta must be positive"))
  /\ HandleDecreaseLiquidity addDelta sampleLedger 1%N 0%Q (inject_Z 12) (inject_Z 3)
       0%Q 0%Q
     = (sampleLedger, Err (ErrNew "liquidity delta must be negative")).
Proof.
  split; [reflexivity|]. split; [reflexivity|].
  destruct (zero_delta_update_is_refused addDelta sampleLedger 1%N samplePosition
              0%Q (inject_Z 12) (inject_Z 3) 0%Q 0%Q) as (Hi & Hd & _);
    [reflexivity|reflexivity|].
  split; [exact Hi|exact Hd].
Defined.

(** C9, as stated, fails: a poke of a position with one unit of fees
    pending in each token returns an error, and the owed amounts and the
    snapshots stay as they were. *)
Lemma poke_accrues_nothing :
  feesEarned (inject_Z 12) (FeeGrowthInside0LastX128 samplePosition)
    (Liquidity samplePosition) = 1%Q
  /\ feesEarned (inject_Z 2) (FeeGrowthInside1LastX128 samplePosition)
       (Liquidity samplePosition) = 1%Q
  /\ IncreaseLiquidity addDelta samplePosition 0%Q (inject_Z 12) (inject_Z 2)
     = (samplePosition, Err (ErrNew "liquidity delta must be positive"))
  /\ DecreaseLiquidity addDelta samplePosition 0%Q (inject_Z 12) (inject_Z 2) 0%Q 0%Q
     = (samplePosition, Err (ErrNew "liquidity delta must be negative"))
  /\ ~ (exists p',
          Positions (fst (HandleIncreaseLiquidity addDelta sampleLedger 1%N 0%Q
                            (inject_Z 12) (inject_Z 2))) !! 1%N = Some p'
          /\ snd (HandleIncreaseLiquidity addDelta sampleLedger 1%N 0%Q
                    (inject_Z 12) (inject_Z 2)) = Ok tt
          /\ (TokensOwed0 p' == TokensOwed0 samplePosition + 1)%Q).
Proof.
  split; [reflexivity|]. split; [reflexivity|].
  split; [reflexivity|]. split; [reflexivity|].
  intros (p' & _ & Hok & _). vm_compute in Hok. discriminate.
Qed.

(** Where the defect below is not met the owed amounts do not shrink:
    across a mint, an increase, a decrease, a transfer, and a collect of
    another token, when the position updated has a non-negative
    liquidity, the snapshot brought is not below the stored one, and a
    decrease credits non-negative amounts. *)
Lemma owed_tokens_do_not_shrink (LiquidityAddDelta : Q -> Q -> result Q)
    (tpm : TokenPositionManager) (op : LedgerOp) (tokenID : N) (q : TokenPosition) :
  Positions tpm !! tokenID = Some q ->
  advancing tpm op ->
  (isCollect op = false \/ opToken op <> tokenID) ->
  exists q',
    Positions (applyOp LiquidityAddDelta tpm op) !! tokenID = Some q'
    /\ (TokensOwed0 q <= TokensOwed0 q')%Q
    /\ (TokensOwed1 q <= TokensOwed1 q')%Q.
Proof.
  intros H Hadv Hop.
  destruct (decide (tokenID = opToken op)) as [Heq|Hne].
  2:{ exists q. rewrite applyOp_other by exact Hne.
      split; [exact H|]. split; apply Qle_refl. }
  destruct op; simpl in Heq; subst tokenID; simpl in *.
  - rewrite (HandleMint_existing _ _ _ _ _ _ _ _ _ _ _ H). simpl.
    eexists. split; [apply lookup_insert_eq|].
    apply IncreaseLiquidity_owed. by apply Hadv.
  - rewrite (HandleIncreaseLiquidity_existing _ _ _ _ _ _ _ H). simpl.
    eexists. split; [apply lookup_insert_eq|].
    apply IncreaseLiquidity_owed. by apply Hadv.
  - destruct Hadv as (Hs & Ha0 & Ha1).
    rewrite (HandleDecreaseLiquidity_existing _ _ _ _ _ _ _ _ _ H). simpl.
    eexists. split; [apply lookup_insert_eq|].
    apply DecreaseLiquidity_owed; auto.
  - destruct Hop as [Hop|Hop]; [discriminate|congruence].
  - rewrite (HandleTransfer_positions _ _ _ _ _ H).
    eexists. split; [apply lookup_insert_eq|].
    simpl. split; apply Qle_refl.
Qed.

(** C7, at the ledger. The fees of a liquidity update are the signed
    difference of the snapshots times the liquidity, and a negative fee
    amount is added to the owed tokens: by an increase whenever the fee
    amount of the other token is positive, and by a decrease always.
    Such an update succeeds and leaves less owed in token 0 than before. *)
Theorem negative_fees_shrink_owed_tokens (LiquidityAddDelta : Q -> Q -> result Q)
    (tpm : TokenPositionManager) (tokenID : N) (p : TokenPosition)
    (d fgi0 fgi1 : Q) :
  Positions tpm !! tokenID = Some p ->
  (0 < d)%Q ->
  let fees0 := feesEarned fgi0 (FeeGrowthInside0LastX128 p) (Liquidity p) in
  let fees1 := feesEarned fgi1 (FeeGrowthInside1LastX128 p) (Liquidity p) in
  (fees0 < 0)%Q ->
  (forall l,
     LiquidityAddDelta (Liquidity p) d = Ok l ->
     (0 < fees1)%Q ->
     snd (HandleIncreaseLiquidity LiquidityAddDelta tpm tokenID d fgi0 fgi1) = Ok tt
     /\ exists q',
          Positions (applyOp LiquidityAddDelta tpm
                       (OpIncreaseLiquidity tokenID d fgi0 fgi1)) !! tokenID
          = Some q'
          /\ TokensOwed0 q' = (TokensOwed0 p + fees0)%Q
          /\ (TokensOwed0 q' < TokensOwed0 p)%Q)
  /\ (forall l amount0 amount1,
        LiquidityAddDelta (Liquidity p) (Decimal.Neg d) = Ok l ->
        (d <= Liquidity p)%Q ->
        (fees0 + amount0 < 0)%Q ->
        snd (HandleDecreaseLiquidity LiquidityAddDelta tpm tokenID d fgi0 fgi1
               amount0 amount1) = Ok tt
        /\ exists q',
             Positions (applyOp LiquidityAddDelta tpm
                          (OpDecreaseLiquidity tokenID d fgi0 fgi1 amount0 amount1))
               !! tokenID = Some q'
             /\ TokensOwed0 q' = (TokensOwed0 p + fees0 + amount0)%Q
             /\ (TokensOwed0 q' < TokensOwed0 p)%Q).
Proof.
  intros H Hd fees0 fees1 Hneg. split.
  - intros l Hl Hpos. cbn [applyOp].
    rewrite (HandleIncreaseLiquidity_existing _ _ _ _ _ _ _ H).
    unfold IncreaseLiquidity.
    assert (Hz : Decimal.IsZero d = false).
    { destruct (Decimal.IsZero d) eqn:E; [|done]. apply IsZero_spec in E. lra. }
    assert (Hn : Decimal.IsNegative d = false).
    { destruct (Decimal.IsNegative d) eqn:E; [|done].
      apply IsNegative_spec in E. lra. }
    assert (Hg : Decimal.GreaterThan fees1 Decimal.ZERO = true)
      by (by apply GreaterThan_spec).
    rewrite Hz, Hn, Hl. cbn [orb]. fold fees0 fees1.
    rewrite Hg, orb_true_r. cbn [fst snd storePosition Positions].
    split; [reflexivity|]. rewrite lookup_insert_eq.
    eexists. split; [reflexivity|].
    cbn [TokensOwed0 setTokensOwed setLiquidityAndSnapshots]. unfold Decimal.Add.
    split; [reflexivity|lra].
  - intros l amount0 amount1 Hl Hle Hsum. cbn [applyOp].
    rewrite (HandleDecreaseLiquidity_existing _ _ _ _ _ _ _ _ _ H).
    unfold DecreaseLiquidity.
    assert (Hz : Decimal.IsZero (Decimal.Neg d) = false).
    { destruct (Decimal.IsZero (Decimal.Neg d)) eqn:E; [|done].
      apply IsZero_spec in E. unfold Decimal.Neg in E. lra. }
    assert (Hp : Decimal.IsPositive (Decimal.Neg d) = false).
    { destruct (Decimal.IsPositive (Decimal.Neg d)) eqn:E; [|done].
      apply IsPositive_spec in E. unfold Decimal.Neg in E. lra. }
    assert (Hu : Decimal.LessThan (Liquidity p) (Decimal.Abs (Decimal.Neg d)) = false).
    { destruct (Decimal.LessThan _ _) eqn:E; [|done].
      apply LessThan_spec in E. unfold Decimal.Abs, Decimal.Neg in E.
      rewrite Qabs_opp, Qabs_pos in E by lra. lra. }
    rewrite Hz, Hp, Hu, Hl. cbn [orb fst snd storePosition Positions].
    split; [reflexivity|]. rewrite lookup_insert_eq.
    eexists. split; [reflexivity|].
    cbn [TokensOwed0 setTokensOwed setLiquidityAndSnapshots]. unfold Decimal.Add.
    fold fees0. split; [reflexivity|lra].
Qed.

(** The failing calls, on the position of liquidity [2^127] that owes
    100 in token 0 with snapshots 10 and 0. With the snapshots 0 and 2
    the fee amounts are -5 and 1: an increase by 1 succeeds and leaves 95
    owed. With the snapshots 0 and 0 the fee amounts are -5 and 0: a
    decrease by 1 that credits nothing succeeds and leaves 95 owed. *)
Lemma negative_fees_shrink_owed_tokens_witness :
  (snd (HandleIncreaseLiquidity addDelta sampleLedger 1%N (inject_Z 1)
          (inject_Z 0) (inject_Z 2)) = Ok tt
   /\ exists q',
        Positions (applyOp addDelta sampleLedger
                     (OpIncreaseLiquidity 1%N (inject_Z 1) (inject_Z 0) (inject_Z 2)))
          !! 1%N = Some q'
        /\ TokensOwed0 q' = (inject_Z 100 + (-5 # 1))%Q
        /\ (TokensOwed0 q' < TokensOwed0 samplePosition)%Q)
  /\ (snd (HandleDecreaseLiquidity addDelta sampleLedger 1%N (inject_Z 1)
             (inject_Z 0) (inject_Z 0) 0%Q 0%Q) = Ok tt
      /\ exists q',
           Positions (applyOp addDelta sampleLedger
                        (OpDecreaseLiquidity 1%N (inject_Z 1) (inject_Z 0) (inject_Z 0)
                           0%Q 0%Q)) !! 1%N = Some q'
           /\ TokensOwed0 q' = (inject_Z 100 + (-5 # 1) + 0)%Q
           /\ (TokensOwed0 q' < TokensOwed0 samplePosition)%Q).
Proof.
  split.
  - destruct (negative_fees_shrink_owed_tokens addDelta sampleLedger 1%N
                samplePosition (inject_Z 1) (inject_Z 0) (inject_Z 2)
                eq_refl eq_refl eq_refl) as [Hinc _].
    apply (Hinc (Decimal.Add (Liquidity samplePosition) (inject_Z 1)));
      reflexivity.
  - destruct (negative_fees_shrink_owed_tokens addDelta sampleLedger 1%N
                samplePosition (inject_Z 1) (inject_Z 0) (inject_Z 0)
                eq_refl eq_refl eq_refl) as [_ Hdec].
    apply (Hdec (Decimal.Add (Liquidity samplePosition) (Decimal.Neg (inject_Z 1)))
             0%Q 0%Q); first [reflexivity | discriminate].
Defined.

(* ===================================================================== *)
(** ** The ledger: decrease events and the indices *)
(* ===================================================================== *)

(** Handed a positive liquidity of at most the position's, the handler of
    the ledger does decrease: the liquidity goes through [addDelta] with
    the negated amount, the snapshots are refreshed, and the owed tokens
    grow by the fees earned and by the two amounts. *)
Lemma HandleDecreaseLiquidity_of_positive (tpm : TokenPositionManager)
    (tokenID : N) (p : TokenPosition) (l fgi0 fgi1 amount0 amount1 : Q) :
  Positions tpm !! tokenID = Some p ->
  (0 < l)%Q -> (l <= Liquidity p)%Q -> (Liquidity p <= MaxUint128)%Q ->
  exists p',
    HandleDecreaseLiquidity addDelta tpm tokenID l fgi0 fgi1 amount0 amount1
    = (storePosition tpm tokenID p', Ok tt)
    /\ (Liquidity p' == Liquidity p - l)%Q
    /\ FeeGrowthInside0LastX128 p' = fgi0
    /\ FeeGrowthInside1LastX128 p' = fgi1
    /\ TokensOwed0 p' =
         (TokensOwed0 p
          + feesEarned fgi0 (FeeGrowthInside0LastX128 p) (Liquidity p) + amount0)%Q
    /\ TokensOwed1 p' =
         (TokensOwed1 p
          + feesEarned fgi1 (FeeGrowthInside1LastX128 p) (Liquidity p) + amount1)%Q.
Proof.
  intros H Hl Hle Hmax.
  rewrite (HandleDecreaseLiquidity_existing _ _ _ _ _ _ _ _ _ H).
  unfold DecreaseLiquidity.
  assert (E1 : Decimal.IsZero (Decimal.Neg l) = false).
  { apply not_true_iff_false. rewrite IsZero_spec. unfold Decimal.Neg. lra. }
  assert (E2 : Decimal.IsPositive (Decimal.Neg l) = false).
  { apply not_true_iff_false. rewrite IsPositive_spec. unfold Decimal.Neg. lra. }
  assert (E3 : Decimal.LessThan (Liquidity p) (Decimal.Abs (Decimal.Neg l)) = false).
  { apply not_true_iff_false. rewrite LessThan_spec.
    unfold Decimal.Abs, Decimal.Neg. rewrite Qabs_opp, Qabs_pos by lra. lra. }
  rewrite E1, E2, E3. simpl.
  unfold addDelta.
  assert (E4 : Decimal.IsNegative (Decimal.Add (Liquidity p) (Decimal.Neg l)) = false).
  { apply not_true_iff_false. rewrite IsNegative_spec.
    unfold Decimal.Add, Decimal.Neg. lra. }
  assert (E5 : Decimal.GreaterThan (Decimal.Add (Liquidity p) (Decimal.Neg l))
                 MaxUint128 = false).
  { apply GreaterThan_false. unfold Decimal.Add, Decimal.Neg. lra. }
  rewrite E4, E5. simpl.
  eexists. split; [reflexivity|]. simpl.
  unfold Decimal.Add, Decimal.Neg. repeat split; reflexivity.
Qed.

(** C1, at the event handler. A DecreaseLiquidity event with a positive
    liquidity, for an existing position that holds at least as much,
    never succeeds: the handler negates the liquidity, the ledger negates
    it back, and the position refuses the positive delta. The simulator
    is left as it was. *)
Theorem processDecreaseLiquidityEvent_refuses_positive
    (LiquidityAddDelta : Q -> Q -> result Q)
    (GetFeeGrowthInside : TickManager -> Z -> Z -> Z -> Q -> Q -> result (Q * Q))
    (addressHex : string -> string)
    (nps : NFTPositionSimulator) (event : NFTDecreaseLiquidityEvent.t)
    (p : TokenPosition) :
  GetPosition (tokenPositionManager nps) (NFTDecreaseLiquidityEvent.TokenID event)
  = Some p ->
  (0 < NFTDecreaseLiquidityEvent.Liquidity event)%Q ->
  (NFTDecreaseLiquidityEvent.Liquidity event <= Liquidity p)%Q ->
  let r := processDecreaseLiquidityEvent LiquidityAddDelta GetFeeGrowthInside
             addressHex nps event in
  fst r = nps
  /\ is_Ok (snd r) = false
  /\ (forall fgi0 fgi1,
        snapshot GetFeeGrowthInside addressHex nps (Pool p) (TickLower p) (TickUpper p)
        = Ok (fgi0, fgi1) ->
        snd r = Err (ErrWrap "failed to handle decrease liquidity"
                       (ErrNew "liquidity delta must be negative"))).
Proof.
  intros H Hl _ r. subst r. unfold processDecreaseLiquidityEvent.
  rewrite H. unfold GetPosition in H.
  destruct (snapshot _ _ _ _ _ _) as [[f0 f1]| |] eqn:Es.
  - rewrite (HandleDecreaseLiquidity_existing _ _ _ _ _ _ _ _ _ H).
    rewrite DecreaseLiquidity_positive by (unfold Decimal.Neg; lra).
    simpl. rewrite storePosition_same by exact H. rewrite setLedger_same.
    split; [reflexivity|]. split; [reflexivity|]. intros ? ? _. reflexivity.
  - simpl. split; [reflexivity|]. split; [reflexivity|]. intros ? ? [=].
  - simpl. split; [reflexivity|]. split; [reflexivity|]. intros ? ? [=].
Qed.

Lemma processDecreaseLiquidityEvent_refuses_positive_witness :
  let event := NFTDecreaseLiquidityEvent.mk 1%N (inject_Z 40) (inject_Z 7) (inject_Z 9) in
  (0 < NFTDecreaseLiquidityEvent.Liquidity event)%Q
  /\ (NFTDecreaseLiquidityEvent.Liquidity event <= Liquidity samplePosition)%Q
  /\ processDecreaseLiquidityEvent addDelta
       (constantFeeGrowthInside (inject_Z 12) (inject_Z 2)) (fun s => s)
       sampleSimulator event
     = (sampleSimulator,
        Err (ErrWrap "failed to handle decrease liquidity"
               (ErrNew "liquidity delta must be negative"))).
Proof.
  intros event. split; [reflexivity|]. split; [apply Qle_bool_imp_le; reflexivity|].
  destruct (processDecreaseLiquidityEvent_refuses_positive addDelta
              (constantFeeGrowthInside (inject_Z 12) (inject_Z 2)) (fun s => s)
              sampleSimulator event samplePosition) as (H1 & _ & H3);
    [reflexivity | reflexivity | apply Qle_bool_imp_le; reflexivity |].
  specialize (H3 (inject_Z 12) (inject_Z 2) eq_refl).
  rewrite <- H1 at 2. rewrite <- H3. apply surjective_pairing.
Defined.

(** A refused transfer has already written the new owner. *)
Lemma refused_transfer_writes_owner :
  let minted := applyOps addDelta NewTokenPositionManager
                  [OpMint 1%N "0xalice" "0xpool" (-60) 60 (inject_Z 1000) 0%Q 0%Q] in
  snd (HandleTransfer minted 1%N "0xcarol" "0xbob")
  = Err (ErrTokenOwnerMismatch "0xalice" "0xcarol")
  /\ Owner <$> Positions (fst (HandleTransfer minted 1%N "0xcarol" "0xbob")) !! 1%N
     = Some "0xbob"
  /\ tokensAt (OwnerTokens (fst (HandleTransfer minted 1%N "0xcarol" "0xbob"))) "0xbob"
     = []
  /\ tokensAt (OwnerTokens (fst (HandleTransfer minted 1%N "0xcarol" "0xbob"))) "0xalice"
     = [1%N].
Proof. vm_compute. repeat split. Qed.

(** A transfer refused for its sender, to a receiver other than the
    owner, breaks the owner index of any ledger whose indices were
    inverse to the position map. *)
Lemma refused_transfer_breaks_indices (tpm : TokenPositionManager) (tokenID : N)
    (p : TokenPosition) (from to : string) :
  Positions tpm !! tokenID = Some p -> Owner p <> from -> to <> Owner p ->
  indicesInverse tpm ->
  ~ indicesInverse (fst (HandleTransfer tpm tokenID from to)).
Proof.
  intros H Hne Hto Hinv Hinv'.
  rewrite (HandleTransfer_mismatch _ _ _ _ _ H Hne) in Hinv'. simpl in Hinv'.
  destruct (Hinv' tokenID to) as [[_ Hback] _].
  assert (Hin : tokenID ∈ tokensAt (OwnerTokens tpm) to).
  { apply Hback. exists (setOwner p to). split; [apply lookup_insert_eq|reflexivity]. }
  apply (Hinv tokenID to) in Hin as (q & Hq & Hqo). congruence.
Qed.

(** C5, at a reachable state. After a mint of token 1 to one owner and a
    transfer of it that is refused because it names another sender, the
    position names the receiver as owner while the owner index still
    lists the token under the first owner: the indices are not inverses
    of the position map. *)
Theorem refused_transfer_breaks_owner_index :
  ~ indicesInverse
      (applyOps addDelta NewTokenPositionManager
         [OpMint 1%N "0xalice" "0xpool" (-60) 60 (inject_Z 1000) 0%Q 0%Q;
          OpTransfer 1%N "0xcarol" "0xbob"]).
Proof.
  intros Hinv. destruct (Hinv 1%N "0xbob") as [[_ Hback] _].
  assert (Hin : 1%N ∈ @nil N).
  { apply Hback. eexists. split; vm_compute; reflexivity. }
  by apply not_elem_of_nil in Hin.
Qed.

(* ===================================================================== *)
(** ** The ledger: when the indices stay inverse *)
(* ===================================================================== *)

Lemma indexOf_Some (tokenID : N) (l : list N) (i : nat) :
  indexOf tokenID l = Some i ->
  exists l1 l2, l = l1 ++ tokenID :: l2 /\ length l1 = i.
Proof.
  revert i. induction l as [|tid l IH]; intros i; simpl; [discriminate|].
  destruct (tid =? tokenID)%N eqn:E.
  - intros [= <-]. apply N.eqb_eq in E as ->. by exists [], l.
  - destruct (indexOf tokenID l) as [j|]; simpl; [|discriminate].
    intros [= <-]. destruct (IH j eq_refl) as (l1 & l2 & -> & <-).
    by exists (tid :: l1), l2.
Qed.

Lemma indexOf_None (tokenID : N) (l : list N) :
  indexOf tokenID l = None -> tokenID ∉ l.
Proof.
  induction l as [|tid l IH]; simpl; [intros _; apply not_elem_of_nil|].
  destruct (tid =? tokenID)%N eqn:E; [discriminate|].
  destruct (indexOf tokenID l); simpl; [discriminate|].
  intros _. apply N.eqb_neq in E. rewrite elem_of_cons.
  intros [Heq|Hin]; [congruence|]. by apply IH.
Qed.

(** Removing by swap with the last element keeps the other elements. *)
Lemma swapRemove_middle (l1 l2 : list N) (tokenID : N) :
  swapRemove (length l1) (l1 ++ tokenID :: l2) ≡ₚ l1 ++ l2.
Proof.
  unfold swapRemove.
  induction l2 as [|y l2' _] using rev_ind.
  - assert (Hlen : (length (l1 ++ [tokenID]) - 1)%nat = length l1)
      by (rewrite length_app; simpl; lia).
    rewrite Hlen, list_lookup_middle by done.
    rewrite list_insert_id by (by apply list_lookup_middle).
    by rewrite take_app_length, app_nil_r.
  - assert (Hlen : (length (l1 ++ tokenID :: l2' ++ [y]) - 1)%nat
                   = length (l1 ++ tokenID :: l2'))
      by (rewrite !length_app; simpl; rewrite length_app; simpl; lia).
    rewrite Hlen.
    replace (l1 ++ tokenID :: l2' ++ [y]) with ((l1 ++ tokenID :: l2') ++ y :: [])
      by (by rewrite <- app_assoc).
    rewrite list_lookup_middle by done.
    rewrite <- app_assoc. simpl.
    replace (length l1) with (length l1 + 0)%nat at 1 by lia.
    rewrite insert_app_r. simpl.
    replace (l1 ++ y :: l2' ++ [y]) with ((l1 ++ y :: l2') ++ [y])
      by (by rewrite <- app_assoc).
    rewrite take_app_length' by (rewrite !length_app; simpl; lia).
    rewrite <- Permutation_middle.
    rewrite (app_assoc l1 l2' [y]).
    by rewrite <- Permutation_cons_append.
Qed.

Lemma swapRemove_found (tokenID : N) (l : list N) (i : nat) :
  NoDup l -> indexOf tokenID l = Some i ->
  NoDup (swapRemove i l)
  /\ forall x, x ∈ swapRemove i l <-> x ∈ l /\ x <> tokenID.
Proof.
  intros Hnd Hi. apply indexOf_Some in Hi as (l1 & l2 & -> & <-).
  pose proof (swapRemove_middle l1 l2 tokenID) as Hp.
  apply NoDup_app in Hnd as (Hn1 & Hdisj & Hn2).
  apply NoDup_cons in Hn2 as (Hnot & Hn2).
  split.
  - rewrite Hp. apply NoDup_app. split; [done|]. split; [|done].
    intros x Hx Hx2. apply (Hdisj x Hx). by right.
  - intros x. rewrite Hp, !elem_of_app, elem_of_cons. split.
    + intros [Hx|Hx].
      * split; [by left|]. intros ->. apply (Hdisj tokenID Hx). by left.
      * split; [by right; right|]. by intros ->.
    + intros [[Hx|[->|Hx]] Hne]; [by left|done|by right].
Qed.

Lemma tokensAt_insert (m : gmap string (list N)) (k a : string) (l : list N) :
  tokensAt (<[k := l]> m) a = if decide (k = a) then l else tokensAt m a.
Proof. unfold tokensAt. rewrite lookup_insert. by destruct (decide (k = a)). Qed.

Lemma lookup_insert_same_field {A} (f : TokenPosition -> A)
    (ps : gmap N TokenPosition) (tokenID : N) (p p' : TokenPosition) :
  ps !! tokenID = Some p -> f p' = f p ->
  forall tid a,
    (exists q, <[tokenID := p']> ps !! tid = Some q /\ f q = a)
    <-> (exists q, ps !! tid = Some q /\ f q = a).
Proof.
  intros H Hf tid a. destruct (decide (tokenID = tid)) as [<-|Hne].
  - rewrite lookup_insert_eq. split.
    + intros (q & [= <-] & Hq). exists p. split; [done|congruence].
    + intros (q & Hq & Hqa). exists p'. split; [done|]. congruence.
  - by rewrite lookup_insert_ne.
Qed.

Lemma wellIndexed_new : wellIndexed NewTokenPositionManager.
Proof.
  split.
  - intros tid a. unfold tokensAt. simpl. rewrite !lookup_empty. simpl.
    split; split; try (intros H; by apply not_elem_of_nil in H);
      intros (q & Hq & _); discriminate.
  - intros a. unfold tokensAt. simpl. rewrite lookup_empty. constructor.
Qed.

(** Rewriting a position without touching its owner and pool keeps the
    ledger well indexed. *)
Lemma storePosition_wellIndexed (tpm : TokenPositionManager) (tokenID : N)
    (p p' : TokenPosition) :
  Positions tpm !! tokenID = Some p -> sameIdentity p p' ->
  wellIndexed tpm -> wellIndexed (storePosition tpm tokenID p').
Proof.
  intros H (_ & Ho & Hp & _) [Hinv Hnd]. split; [|exact Hnd].
  intros tid a. destruct (Hinv tid a) as [HO HP]. simpl. split.
  - rewrite HO. symmetry. by apply lookup_insert_same_field with (p := p).
  - rewrite HP. symmetry. by apply lookup_insert_same_field with (p := p).
Qed.

Lemma CreatePosition_wellIndexed (tpm : TokenPositionManager) (tokenID : N)
    (owner pool : string) (tickLower tickUpper : Z) :
  Positions tpm !! tokenID = None -> wellIndexed tpm ->
  wellIndexed (fst (CreatePosition tpm tokenID owner pool tickLower tickUpper)).
Proof.
  intros Hnone [Hinv Hnd].
  assert (Hfresh : forall a, (tokenID ∉ tokensAt (OwnerTokens tpm) a)
                             /\ (tokenID ∉ tokensAt (PoolTokens tpm) a)).
  { intros a. destruct (Hinv tokenID a) as [HO HP]. split; intros Hin.
    - apply HO in Hin as (q & Hq & _). congruence.
    - apply HP in Hin as (q & Hq & _). congruence. }
  unfold CreatePosition, storePoolTokens, storeOwnerTokens, storePosition.
  cbn [fst OwnerTokens PoolTokens Positions]. split.
  - intros tid a. destruct (Hinv tid a) as [HO HP].
    cbn [OwnerTokens PoolTokens Positions].
    rewrite !tokensAt_insert. split.
    + destruct (decide (owner = a)) as [<-|Hne].
      * rewrite elem_of_app, list_elem_of_singleton.
        destruct (decide (tokenID = tid)) as [<-|Hne'].
        -- rewrite lookup_insert_eq. split; [|by right]. eauto.
        -- rewrite lookup_insert_ne by done. rewrite <- HO.
           split; [intros [Hin|Heq]; [done|congruence] | by left].
      * destruct (decide (tokenID = tid)) as [<-|Hne'].
        -- rewrite lookup_insert_eq. split.
           ++ intros Hin. by apply (Hfresh a) in Hin.
           ++ intros (q & [= <-] & Hq). done.
        -- by rewrite lookup_insert_ne.
    + destruct (decide (pool = a)) as [<-|Hne].
      * rewrite elem_of_app, list_elem_of_singleton.
        destruct (decide (tokenID = tid)) as [<-|Hne'].
        -- rewrite lookup_insert_eq. split; [|by right]. eauto.
        -- rewrite lookup_insert_ne by done. rewrite <- HP.
           split; [intros [Hin|Heq]; [done|congruence] | by left].
      * destruct (decide (tokenID = tid)) as [<-|Hne'].
        -- rewrite lookup_insert_eq. split.
           ++ intros Hin. by apply (Hfresh a) in Hin.
           ++ intros (q & [= <-] & Hq). done.
        -- by rewrite lookup_insert_ne.
  - intros a. cbn [OwnerTokens]. rewrite tokensAt_insert.
    destruct (decide (owner = a)) as [<-|Hne]; [|apply Hnd].
    apply NoDup_app. split; [apply Hnd|]. split; [|apply NoDup_singleton].
    intros x Hx Hx'. apply list_elem_of_singleton in Hx' as ->.
    by apply (Hfresh owner) in Hx.
Qed.

(** A transfer that names the owner as sender keeps the ledger well
    indexed. *)
Lemma HandleTransfer_wellIndexed (tpm : TokenPositionManager) (tokenID : N)
    (p : TokenPosition) (to : string) :
  Positions tpm !! tokenID = Some p -> wellIndexed tpm ->
  wellIndexed (fst (HandleTransfer tpm tokenID (Owner p) to)).
Proof.
  intros H [Hinv Hnd]. unfold HandleTransfer. rewrite H.
  rewrite String.eqb_refl. cbn [negb].
  unfold storeOwnerTokens, storePosition.
  cbn [OwnerTokens PoolTokens Positions].
  set (l := tokensAt (OwnerTokens tpm) (Owner p)).
  assert (Hin : tokenID ∈ l).
  { apply (Hinv tokenID (Owner p)). eauto. }
  destruct (indexOf tokenID l) as [i|] eqn:Ei;
    [|by apply indexOf_None in Ei].
  destruct (swapRemove_found tokenID l i (Hnd (Owner p)) Ei) as [Hrnd Hr].
  set (r := swapRemove i l) in *.
  cbn [fst OwnerTokens PoolTokens Positions].
  assert (Hothers : forall a, a <> Owner p -> tokenID ∉ tokensAt (OwnerTokens tpm) a).
  { intros a Hne Hin'. apply (Hinv tokenID a) in Hin' as (q & Hq & Hqa). congruence. }
  split.
  - intros tid a. destruct (Hinv tid a) as [HO HP].
    cbn [OwnerTokens PoolTokens Positions]. split.
    + rewrite !tokensAt_insert.
      destruct (decide (tokenID = tid)) as [<-|Hne].
      * rewrite lookup_insert_eq.
        destruct (decide (to = a)) as [<-|Hta].
        -- split; [eauto|]. intros _. rewrite elem_of_app. right. by left.
        -- split; [|intros (q & [= <-] & Hq); done].
           destruct (decide (Owner p = a)) as [<-|Hpa].
           ++ intros Hx. apply Hr in Hx as [_ Hx]. done.
           ++ intros Hx. exfalso. by apply (Hothers a).
      * rewrite lookup_insert_ne by done. rewrite <- HO.
        assert (Hr' : tid ∈ r <-> tid ∈ l)
          by (rewrite Hr; split; [by intros [? _] | by split]).
        destruct (decide (to = a)) as [<-|Hta].
        -- rewrite elem_of_app, list_elem_of_singleton.
           destruct (decide (Owner p = to)) as [Hpa|Hpa].
           ++ subst l. rewrite Hpa in *.
              split; [intros [Hx|Hx]; [by apply Hr'|congruence] | left; by apply Hr'].
           ++ split; [intros [Hx|Hx]; [done|congruence] | by left].
        -- destruct (decide (Owner p = a)) as [<-|Hpa]; [exact Hr'|done].
    + rewrite HP. symmetry.
      by apply lookup_insert_same_field with (p := p).
  - intros a. cbn [OwnerTokens]. rewrite !tokensAt_insert.
    destruct (decide (to = a)) as [<-|Hta].
    + apply NoDup_app.
      destruct (decide (Owner p = to)) as [Hpa|Hpa].
      * split; [exact Hrnd|]. split; [|apply NoDup_singleton].
        intros x Hx Hx'. apply list_elem_of_singleton in Hx' as ->.
        apply Hr in Hx as [_ Hx]. done.
      * split; [apply Hnd|]. split; [|apply NoDup_singleton].
        intros x Hx Hx'. apply list_elem_of_singleton in Hx' as ->.
        apply (Hothers to); [congruence|done].
    + destruct (decide (Owner p = a)) as [<-|Hpa]; [exact Hrnd|apply Hnd].
Qed.

Section WellIndexed.

Variable LiquidityAddDelta : Q -> Q -> result Q.

(** Every operation that is not a transfer refused for its sender keeps
    the indices inverse to the position map. *)
Lemma applyOp_wellIndexed (tpm : TokenPositionManager) (op : LedgerOp) :
  wellIndexed tpm -> ~ refused tpm op ->
  wellIndexed (applyOp LiquidityAddDelta tpm op).
Proof.
  intros Hw Hnot. destruct op; simpl in *.
  - destruct (Positions tpm !! tokenID) as [p|] eqn:E.
    + rewrite (HandleMint_existing _ _ _ _ _ _ _ _ _ _ _ E). simpl.
      eapply storePosition_wellIndexed; eauto. apply IncreaseLiquidity_identity.
    + unfold HandleMint. rewrite E.
      pose proof (CreatePosition_wellIndexed tpm tokenID owner pool tickLower
                    tickUpper E Hw) as Hc.
      destruct (CreatePosition _ _ _ _ _ _) as [tpm1 position] eqn:Ec.
      assert (Hl : Positions tpm1 !! tokenID = Some position).
      { unfold CreatePosition in Ec. injection Ec as <- <-. simpl.
        apply lookup_insert_eq. }
      pose proof (IncreaseLiquidity_identity LiquidityAddDelta position amount
                    feeGrowthInside0X128 feeGrowthInside1X128) as Hid.
      destruct (IncreaseLiquidity _ _ _ _ _) as [position' r]. simpl in *.
      eapply storePosition_wellIndexed; eauto.
  - destruct (Positions tpm !! tokenID) as [p|] eqn:E.
    + rewrite (HandleIncreaseLiquidity_existing _ _ _ _ _ _ _ E). simpl.
      eapply storePosition_wellIndexed; eauto. apply IncreaseLiquidity_identity.
    + unfold HandleIncreaseLiquidity. by rewrite E.
  - destruct (Positions tpm !! tokenID) as [p|] eqn:E.
    + rewrite (HandleDecreaseLiquidity_existing _ _ _ _ _ _ _ _ _ E). simpl.
      eapply storePosition_wellIndexed; eauto.
      unfold DecreaseLiquidity, sameIdentity.
      destruct (_ || _); [by simpl|].
      destruct (Decimal.LessThan _ _); [by simpl|].
      destruct (LiquidityAddDelta _ _); by simpl.
    + unfold HandleDecreaseLiquidity. by rewrite E.
  - unfold HandleCollect. destruct (Positions tpm !! tokenID) as [p|] eqn:E; [|done].
    simpl. eapply storePosition_wellIndexed; eauto. by unfold sameIdentity.
  - destruct (Positions tpm !! tokenID) as [p|] eqn:E.
    + destruct (decide (Owner p = from)) as [<-|Hne].
      * by apply HandleTransfer_wellIndexed.
      * exfalso. apply Hnot. eauto.
    + unfold HandleTransfer. by rewrite E.
Qed.

(** In every state reached from the empty ledger by operations none of
    which is a transfer refused for its sender, the indices are inverse
    to the position map. *)
Lemma applyOps_wellIndexed (ops : list LedgerOp) (tpm : TokenPositionManager) :
  wellIndexed tpm ->
  (forall before op after, ops = before ++ op :: after ->
     ~ refused (applyOps LiquidityAddDelta tpm before) op) ->
  indicesInverse (applyOps LiquidityAddDelta tpm ops).
Proof.
  revert tpm. induction ops as [|op ops IH]; intros tpm Hw Hnot; simpl.
  - apply Hw.
  - apply IH.
    + apply applyOp_wellIndexed; [exact Hw|]. by apply (Hnot [] op ops).
    + intros before op' after ->. by apply (Hnot (op :: before) op' after).
Qed.

End WellIndexed.

(* ===================================================================== *)
(** ** The swap engine: static swaps *)
(* ===================================================================== *)

Lemma maxOf_In (l : list Z) (m : Z) : maxOf l = Some m -> In m l.
Proof.
  revert m. induction l as [|k l IH]; intros m; simpl; [discriminate|].
  destruct (maxOf l) as [m'|] eqn:E.
  - intros [= <-]. destruct (Z.max_spec k m') as [[_ ->]|[_ ->]]; auto.
  - intros [= <-]. auto.
Qed.

Lemma minOf_In (l : list Z) (m : Z) : minOf l = Some m -> In m l.
Proof.
  revert m. induction l as [|k l IH]; intros m; simpl; [discriminate|].
  destruct (minOf l) as [m'|] eqn:E.
  - intros [= <-]. destruct (Z.min_spec k m') as [[_ ->]|[_ ->]]; auto.
  - intros [= <-]. auto.
Qed.

Lemma addressable_clamp (tickSpacing k : Z) :
  addressable tickSpacing k = true -> clampTick k = k.
Proof.
  unfold addressable, clampTick. rewrite !andb_true_iff.
  intros [[_ H1] H2]. apply Z.leb_le in H1, H2.
  destruct (k <? MIN_TICK) eqn:E1; [apply Z.ltb_lt in E1; lia|].
  destruct (k >? MAX_TICK) eqn:E2; [apply Z.gtb_lt in E2; lia|].
  reflexivity.
Qed.

(** A tick that the search reports as initialised is in the map and
    within the tick bounds. *)
Lemma GetNextInitializedTick_initialized (tm : TickManager)
    (from tickSpacing : Z) (zeroForOne : bool) (k : Z) :
  GetNextInitializedTick tm from tickSpacing zeroForOne = Ok (k, true) ->
  is_Some (tm !! k) /\ clampTick k = k.
Proof.
  unfold GetNextInitializedTick.
  assert (Hin : forall f, In k (List.filter f
                 (List.filter (addressable tickSpacing) (elements (dom tm)))) ->
               is_Some (tm !! k) /\ clampTick k = k).
  { intros f Hk. apply filter_In in Hk as [Hk _].
    apply filter_In in Hk as [Hk Ha]. split.
    - apply elem_of_dom. apply elem_of_elements. by apply list_elem_of_In.
    - by apply addressable_clamp in Ha. }
  destruct zeroForOne.
  - destruct (maxOf _) as [m|] eqn:E; intros [= <-].
    apply maxOf_In in E. eauto.
  - destruct (minOf _) as [m|] eqn:E; intros [= <-].
    apply minOf_In in E. eauto.
Qed.

Section StaticSwap.

Variable lib : MathLib.
Variable ctx : string -> error -> error.

Lemma computeStep_initialized (p : CorePool.t) (tm : TickManager)
    (zeroForOne exactInput : bool) (limit : Q) (state state1 : swapState)
    (step : StepComputations) :
  computeStep lib ctx p tm zeroForOne exactInput limit state = Ok (step, state1) ->
  initialized step = true -> is_Some (tm !! tickNext step).
Proof.
  unfold computeStep.
  destruct (GetNextInitializedTick _ _ _ _) as [[k b]| |] eqn:En;
    simpl; [|discriminate..].
  destruct (GetSqrtRatioAtTick lib _) as [sp| |]; simpl; [|discriminate..].
  destruct (ComputeSwapStep lib _ _ _ _ _) as [[[[a b'] c] d]| |];
    simpl; [|discriminate..].
  destruct (Decimal.IsPositive _); simpl.
  - destruct (Decimal.Div _ _); simpl; [|discriminate].
    intros [= <- _]. simpl. intros ->.
    apply GetNextInitializedTick_initialized in En as [Hs ->]. exact Hs.
  - intros [= <- _]. simpl. intros ->.
    apply GetNextInitializedTick_initialized in En as [Hs ->]. exact Hs.
Qed.

Lemma crossInitialized_static (p : CorePool.t) (tm : TickManager)
    (zeroForOne : bool) (step : StepComputations) (state : swapState) :
  is_Some (tm !! tickNext step) ->
  fst (crossInitialized lib ctx p tm zeroForOne true step state) = tm.
Proof.
  intros [t Ht]. unfold crossInitialized, GetTickAndInitIfAbsent.
  rewrite Ht. reflexivity.
Qed.

Lemma finishStep_static (p : CorePool.t) (tm : TickManager)
    (zeroForOne : bool) (step : StepComputations) (state : swapState) :
  (initialized step = true -> is_Some (tm !! tickNext step)) ->
  fst (finishStep lib ctx p tm zeroForOne true step state) = tm.
Proof.
  intros H. unfold finishStep.
  destruct (Decimal.Equal _ _).
  - destruct (initialized step) eqn:Ei.
    + pose proof (crossInitialized_static p tm zeroForOne step state (H eq_refl)) as Hc.
      destruct (crossInitialized _ _ _ _ _ _ _ _). exact Hc.
    + reflexivity.
  - destruct (negb _); reflexivity.
Qed.

(** A pass of the loop body of a static swap leaves the tick map as it
    was. *)
Lemma swapStep_static (p : CorePool.t) (zeroForOne exactInput : bool)
    (limit : Q) (tm : TickManager) (state : swapState) :
  fst (swapStep lib ctx p zeroForOne exactInput true limit tm state) = tm.
Proof.
  unfold swapStep.
  destruct (computeStep _ _ _ _ _ _ _ _) as [[step state1]| |] eqn:E;
    [|reflexivity..].
  apply finishStep_static. eapply computeStep_initialized; eauto.
Qed.

Lemma finish_static (p : CorePool.t) (zeroForOne exactInput : bool)
    (amountSpecified : Q) (looped : TickManager * result swapState) :
  fst looped = CorePool.Ticks p ->
  fst (finish p zeroForOne exactInput true amountSpecified looped) = p.
Proof.
  intros H. unfold finish. rewrite H.
  assert (Hp : CorePool.setTicks p (CorePool.Ticks p) = p) by (by destruct p).
  rewrite Hp. by destruct (snd looped).
Qed.

End StaticSwap.

Lemma Tolerant_swapLoop_static (lib : MathLib) (passes : nat) (p : CorePool.t)
    (zeroForOne exactInput : bool) (limit : Q) (tm : TickManager) (state : swapState) :
  fst (Tolerant.swapLoop lib passes p zeroForOne exactInput true limit tm state) = tm.
Proof.
  revert tm state. induction passes as [|n IH]; intros tm state; simpl; [reflexivity|].
  destruct (Tolerant.exitCheck limit state) as [[|]| |]; try reflexivity.
  pose proof (swapStep_static lib Tolerant.ctx p zeroForOne exactInput limit tm state) as Hs.
  destruct (swapStep _ _ _ _ _ _ _ _ _) as [tm1 [state1| |]]; simpl in Hs; subst tm1;
    [apply IH|reflexivity..].
Qed.

Lemma Exact_swapLoop_static (lib : MathLib) (passes : nat) (p : CorePool.t)
    (zeroForOne exactInput : bool) (limit : Q) (tm : TickManager) (state : swapState) :
  fst (Exact.swapLoop lib passes p zeroForOne exactInput true limit tm state) = tm.
Proof.
  revert tm state. induction passes as [|n IH]; intros tm state; simpl.
  - destruct (Exact.loopDone limit state); reflexivity.
  - destruct (Exact.loopDone limit state); [reflexivity|].
    pose proof (swapStep_static lib Exact.ctx p zeroForOne exactInput limit tm state) as Hs.
    destruct (swapStep _ _ _ _ _ _ _ _ _) as [tm1 [state1| |]]; simpl in Hs; subst tm1;
      [apply IH|reflexivity..].
Qed.

(** A static swap of either variant, whatever it returns, returns with
    the pool it was called on. *)
Lemma Tolerant_HandleSwap_static (lib : MathLib) (p : CorePool.t) (zeroForOne : bool)
    (amountSpecified : Q) (limit : option Q) :
  fst (Tolerant.HandleSwap lib p zeroForOne amountSpecified limit true) = p.
Proof.
  unfold Tolerant.HandleSwap.
  destruct (Tolerant.validate _ _ _); [reflexivity|].
  apply finish_static. apply Tolerant_swapLoop_static.
Qed.

Lemma Exact_HandleSwap_static (lib : MathLib) (p : CorePool.t) (zeroForOne : bool)
    (amountSpecified : Q) (limit : option Q) :
  fst (Exact.HandleSwap lib p zeroForOne amountSpecified limit true) = p.
Proof.
  unfold Exact.HandleSwap.
  destruct (Exact.validate _ _ _); [reflexivity|].
  apply finish_static. apply Exact_swapLoop_static.
Qed.

(** C6. A static swap that returns without error returns with the pool
    it was called on: price, current tick, liquidity, both global fee
    growths, the tick map with every tick's outside fee growth, and the
    position store are the fields of the pool record, and the record is
    the same. This holds for both variants of [HandleSwap]. *)
Theorem static_swap_leaves_pool_unchanged (lib : MathLib) (p p' : CorePool.t)
    (zeroForOne : bool) (amountSpecified : Q) (limit : option Q)
    (amounts : Q * Q * Q) :
  Tolerant.HandleSwap lib p zeroForOne amountSpecified limit true = (p', Ok amounts)
  \/ Exact.HandleSwap lib p zeroForOne amountSpecified limit true = (p', Ok amounts) ->
  p' = p.
Proof.
  intros [H|H].
  - pose proof (Tolerant_HandleSwap_static lib p zeroForOne amountSpecified limit) as Hs.
    rewrite H in Hs. exact Hs.
  - pose proof (Exact_HandleSwap_static lib p zeroForOne amountSpecified limit) as Hs.
    rewrite H in Hs. exact Hs.
Qed.

Lemma static_swap_leaves_pool_unchanged_witness :
  Tolerant.HandleSwap tabulatedLib samplePool true (1 # 2)%Q None true
  = (samplePool, Ok ((0 # 4)%Q, 0%Q, inject_Z (2 ^ 96))).
Proof.
  assert (H : Tolerant.HandleSwap tabulatedLib samplePool true (1 # 2)%Q None true
              = (fst (Tolerant.HandleSwap tabulatedLib samplePool true (1 # 2)%Q None true),
                 Ok ((0 # 4)%Q, 0%Q, inject_Z (2 ^ 96))))
    by (vm_compute; reflexivity).
  pose proof (static_swap_leaves_pool_unchanged tabulatedLib samplePool _ true
                (1 # 2)%Q None _ (or_introl H)) as E.
  rewrite E in H. exact H.
Defined.

(** A committing swap does write the pool: crossing a tick rewrites its
    outside fee growth through [Cross]. *)
Example crossInitialized_commits :
  let step := {| sqrtPriceStartX96 := inject_Z (2 ^ 96); tickNext := -60;
                 initialized := true; sqrtPriceNextX96 := 1%Q;
                 amountIn := 0%Q; amountOut := 0%Q; feeAmount := 0%Q |} in
  let state := {| amountSpecifiedRemaining := 1%Q; amountCalculated := 0%Q;
                  sqrtPriceX96 := 1%Q; tick := 0; liquidity := inject_Z (10 ^ 18);
                  feeGrowthGlobalX128 := inject_Z 5 |} in
  FeeGrowthOutside0X128
  <$> fst (crossInitialized tabulatedLib Exact.ctx samplePoolWithTicks sampleTicks
             true false step state) !! (-60)
  = Some (inject_Z 5)
  /\ fst (crossInitialized tabulatedLib Exact.ctx samplePoolWithTicks sampleTicks
            true true step state) = sampleTicks.
Proof. split; vm_compute; reflexivity. Qed.

(* ===================================================================== *)
(** ** The swap engine: how the loop is left *)
(* ===================================================================== *)

Lemma loopDone_spec (limit : Q) (state : swapState) :
  Exact.loopDone limit state = true
  <-> (amountSpecifiedRemaining state == 0)%Q \/ (sqrtPriceX96 state == limit)%Q.
Proof.
  unfold Exact.loopDone. rewrite orb_true_iff, !Equal_spec. reflexivity.
Qed.

(** The second variant leaves its loop normally only on the guard: with
    nothing left to swap or with the price on the limit, both compared
    by [Equal]. *)
Lemma Exact_swapLoop_exit (lib : MathLib) (passes : nat) (p : CorePool.t)
    (zeroForOne exactInput isStatic : bool) (limit : Q)
    (tm tm' : TickManager) (state state' : swapState) :
  Exact.swapLoop lib passes p zeroForOne exactInput isStatic limit tm state
  = (tm', Ok state') ->
  Exact.loopDone limit state' = true.
Proof.
  revert tm state. induction passes as [|n IH]; intros tm state; simpl.
  - destruct (Exact.loopDone limit state) eqn:E; [|discriminate].
    intros [= _ <-]. exact E.
  - destruct (Exact.loopDone limit state) eqn:E.
    + intros [= _ <-]. exact E.
    + destruct (swapStep _ _ _ _ _ _ _ _ _) as [tm1 [state1| |]];
        [apply IH|discriminate..].
Qed.

(** X20. In the second variant a swap that returns without error has
    left its loop on the guard: the amounts returned are those of a
    state with nothing left to swap or with its price on the limit, both
    compared by [Equal]. *)
Lemma Exact_HandleSwap_exit (lib : MathLib) (p p' : CorePool.t)
    (zeroForOne isStatic : bool) (amountSpecified : Q) (limit : option Q)
    (amounts : Q * Q * Q) :
  Exact.HandleSwap lib p zeroForOne amountSpecified limit isStatic = (p', Ok amounts) ->
  exists state',
    ((amountSpecifiedRemaining state' == 0)%Q
     \/ (sqrtPriceX96 state' == priceLimit zeroForOne limit)%Q)
    /\ amounts = finalAmounts zeroForOne
                   (Decimal.GreaterThanOrEqual amountSpecified Decimal.ZERO)
                   amountSpecified state'.
Proof.
  unfold Exact.HandleSwap.
  destruct (Exact.validate _ _ _); [discriminate|].
  unfold finish.
  destruct (Exact.swapLoop _ _ _ _ _ _ _ _ _) as [tm' [state'| |]] eqn:E;
    simpl; [|discriminate..].
  intros [= _ <-]. exists state'. split; [|reflexivity].
  apply loopDone_spec. eapply Exact_swapLoop_exit; eauto.
Qed.

Lemma Tolerant_swapLoop_S (lib : MathLib) (passes : nat) (p : CorePool.t)
    (zeroForOne exactInput isStatic : bool) (limit : Q)
    (tm : TickManager) (state : swapState) :
  Tolerant.swapLoop lib (S passes) p zeroForOne exactInput isStatic limit tm state
  = match Tolerant.exitCheck limit state with
    | Ok true => (tm, Ok state)
    | Ok false =>
        match swapStep lib Tolerant.ctx p zeroForOne exactInput isStatic
                limit tm state with
        | (tm1, Ok state1) =>
            Tolerant.swapLoop lib passes p zeroForOne exactInput isStatic
              limit tm1 state1
        | (tm1, Err e) => (tm1, Err e)
        | (tm1, Panic) => (tm1, Panic)
        end
    | Err e => (tm, Err e)
    | Panic => (tm, Panic)
    end.
Proof. reflexivity. Qed.

(** C2, at the first variant. Whenever the exit test holds on the state
    a swap starts from, which it does as soon as the price is within one
    part in a hundred thousand of the limit, the loop is left before its
    first pass and the swap returns the amounts of that state without an
    error, whatever is left to swap and whether or not the price is the
    limit. *)
Theorem tolerant_loop_exit_is_not_exact (lib : MathLib) (p : CorePool.t)
    (zeroForOne isStatic : bool) (amountSpecified : Q) (limit : option Q) :
  let sqrtPriceLimitX96 := priceLimit zeroForOne limit in
  let exactInput := Decimal.GreaterThanOrEqual amountSpecified Decimal.ZERO in
  let state := initialState p zeroForOne amountSpecified in
  Tolerant.validate p zeroForOne sqrtPriceLimitX96 = None ->
  Tolerant.exitCheck sqrtPriceLimitX96 state = Ok true ->
  Tolerant.swapLoop lib Tolerant.maxIterations p zeroForOne exactInput isStatic
    sqrtPriceLimitX96 (CorePool.Ticks p) state
  = (CorePool.Ticks p, Ok state)
  /\ Tolerant.HandleSwap lib p zeroForOne amountSpecified limit isStatic
     = (if isStatic then p else commit p zeroForOne state,
        Ok (finalAmounts zeroForOne exactInput amountSpecified state)).
Proof.
  intros sqrtPriceLimitX96 exactInput state Hv Hexit.
  assert (Hloop : Tolerant.swapLoop lib Tolerant.maxIterations p zeroForOne
                    exactInput isStatic sqrtPriceLimitX96 (CorePool.Ticks p) state
                  = (CorePool.Ticks p, Ok state)).
  { change Tolerant.maxIterations with (S 1023).
    rewrite Tolerant_swapLoop_S, Hexit. reflexivity. }
  split; [exact Hloop|].
  unfold Tolerant.HandleSwap. fold sqrtPriceLimitX96. rewrite Hv.
  fold exactInput state. rewrite Hloop. unfold finish. cbn [fst snd].
  assert (Hp : CorePool.setTicks p (CorePool.Ticks p) = p) by (by destruct p).
  rewrite Hp. reflexivity.
Qed.

(** The failing call: a swap of 1000 with a price limit one unit below
    the pool price. 1000 is left to swap and the price is not the limit,
    yet the swap returns zero amounts; the guard of the second variant
    does not hold on that state. *)
Lemma tolerant_loop_exit_is_not_exact_witness :
  let limit := inject_Z (2 ^ 96 - 1) in
  let state := initialState samplePool true (inject_Z 1000) in
  Decimal.Equal (amountSpecifiedRemaining state) Decimal.ZERO = false
  /\ Decimal.Equal (sqrtPriceX96 state) limit = false
  /\ Exact.loopDone limit state = false
  /\ Tolerant.HandleSwap tabulatedLib samplePool true (inject_Z 1000) (Some limit) false
     = (commit samplePool true state,
        Ok (Decimal.Sub (inject_Z 1000) (inject_Z 1000), 0%Q, inject_Z (2 ^ 96))).
Proof.
  intros limit state.
  split; [reflexivity|]. split; [reflexivity|]. split; [reflexivity|].
  apply (tolerant_loop_exit_is_not_exact tabulatedLib samplePool true false
           (inject_Z 1000) (Some limit)); vm_compute; reflexivity.
Defined.

(* ===================================================================== *)
(** ** The swap engine: the iteration bound *)
(* ===================================================================== *)

Lemma Tolerant_swapLoop_passed (lib : MathLib) (p : CorePool.t)
    (zeroForOne exactInput isStatic : bool) (limit : Q) (n : nat)
    (tm tm' : TickManager) (state state' : swapState) :
  Tolerant.passed lib p zeroForOne exactInput isStatic limit n tm state tm' state' ->
  forall m,
    Tolerant.swapLoop lib (n + m) p zeroForOne exactInput isStatic limit tm state
    = Tolerant.swapLoop lib m p zeroForOne exactInput isStatic limit tm' state'.
Proof.
  induction 1 as [|n tm state tm1 state1 tm' state' Hexit Hstep _ IH]; intros m.
  - reflexivity.
  - simpl. rewrite Hexit, Hstep. apply IH.
Qed.

Lemma Exact_swapLoop_passed (lib : MathLib) (p : CorePool.t)
    (zeroForOne exactInput isStatic : bool) (limit : Q) (n : nat)
    (tm tm' : TickManager) (state state' : swapState) :
  Exact.passed lib p zeroForOne exactInput isStatic limit n tm state tm' state' ->
  forall m,
    Exact.swapLoop lib (n + m) p zeroForOne exactInput isStatic limit tm state
    = Exact.swapLoop lib m p zeroForOne exactInput isStatic limit tm' state'.
Proof.
  induction 1 as [|n tm state tm1 state1 tm' state' Hguard Hstep _ IH]; intros m.
  - reflexivity.
  - simpl. rewrite Hguard, Hstep. apply IH.
Qed.

(** A pass that changes nothing can be repeated any number of times. *)
Lemma Tolerant_passed_idle (lib : MathLib) (p : CorePool.t)
    (zeroForOne exactInput isStatic : bool) (limit : Q)
    (tm : TickManager) (state : swapState) :
  Tolerant.exitCheck limit state = Ok false ->
  swapStep lib Tolerant.ctx p zeroForOne exactInput isStatic limit tm state
  = (tm, Ok state) ->
  forall n, Tolerant.passed lib p zeroForOne exactInput isStatic limit n tm state tm state.
Proof.
  intros Hexit Hstep n. induction n as [|n IH].
  - constructor.
  - econstructor; eauto.
Qed.

Lemma Exact_passed_idle (lib : MathLib) (p : CorePool.t)
    (zeroForOne exactInput isStatic : bool) (limit : Q)
    (tm : TickManager) (state : swapState) :
  Exact.loopDone limit state = false ->
  swapStep lib Exact.ctx p zeroForOne exactInput isStatic limit tm state
  = (tm, Ok state) ->
  forall n, Exact.passed lib p zeroForOne exactInput isStatic limit n tm state tm state.
Proof.
  intros Hguard Hstep n. induction n as [|n IH].
  - constructor.
  - econstructor; eauto.
Qed.

(** X21. The second variant, past its bound of 1000 passes with the guard
    still holding, returns the error; price, tick, liquidity and fee
    growth of the pool are not written. *)
Lemma Exact_swap_fails_past_bound (lib : MathLib) (p : CorePool.t)
    (zeroForOne isStatic : bool) (amountSpecified : Q) (limit : option Q)
    (tm' : TickManager) (state' : swapState) :
  Exact.validate p zeroForOne (priceLimit zeroForOne limit) = None ->
  Exact.passed lib p zeroForOne
    (Decimal.GreaterThanOrEqual amountSpecified Decimal.ZERO) isStatic
    (priceLimit zeroForOne limit) Exact.maxLoopCount
    (CorePool.Ticks p) (initialState p zeroForOne amountSpecified) tm' state' ->
  Exact.loopDone (priceLimit zeroForOne limit) state' = false ->
  Exact.HandleSwap lib p zeroForOne amountSpecified limit isStatic
  = (CorePool.setTicks p tm', Err ErrExcessiveLoopIterations).
Proof.
  intros Hv Hp Hguard. unfold Exact.HandleSwap. rewrite Hv.
  pose proof (Exact_swapLoop_passed _ _ _ _ _ _ _ _ _ _ _ Hp O) as Hl.
  rewrite Nat.add_0_r in Hl. rewrite Hl. simpl. rewrite Hguard. reflexivity.
Qed.

(** C3, at the first variant. When the loop has gone through its 1024
    passes without the exit test holding and without an error, the swap
    does not fail: it returns the amounts of the state reached so far,
    and a committing swap writes that state to the pool. *)
Theorem tolerant_swap_succeeds_past_bound (lib : MathLib) (p : CorePool.t)
    (zeroForOne isStatic : bool) (amountSpecified : Q) (limit : option Q)
    (tm' : TickManager) (state' : swapState) :
  Tolerant.validate p zeroForOne (priceLimit zeroForOne limit) = None ->
  Tolerant.passed lib p zeroForOne
    (Decimal.GreaterThanOrEqual amountSpecified Decimal.ZERO) isStatic
    (priceLimit zeroForOne limit) Tolerant.maxIterations
    (CorePool.Ticks p) (initialState p zeroForOne amountSpecified) tm' state' ->
  Tolerant.HandleSwap lib p zeroForOne amountSpecified limit isStatic
  = (if isStatic then CorePool.setTicks p tm'
     else commit (CorePool.setTicks p tm') zeroForOne state',
     Ok (finalAmounts zeroForOne
           (Decimal.GreaterThanOrEqual amountSpecified Decimal.ZERO)
           amountSpecified state')).
Proof.
  intros Hv Hp. unfold Tolerant.HandleSwap. rewrite Hv.
  pose proof (Tolerant_swapLoop_passed _ _ _ _ _ _ _ _ _ _ _ Hp O) as Hl.
  rewrite Nat.add_0_r in Hl. rewrite Hl. reflexivity.
Qed.

(** The failing call: half a unit to swap, which the step of the SDK
    sees as zero, so that every pass leaves the state as it found it.
    After 1024 passes a committing swap returns zero amounts and no
    error, with half a unit still to swap and the price far from the
    limit; the second variant returns its error on the same call. *)
Lemma tolerant_swap_succeeds_past_bound_witness :
  let state := initialState samplePool true (1 # 2)%Q in
  let limit := priceLimit true None in
  Tolerant.exitCheck limit state = Ok false
  /\ Exact.loopDone limit state = false
  /\ Tolerant.HandleSwap tabulatedLib samplePool true (1 # 2)%Q None false
     = (commit (CorePool.setTicks samplePool (CorePool.Ticks samplePool)) true state,
        Ok (finalAmounts true true (1 # 2)%Q state))
  /\ snd (Exact.HandleSwap tabulatedLib samplePool true (1 # 2)%Q None false)
     = Err ErrExcessiveLoopIterations.
Proof.
  intros state limit.
  assert (Hexit : Tolerant.exitCheck limit state = Ok false) by (vm_compute; reflexivity).
  assert (Hstep : swapStep tabulatedLib Tolerant.ctx samplePool true true false limit
                    (CorePool.Ticks samplePool) state
                  = (CorePool.Ticks samplePool, Ok state))
    by (vm_compute; reflexivity).
  split; [exact Hexit|]. split; [vm_compute; reflexivity|]. split.
  - apply (tolerant_swap_succeeds_past_bound tabulatedLib samplePool true false
             (1 # 2)%Q None (CorePool.Ticks samplePool) state).
    + vm_compute; reflexivity.
    + apply Tolerant_passed_idle; assumption.
  - vm_compute; reflexivity.
Defined.

(* ===================================================================== *)
(** ** The resolver *)
(* ===================================================================== *)

Lemma Exact_tryToDryRun_static (lib : MathLib) (p : CorePool.t)
    (param : UniV3SwapEvent) (amountSpec : Q) (limit : option Q) :
  fst (Exact.tryToDryRun lib p param amountSpec limit) = p.
Proof.
  unfold Exact.tryToDryRun.
  pose proof (Exact_HandleSwap_static lib p (Decimal.IsPositive (Amount0 param))
                amountSpec limit) as Hs.
  destruct (Exact.HandleSwap _ _ _ _ _ _) as [p1 [[[a0 a1] pr]| |]]; exact Hs.
Qed.

Lemma Exact_tryToDryRun_true (lib : MathLib) (p p1 : CorePool.t)
    (param : UniV3SwapEvent) (solution : SwapSolution) :
  Exact.tryToDryRun lib p param (AmountSpecified solution) (SqrtPriceLimitX96 solution)
  = (p1, Ok true) ->
  reproduces lib p param solution.
Proof.
  unfold Exact.tryToDryRun, reproduces.
  pose proof (Exact_HandleSwap_static lib p (Decimal.IsPositive (Amount0 param))
                (AmountSpecified solution) (SqrtPriceLimitX96 solution)) as Hs.
  destruct (Exact.HandleSwap _ _ _ _ _ _) as [p2 [[[a0 a1] pr]| |]];
    simpl in Hs; subst p2; [|discriminate..].
  intros [= _ H]. apply andb_true_iff in H as [H H3].
  apply andb_true_iff in H as [H1 H2].
  exists a0, a1, pr. rewrite <- !Equal_spec. auto.
Qed.

Lemma Exact_tryToDryRun_false (lib : MathLib) (p p1 : CorePool.t)
    (param : UniV3SwapEvent) (solution : SwapSolution) :
  Exact.tryToDryRun lib p param (AmountSpecified solution) (SqrtPriceLimitX96 solution)
  = (p1, Ok false) ->
  ~ reproduces lib p param solution.
Proof.
  unfold Exact.tryToDryRun, reproduces.
  intros H (a0 & a1 & pr & Hs & H0 & H1 & H2). rewrite Hs in H.
  apply Equal_spec in H0, H1, H2. rewrite H0, H1, H2 in H. discriminate.
Qed.

(** The loop over the candidates of the second variant returns the first
    candidate that reproduces the event, and none when none does. *)
Lemma Exact_trySolutions_first (lib : MathLib) (p p' : CorePool.t)
    (param : UniV3SwapEvent) (solutions : list SwapSolution) (solution : SwapSolution) :
  Exact.trySolutions lib p param solutions = (p', Ok (Some solution)) ->
  p' = p
  /\ exists before after,
       solutions = before ++ solution :: after
       /\ reproduces lib p param solution
       /\ Forall (fun s => ~ reproduces lib p param s) before.
Proof.
  revert p'. induction solutions as [|s rest IH]; intros p'; simpl; [discriminate|].
  pose proof (Exact_tryToDryRun_static lib p param (AmountSpecified s)
                (SqrtPriceLimitX96 s)) as Hs.
  destruct (Exact.tryToDryRun _ _ _ _ _) as [p1 [[|]| |]] eqn:E;
    simpl in Hs; subst p1; [| |discriminate..].
  - intros [= <- <-]. split; [reflexivity|].
    exists [], rest. split; [reflexivity|]. split; [|constructor].
    eapply Exact_tryToDryRun_true; eauto.
  - intros H. destruct (IH _ H) as (-> & before & after & -> & Hr & Hb).
    split; [reflexivity|].
    exists (s :: before), after. split; [reflexivity|]. split; [exact Hr|].
    constructor; [|exact Hb]. eapply Exact_tryToDryRun_false; eauto.
Qed.

Lemma Exact_trySolutions_none (lib : MathLib) (p p' : CorePool.t)
    (param : UniV3SwapEvent) (solutions : list SwapSolution) :
  Exact.trySolutions lib p param solutions = (p', Ok None) ->
  p' = p /\ Forall (fun s => ~ reproduces lib p param s) solutions.
Proof.
  revert p'. induction solutions as [|s rest IH]; intros p'; simpl.
  - intros [= <-]. split; [reflexivity|constructor].
  - pose proof (Exact_tryToDryRun_static lib p param (AmountSpecified s)
                  (SqrtPriceLimitX96 s)) as Hs.
    destruct (Exact.tryToDryRun _ _ _ _ _) as [p1 [[|]| |]] eqn:E;
      simpl in Hs; subst p1; [discriminate| |discriminate..].
    intros H. destruct (IH _ H) as (-> & Hb). split; [reflexivity|].
    constructor; [|exact Hb]. eapply Exact_tryToDryRun_false; eauto.
Qed.

(** X22. In the second variant an answer of the resolver is the first
    candidate of its list whose static swap reproduces the event with
    equality on the three values; the pool is as it was. *)
Lemma Exact_resolver_exact (lib : MathLib) (p p' : CorePool.t)
    (param : UniV3SwapEvent) (amountSpecified : Q) (limit : option Q) :
  Exact.ResolveInputFromSwapResultEvent lib p (Some param)
  = (p', Ok (amountSpecified, limit)) ->
  p' = p
  /\ exists before after,
       Exact.solutionList p param
       = before ++ mkSwapSolution amountSpecified limit :: after
       /\ reproduces lib p param (mkSwapSolution amountSpecified limit)
       /\ Forall (fun s => ~ reproduces lib p param s) before.
Proof.
  unfold Exact.ResolveInputFromSwapResultEvent.
  destruct (Exact.trySolutions _ _ _ _) as [p1 [[[a l]|]| |]] eqn:E;
    try discriminate.
  intros [= <- <- <-]. eapply Exact_trySolutions_first; eauto.
Qed.

(** X23. In the second variant, when no candidate reproduces the event
    (and no dry run panics), the resolver returns the error that names
    the event and leaves the pool as it was. *)
Lemma Exact_resolver_unresolvable (lib : MathLib) (p : CorePool.t)
    (param : UniV3SwapEvent) :
  Forall (fun s => ~ reproduces lib p param s) (Exact.solutionList p param) ->
  (forall s, In s (Exact.solutionList p param) ->
     snd (Exact.HandleSwap lib p (Decimal.IsPositive (Amount0 param))
            (AmountSpecified s) (SqrtPriceLimitX96 s) true) <> Panic) ->
  Exact.ResolveInputFromSwapResultEvent lib p (Some param)
  = (p, Err (ErrFailedToFindSwapSolution (TxHash param) (Address param)
               (Amount0 param) (Amount1 param) (SqrtPriceX96 param))).
Proof.
  intros Hnone Hpanic. unfold Exact.ResolveInputFromSwapResultEvent.
  assert (Ht : Exact.trySolutions lib p param (Exact.solutionList p param)
               = (p, Ok None)).
  { revert Hnone Hpanic. generalize (Exact.solutionList p param) as l.
    induction l as [|s rest IH]; intros Hnone Hpanic; simpl; [reflexivity|].
    inversion Hnone as [|? ? Hs Hrest]; subst.
    pose proof (Exact_tryToDryRun_static lib p param (AmountSpecified s)
                  (SqrtPriceLimitX96 s)) as Hst.
    destruct (Exact.tryToDryRun _ _ _ _ _) as [p1 [[|]| |]] eqn:E;
      simpl in Hst; subst p1.
    - exfalso. apply Hs. eapply Exact_tryToDryRun_true; eauto.
    - apply IH; [exact Hrest|]. intros s' Hin. apply Hpanic. by right.
    - exfalso. unfold Exact.tryToDryRun in E.
      destruct (Exact.HandleSwap _ _ _ _ _ _) as [p2 [[[a0 a1] pr]| |]]; discriminate.
    - exfalso. specialize (Hpanic s (or_introl eq_refl)).
      unfold Exact.tryToDryRun in E.
      destruct (Exact.HandleSwap _ _ _ _ _ _) as [p2 [[[a0 a1] pr]| |]];
        try discriminate. by apply Hpanic. }
  rewrite Ht. reflexivity.
Qed.

Lemma Tolerant_solutionList_head (param : UniV3SwapEvent) :
  exists rest,
    Tolerant.solutionList param
    = mkSwapSolution (Amount0 param) (Some (SqrtPriceX96 param)) :: rest.
Proof. unfold Tolerant.solutionList. eexists. reflexivity. Qed.

Lemma Tolerant_trySolutions_cons (lib : MathLib) (p : CorePool.t)
    (param : UniV3SwapEvent) (solution : SwapSolution) (rest : list SwapSolution)
    (bestSolution : option SwapSolution) (bestError : Q) :
  Tolerant.trySolutions lib p param (solution :: rest) bestSolution bestError
  = match Tolerant.HandleSwap lib p (Decimal.IsPositive (Amount0 param))
            (AmountSpecified solution) (SqrtPriceLimitX96 solution) true with
    | (p1, Err _) => Tolerant.trySolutions lib p1 param rest bestSolution bestError
    | (p1, Panic) => (p1, Panic)
    | (p1, Ok (amount0, amount1, priceX96)) =>
        match Tolerant.withinTolerance param amount0 amount1 priceX96 with
        | Ok true => (p1, Ok (inr solution))
        | Ok false =>
            match Tolerant.totalError param amount0 amount1 priceX96 with
            | Ok total =>
                if match bestSolution with None => true | Some _ => false end
                   || Decimal.LessThan total bestError
                then Tolerant.trySolutions lib p1 param rest (Some solution) total
                else Tolerant.trySolutions lib p1 param rest bestSolution bestError
            | Err e => (p1, Err e)
            | Panic => (p1, Panic)
            end
        | Err e => (p1, Err e)
        | Panic => (p1, Panic)
        end
    end.
Proof. reflexivity. Qed.

(** C4, at the first variant. When the static swap of the first
    candidate (the event's amount0 with the event's price as limit)
    returns three values within one part in a thousand of the event's,
    the resolver returns that candidate, whether or not the values are
    equal to the event's. *)
Theorem tolerant_resolver_accepts_within_tolerance (lib : MathLib)
    (p : CorePool.t) (param : UniV3SwapEvent) (amount0 amount1 priceX96 : Q) :
  Tolerant.HandleSwap lib p (Decimal.IsPositive (Amount0 param)) (Amount0 param)
    (Some (SqrtPriceX96 param)) true
  = (p, Ok (amount0, amount1, priceX96)) ->
  Tolerant.withinTolerance param amount0 amount1 priceX96 = Ok true ->
  Tolerant.ResolveInputFromSwapResultEvent lib p (Some param)
  = (p, Ok (Amount0 param, Some (SqrtPriceX96 param))).
Proof.
  intros Hswap Htol. unfold Tolerant.ResolveInputFromSwapResultEvent.
  destruct (Tolerant_solutionList_head param) as [rest ->].
  rewrite Tolerant_trySolutions_cons.
  cbn [AmountSpecified SqrtPriceLimitX96]. rewrite Hswap, Htol. reflexivity.
Qed.

(** The failing event: the pool is at price [2^96] with no liquidity in
    range; the event reports zero amounts and the price [2^96 + 1], as a
    swap through a range without liquidity does. The static swap of the
    first candidate returns the price [2^96], which is not the price of
    the event, and the resolver returns that candidate. On the same
    event the resolver of the second variant returns the error that
    names the event. *)
Lemma tolerant_resolver_accepts_within_tolerance_witness :
  let param := {| TxHash := "0xtx"; Address := "0xpool";
                  Amount0 := 0%Q; Amount1 := 0%Q;
                  SqrtPriceX96 := inject_Z (2 ^ 96 + 1);
                  EventLiquidity := 0%Q |} in
  Tolerant.HandleSwap tabulatedLib drainedPool false 0%Q
    (Some (inject_Z (2 ^ 96 + 1))) true
  = (drainedPool, Ok (Decimal.Sub 0%Q 0%Q, 0%Q, inject_Z (2 ^ 96)))
  /\ Decimal.Equal (inject_Z (2 ^ 96)) (SqrtPriceX96 param) = false
  /\ Tolerant.ResolveInputFromSwapResultEvent tabulatedLib drainedPool (Some param)
     = (drainedPool, Ok (0%Q, Some (inject_Z (2 ^ 96 + 1))))
  /\ snd (Exact.ResolveInputFromSwapResultEvent tabulatedLib drainedPool (Some param))
     = Err (ErrFailedToFindSwapSolution "0xtx" "0xpool" 0%Q 0%Q (inject_Z (2 ^ 96 + 1))).
Proof.
  intros param.
  split; [vm_compute; reflexivity|]. split; [reflexivity|]. split.
  - apply (tolerant_resolver_accepts_within_tolerance tabulatedLib drainedPool param
             (Decimal.Sub 0%Q 0%Q) 0%Q (inject_Z (2 ^ 96))); vm_compute; reflexivity.
  - vm_compute; reflexivity.
Defined.

(* ===================================================================== *)
(** ** The event parsers *)
(* ===================================================================== *)

Lemma byteOfZ_value (v : Z) : Z.of_N (Byte.to_N (byteOfZ v)) = v mod 256.
Proof.
  unfold byteOfZ.
  assert (Hb : 0 <= v mod 256 < 256) by (apply Z.mod_pos_bound; lia).
  pose proof (Byte.to_of_N_option_map (Z.to_N (v mod 256))) as H.
  assert (Hle : (Z.to_N (v mod 256) <=? 255)%N = true) by (apply N.leb_le; lia).
  rewrite Hle in H.
  destruct (Byte.of_N (Z.to_N (v mod 256))) as [b|]; [|discriminate].
  simpl in *. injection H as ->. lia.
Qed.

Lemma SetBytes_fold (b : list byte) (acc : Z) :
  fold_left (fun acc x => acc * 256 + Z.of_N (Byte.to_N x)) b acc
  = acc * 256 ^ Z.of_nat (length b) + SetBytes b.
Proof.
  unfold SetBytes. revert acc. induction b as [|x b IH]; intros acc.
  - simpl. lia.
  - cbn [fold_left length]. rewrite IH, (IH (0 * 256 + _)).
    rewrite Nat2Z.inj_succ, Z.pow_succ_r by lia. ring.
Qed.

Lemma SetBytes_app (a b : list byte) :
  SetBytes (a ++ b) = SetBytes a * 256 ^ Z.of_nat (length b) + SetBytes b.
Proof.
  unfold SetBytes at 1. rewrite fold_left_app. fold (SetBytes a).
  apply SetBytes_fold.
Qed.

(** The integer of a byte string is not negative and fits its length. *)
Lemma SetBytes_bounds (b : list byte) :
  0 <= SetBytes b < 256 ^ Z.of_nat (length b).
Proof.
  induction b as [|x b IH] using rev_ind.
  - simpl. unfold SetBytes. simpl. lia.
  - rewrite SetBytes_app, length_app. simpl length.
    replace (SetBytes [x]) with (Z.of_N (Byte.to_N x)) by (unfold SetBytes; simpl; lia).
    pose proof (Byte.to_N_bounded x) as Hx.
    rewrite Nat2Z.inj_add. simpl (Z.of_nat 1).
    rewrite Z.pow_add_r, Z.pow_1_r by lia. nia.
Qed.

Lemma length_bigEndian (n : nat) (v : Z) : length (bigEndian n v) = n.
Proof.
  revert v. induction n as [|n IH]; intros v; simpl; [reflexivity|].
  rewrite length_app, IH. simpl. lia.
Qed.

Lemma SetBytes_bigEndian (n : nat) (v : Z) :
  SetBytes (bigEndian n v) = v mod 256 ^ Z.of_nat n.
Proof.
  revert v. induction n as [|n IH]; intros v.
  - simpl. unfold SetBytes. simpl. by rewrite Z.mod_1_r.
  - cbn [bigEndian]. rewrite SetBytes_app, IH.
    change (256 ^ Z.of_nat (length [byteOfZ v])) with 256.
    replace (SetBytes [byteOfZ v]) with (v mod 256)
      by (unfold SetBytes; simpl; rewrite byteOfZ_value; lia).
    rewrite Nat2Z.inj_succ, Z.pow_succ_r by lia.
    assert (Hp : 0 < 256 ^ Z.of_nat n) by (apply Z.pow_pos_nonneg; lia).
    rewrite Z.rem_mul_r by lia. lia.
Qed.

Lemma SetBytes_abiWord (v : Z) :
  0 <= v < 2 ^ 256 -> SetBytes (abiWord v) = v.
Proof.
  intros H. unfold abiWord. rewrite SetBytes_bigEndian.
  change (256 ^ Z.of_nat 32) with (2 ^ 256). apply Z.mod_small, H.
Qed.

Lemma length_abiWord (v : Z) : length (abiWord v) = 32%nat.
Proof. apply length_bigEndian. Qed.

(** A signed 64-bit integer survives its two's-complement word. *)
Lemma Int64_abiWord (t : Z) :
  - 2 ^ 63 <= t < 2 ^ 63 -> Int64 (SetBytes (abiWord t)) = t.
Proof.
  intros H. unfold abiWord. rewrite SetBytes_bigEndian.
  change (256 ^ Z.of_nat 32) with (2 ^ 64 * 2 ^ 192). unfold Int64.
  rewrite Z.rem_mul_r by lia.
  rewrite (Z.mul_comm (2 ^ 64)), Z.mod_add by lia.
  rewrite Z.mod_mod by lia.
  destruct (Z.ltb_spec (t mod 2 ^ 64) (2 ^ 63)) as [Hlt|Hge].
  - destruct (Z.neg_nonneg_cases t) as [Hneg|Hpos].
    + exfalso.
      assert (t mod 2 ^ 64 = t + 2 ^ 64).
      { symmetry. apply Z.mod_unique with (q := -1); lia. }
      lia.
    + apply Z.mod_small. lia.
  - destruct (Z.neg_nonneg_cases t) as [Hneg|Hpos].
    + assert (t mod 2 ^ 64 = t + 2 ^ 64).
      { symmetry. apply Z.mod_unique with (q := -1); lia. }
      lia.
    + exfalso. rewrite Z.mod_small in Hge by lia. lia.
Qed.

Lemma slice_app_word (before w rest : list byte) (i : nat) :
  length before = (32 * i)%nat -> length w = 32%nat ->
  dataWord (before ++ w ++ rest) i = Some w.
Proof.
  intros Hb Hw. unfold dataWord, slice.
  assert (Hlen : (32 * i + 32 <=? length (before ++ w ++ rest))%nat = true).
  { apply Nat.leb_le. rewrite !length_app. lia. }
  rewrite Hlen. f_equal.
  rewrite drop_app_length' by lia.
  rewrite take_app_length' by lia. reflexivity.
Qed.

Lemma length_BytesToAddress (b : list byte) :
  length (BytesToAddress b) = AddressLength.
Proof.
  unfold BytesToAddress.
  destruct (Nat.ltb_spec AddressLength (length b)) as [H|H].
  - rewrite length_drop. lia.
  - rewrite length_app, length_replicate. lia.
Qed.

Lemma BytesToAddress_abiAddress (address : list byte) :
  length address = AddressLength ->
  BytesToAddress (abiAddress address) = address.
Proof.
  intros H. unfold BytesToAddress, abiAddress.
  rewrite length_app, length_replicate, H.
  change (AddressLength <? 12 + AddressLength)%nat with true. cbv iota.
  apply drop_app_length'. rewrite length_replicate. lia.
Qed.

Lemma dataWord_spec (data : list byte) (i : nat) :
  (32 * i + 32 <= length data)%nat ->
  exists w, dataWord data i = Some w /\ length w = 32%nat.
Proof.
  intros H. unfold dataWord, slice.
  apply Nat.leb_le in H as Hb. rewrite Hb. eexists. split; [reflexivity|].
  rewrite length_take, length_drop. lia.
Qed.

Lemma dataWord_short (data : list byte) (i : nat) :
  (length data < 32 * i + 32)%nat -> dataWord data i = None.
Proof.
  intros H. unfold dataWord, slice.
  destruct (Nat.leb_spec (32 * i + 32) (length data)); [lia|reflexivity].
Qed.

Lemma dataWord_0 (w rest : list byte) :
  length w = 32%nat -> dataWord (w ++ rest) 0 = Some w.
Proof. intros H. by apply (slice_app_word [] w rest 0). Qed.

Lemma dataWord_S (w rest : list byte) (i : nat) :
  length w = 32%nat -> dataWord (w ++ rest) (S i) = dataWord rest i.
Proof.
  intros H. unfold dataWord, slice. rewrite length_app, H.
  replace (32 * S i + 32 <=? 32 + length rest)%nat
    with (32 * i + 32 <=? length rest)%nat
    by (apply eq_true_iff_eq; rewrite !Nat.leb_le; lia).
  destruct (_ <=? _)%nat; [|reflexivity]. f_equal.
  replace (32 * S i)%nat with (length w + 32 * i)%nat by lia.
  rewrite drop_app_add. f_equal. lia.
Qed.

Lemma length_abiAddress (address : list byte) :
  length address = AddressLength -> length (abiAddress address) = 32%nat.
Proof.
  intros H. unfold abiAddress. rewrite length_app, length_replicate, H.
  reflexivity.
Qed.

(** The integer of a data word is an unsigned 256-bit integer. *)
Lemma dataWord_bounds (data w : list byte) (i : nat) :
  dataWord data i = Some w -> 0 <= SetBytes w < 2 ^ 256.
Proof.
  intros H. pose proof (SetBytes_bounds w) as Hb.
  assert (Hlen : (length w <= 32)%nat).
  { unfold dataWord, slice in H. destruct (_ <=? _)%nat; [|discriminate].
    injection H as <-. rewrite length_take. lia. }
  assert (256 ^ Z.of_nat (length w) <= 256 ^ 32)
    by (apply Z.pow_le_mono_r; lia).
  change (256 ^ 32) with (2 ^ 256) in *. lia.
Qed.

(** X2. Round trip of the three events of amounts: the log that encodes a
    token id in its second topic and the amounts in the words of its
    data is decoded to these values, the token id reduced to its low 64
    bits. Further topics and trailing data are ignored. *)
Theorem parse_amount_events_roundtrip (signature : list byte)
    (tokenId liquidity amount0 amount1 : Z) (topics : list (list byte))
    (rest : list byte) :
  0 <= tokenId < 2 ^ 256 -> 0 <= liquidity < 2 ^ 256 ->
  0 <= amount0 < 2 ^ 256 -> 0 <= amount1 < 2 ^ 256 ->
  let liquidityLog :=
    {| Topics := signature :: abiWord tokenId :: topics;
       Data := abiWord liquidity ++ abiWord amount0 ++ abiWord amount1 ++ rest |} in
  let collectLog :=
    {| Topics := signature :: abiWord tokenId :: topics;
       Data := abiWord amount0 ++ abiWord amount1 ++ rest |} in
  parseNFTIncreaseLiquidityEvent liquidityLog
  = Ok (NFTIncreaseLiquidityEvent.mk (Z.to_N (tokenId mod 2 ^ 64))
          (inject_Z liquidity) (inject_Z amount0) (inject_Z amount1))
  /\ parseNFTDecreaseLiquidityEvent liquidityLog
     = Ok (NFTDecreaseLiquidityEvent.mk (Z.to_N (tokenId mod 2 ^ 64))
             (inject_Z liquidity) (inject_Z amount0) (inject_Z amount1))
  /\ parseNFTCollectEvent collectLog
     = Ok (NFTCollectEvent.mk (Z.to_N (tokenId mod 2 ^ 64))
             (inject_Z amount0) (inject_Z amount1)).
Proof.
  intros Ht Hl H0 H1 liquidityLog collectLog.
  unfold parseNFTIncreaseLiquidityEvent, parseNFTDecreaseLiquidityEvent,
    parseNFTCollectEvent, topicTokenID, Decimal.NewFromBigInt, Uint64.
  subst liquidityLog collectLog. cbn [Topics Data length nth Nat.ltb Nat.leb].
  rewrite !dataWord_S, !dataWord_0 by apply length_abiWord.
  rewrite !SetBytes_abiWord by assumption. repeat split.
Qed.

Lemma parse_amount_events_roundtrip_witness :
  parseNFTDecreaseLiquidityEvent
    {| Topics := [abiWord 7; abiWord (2 ^ 64 + 5)];
       Data := abiWord 40 ++ abiWord 7 ++ abiWord 9 ++ [] |}
  = Ok (NFTDecreaseLiquidityEvent.mk 5%N (inject_Z 40) (inject_Z 7) (inject_Z 9)).
Proof.
  apply (parse_amount_events_roundtrip (abiWord 7) (2 ^ 64 + 5) 40 7 9 [] []); lia.
Defined.

(** X1. Round trip of the mint event: addresses come back as their
    lower-case hexadecimal text, ticks with their sign. *)
Theorem parseNFTMintEvent_roundtrip (signature : list byte)
    (tokenId tickLower tickUpper amount : Z) (owner pool : list byte)
    (topics : list (list byte)) (rest : list byte) :
  0 <= tokenId < 2 ^ 256 ->
  length owner = AddressLength -> length pool = AddressLength ->
  - 2 ^ 63 <= tickLower < 2 ^ 63 -> - 2 ^ 63 <= tickUpper < 2 ^ 63 ->
  0 <= amount < 2 ^ 256 ->
  parseNFTMintEvent
    {| Topics := signature :: abiWord tokenId :: topics;
       Data := abiAddress owner ++ abiWord tickLower ++ abiWord tickUpper
               ++ abiAddress pool ++ abiWord amount ++ rest |}
  = Ok (NFTMintEvent.mk (Z.to_N (tokenId mod 2 ^ 64)) (lowerHex owner)
          tickLower tickUpper (inject_Z amount) (lowerHex pool)).
Proof.
  intros Ht Ho Hp Hl Hu Ha.
  unfold parseNFTMintEvent, topicTokenID, Decimal.NewFromBigInt, Uint64.
  cbn [Topics Data length nth Nat.ltb Nat.leb].
  rewrite !dataWord_S, !dataWord_0
    by first [apply length_abiWord | by apply length_abiAddress].
  rewrite !BytesToAddress_abiAddress, !Int64_abiWord, !SetBytes_abiWord by assumption.
  reflexivity.
Qed.

Lemma parseNFTMintEvent_roundtrip_witness :
  parseNFTMintEvent
    {| Topics := [abiWord 7; abiWord 1];
       Data := abiAddress (replicate 20 "171"%byte) ++ abiWord (-60) ++ abiWord 60
               ++ abiAddress (replicate 20 "001"%byte) ++ abiWord 1000 ++ [] |}
  = Ok (NFTMintEvent.mk 1%N (lowerHex (replicate 20 "171"%byte)) (-60) 60
          (inject_Z 1000) (lowerHex (replicate 20 "001"%byte))).
Proof.
  apply (parseNFTMintEvent_roundtrip (abiWord 7) 1 (-60) 60 1000
           (replicate 20 "171"%byte) (replicate 20 "001"%byte) [] []);
    first [reflexivity | lia].
Defined.

(** X4. The outcome of a parser is decided by the sizes alone: too few
    topics give the error, enough topics with data shorter than the words
    read give a panic, and the transfer parser, which reads no data,
    never panics. *)
Theorem parsers_outcome (log : Log) :
  ((length (Topics log) < 2)%nat ->
     parseNFTMintEvent log = Err (ErrNew "not enough topics for NFT Mint event")
     /\ parseNFTIncreaseLiquidityEvent log
        = Err (ErrNew "not enough topics for NFT IncreaseLiquidity event")
     /\ parseNFTDecreaseLiquidityEvent log
        = Err (ErrNew "not enough topics for NFT DecreaseLiquidity event")
     /\ parseNFTCollectEvent log
        = Err (ErrNew "not enough topics for NFT Collect event"))
  /\ ((2 <= length (Topics log))%nat ->
        (parseNFTMintEvent log = Panic <-> (length (Data log) < 160)%nat)
        /\ (parseNFTIncreaseLiquidityEvent log = Panic <-> (length (Data log) < 96)%nat)
        /\ (parseNFTDecreaseLiquidityEvent log = Panic <-> (length (Data log) < 96)%nat)
        /\ (parseNFTCollectEvent log = Panic <-> (length (Data log) < 64)%nat))
  /\ (is_Ok (parseNFTTransferEvent log) = true <-> (4 <= length (Topics log))%nat)
  /\ parseNFTTransferEvent log <> Panic.
Proof.
  assert (Hw : forall i, (exists w, dataWord (Data log) i = Some w)
                         \/ (dataWord (Data log) i = None
                             /\ (length (Data log) < 32 * i + 32)%nat)).
  { intros i. destruct (Nat.le_gt_cases (32 * i + 32) (length (Data log))) as [H|H].
    - left. destruct (dataWord_spec _ _ H) as (w & Hw & _). eauto.
    - right. split; [by apply dataWord_short|lia]. }
  assert (Hs : forall i w, dataWord (Data log) i = Some w ->
                           (32 * i + 32 <= length (Data log))%nat).
  { intros i w H. unfold dataWord, slice in H.
    destruct (Nat.leb_spec (32 * i + 32) (length (Data log))); [lia|discriminate]. }
  split; [|split; [|split]].
  - intros H. apply Nat.ltb_lt in H.
    unfold parseNFTMintEvent, parseNFTIncreaseLiquidityEvent,
      parseNFTDecreaseLiquidityEvent, parseNFTCollectEvent. by rewrite H.
  - intros H. apply Nat.ltb_ge in H.
    unfold parseNFTMintEvent, parseNFTIncreaseLiquidityEvent,
      parseNFTDecreaseLiquidityEvent, parseNFTCollectEvent. rewrite H.
    destruct (Hw 0%nat) as [[w0 H0]|[H0 L0]], (Hw 1%nat) as [[w1 H1]|[H1 L1]],
      (Hw 2%nat) as [[w2 H2]|[H2 L2]], (Hw 3%nat) as [[w3 H3]|[H3 L3]],
      (Hw 4%nat) as [[w4 H4]|[H4 L4]];
      rewrite ?H0, ?H1, ?H2, ?H3, ?H4;
      try (apply Hs in H0); try (apply Hs in H1); try (apply Hs in H2);
      try (apply Hs in H3); try (apply Hs in H4);
      repeat split; intros; first [discriminate | reflexivity | lia].
  - unfold parseNFTTransferEvent.
    destruct (Nat.ltb_spec (length (Topics log)) 4); simpl; split;
      intros; first [discriminate | lia | reflexivity].
  - unfold parseNFTTransferEvent. by destruct (_ <? _)%nat.
Qed.

Lemma hexDigit_inj (n m : N) :
  (n < 16)%N -> (m < 16)%N -> hexDigit n = hexDigit m -> n = m.
Proof.
  intros Hn Hm H. apply (f_equal N_of_ascii) in H. unfold hexDigit in H.
  destruct (N.ltb_spec n 10), (N.ltb_spec m 10);
    rewrite !N_ascii_embedding in H by lia; lia.
Qed.

Lemma byte_of_nibbles (x y : byte) :
  (Byte.to_N x / 16 = Byte.to_N y / 16)%N ->
  (Byte.to_N x mod 16 = Byte.to_N y mod 16)%N -> x = y.
Proof.
  intros Hh Hl.
  assert (H : Byte.to_N x = Byte.to_N y).
  { rewrite (N.div_mod (Byte.to_N x) 16), (N.div_mod (Byte.to_N y) 16) by lia.
    by rewrite Hh, Hl. }
  pose proof (Byte.of_to_N x) as Hx. rewrite H, Byte.of_to_N in Hx. congruence.
Qed.

Lemma hexOfBytes_inj (a b : list byte) : hexOfBytes a = hexOfBytes b -> a = b.
Proof.
  revert b. induction a as [|x a IH]; intros [|y b]; simpl; try discriminate.
  - reflexivity.
  - intros [= Hh Hl Ht].
    pose proof (Byte.to_N_bounded x). pose proof (Byte.to_N_bounded y).
    f_equal; [|by apply IH].
    apply byte_of_nibbles; apply hexDigit_inj; try assumption.
    + apply N.Div0.div_lt_upper_bound. lia.
    + apply N.Div0.div_lt_upper_bound. lia.
    + apply N.mod_lt. lia.
    + apply N.mod_lt. lia.
Qed.

(** Different addresses have different names in the ledger. *)
Lemma lowerHex_inj (a b : list byte) : lowerHex a = lowerHex b -> a = b.
Proof. unfold lowerHex. intros [= H]. by apply hexOfBytes_inj. Qed.

(** X3. Round trip of the transfer event, which is read from the topics
    alone. *)
Theorem parseNFTTransferEvent_roundtrip (signature from to : list byte)
    (tokenId : Z) (topics : list (list byte)) (data : list byte) :
  length from = AddressLength -> length to = AddressLength ->
  0 <= tokenId < 2 ^ 256 ->
  parseNFTTransferEvent
    {| Topics := signature :: abiAddress from :: abiAddress to
                 :: abiWord tokenId :: topics;
       Data := data |}
  = Ok (NFTTransferEvent.mk (Z.to_N (tokenId mod 2 ^ 64))
          (lowerHex from) (lowerHex to)).
Proof.
  intros Hf Ht Hid. unfold parseNFTTransferEvent, topicTokenID, Uint64.
  cbn [Topics length nth Nat.ltb Nat.leb].
  rewrite !BytesToAddress_abiAddress, SetBytes_abiWord by assumption.
  reflexivity.
Qed.

Lemma parseNFTTransferEvent_roundtrip_witness :
  parseNFTTransferEvent
    {| Topics := [abiWord 7; abiAddress (replicate 20 "171"%byte);
                  abiAddress (replicate 20 "001"%byte); abiWord 1];
       Data := [] |}
  = Ok (NFTTransferEvent.mk 1%N (lowerHex (replicate 20 "171"%byte))
          (lowerHex (replicate 20 "001"%byte))).
Proof.
  apply (parseNFTTransferEvent_roundtrip (abiWord 7) (replicate 20 "171"%byte)
           (replicate 20 "001"%byte) 1 [] []); first [reflexivity | lia].
Defined.

(** X5. A transfer log is skipped exactly when the sender or the receiver is
    the address of 20 zero bytes (the mint or the burn of the token
    itself); every other transfer log with four topics reaches
    [HandleTransfer]. *)
Theorem processTransferLog_skips_zero_address (nps : NFTPositionSimulator)
    (log : Log) :
  (4 <= length (Topics log))%nat ->
  let from := BytesToAddress (nth 1 (Topics log) []) in
  let to := BytesToAddress (nth 2 (Topics log) []) in
  let zero := replicate AddressLength "000"%byte in
  (from = zero \/ to = zero -> processTransferLog nps log = (nps, Ok tt))
  /\ (from <> zero -> to <> zero ->
        processTransferLog nps log
        = (setLedger nps
             (fst (HandleTransfer (tokenPositionManager nps) (topicTokenID log 3)
                     (lowerHex from) (lowerHex to))),
           wrap "failed to handle transfer"
             (snd (HandleTransfer (tokenPositionManager nps) (topicTokenID log 3)
                     (lowerHex from) (lowerHex to))))).
Proof.
  intros H from to zero. apply Nat.ltb_ge in H.
  unfold processTransferLog, parseNFTTransferEvent. rewrite H.
  unfold processTransferEvent. cbn [NFTTransferEvent.From NFTTransferEvent.To
    NFTTransferEvent.TokenID]. fold from to.
  assert (Hz : zeroAddress = lowerHex zero) by reflexivity.
  split.
  - intros [Hf|Ht].
    + rewrite Hf, <- Hz, String.eqb_refl. reflexivity.
    + rewrite Ht, <- Hz, String.eqb_refl, orb_true_r. reflexivity.
  - intros Hf Ht.
    assert (E1 : String.eqb (lowerHex from) zeroAddress = false).
    { apply String.eqb_neq. rewrite Hz. intros E. by apply lowerHex_inj in E. }
    assert (E2 : String.eqb (lowerHex to) zeroAddress = false).
    { apply String.eqb_neq. rewrite Hz. intros E. by apply lowerHex_inj in E. }
    rewrite E1, E2. cbn [orb].
    by destruct (HandleTransfer _ _ _ _).
Qed.

Lemma processTransferLog_skips_zero_address_witness :
  processTransferLog sampleSimulator
    {| Topics := [abiWord 7; abiAddress (replicate 20 "000"%byte);
                  abiAddress (replicate 20 "001"%byte); abiWord 1];
       Data := [] |}
  = (sampleSimulator, Ok tt).
Proof.
  apply (processTransferLog_skips_zero_address sampleSimulator
           {| Topics := [abiWord 7; abiAddress (replicate 20 "000"%byte);
                         abiAddress (replicate 20 "001"%byte); abiWord 1];
              Data := [] |}).
  - simpl. lia.
  - left. reflexivity.
Defined.

Section DecreaseLogs.

Variable LiquidityAddDelta : Q -> Q -> result Q.
Variable GetFeeGrowthInside :
  TickManager -> Z -> Z -> Z -> Q -> Q -> result (Q * Q).
Variable addressHex : string -> string.

Lemma processDecreaseLiquidityEvent_nonneg (nps : NFTPositionSimulator)
    (event : NFTDecreaseLiquidityEvent.t) :
  (0 <= NFTDecreaseLiquidityEvent.Liquidity event)%Q ->
  fst (processDecreaseLiquidityEvent LiquidityAddDelta GetFeeGrowthInside
         addressHex nps event) = nps
  /\ is_Ok (snd (processDecreaseLiquidityEvent LiquidityAddDelta
                   GetFeeGrowthInside addressHex nps event)) = false.
Proof.
  intros Hl. unfold processDecreaseLiquidityEvent, GetPosition.
  destruct (Positions (tokenPositionManager nps) !! _) as [p|] eqn:H; [|by simpl].
  destruct (snapshot _ _ _ _ _ _) as [[f0 f1]| |]; [|by simpl..].
  rewrite (HandleDecreaseLiquidity_existing _ _ _ _ _ _ _ _ _ H).
  assert (Hd : DecreaseLiquidity LiquidityAddDelta p
                 (Decimal.Neg (Decimal.Neg (NFTDecreaseLiquidityEvent.Liquidity event)))
                 f0 f1 (NFTDecreaseLiquidityEvent.Amount0 event)
                 (NFTDecreaseLiquidityEvent.Amount1 event)
               = (p, Err (ErrNew "liquidity delta must be negative"))).
  { apply Qle_lteq in Hl as [Hpos|Hzero].
    - apply DecreaseLiquidity_positive. unfold Decimal.Neg. lra.
    - apply DecreaseLiquidity_zero. unfold Decimal.Neg. lra. }
  rewrite Hd. simpl. rewrite storePosition_same by exact H.
  rewrite setLedger_same. by split.
Qed.

(** X6. No DecreaseLiquidity log is ever applied: whatever the log and the
    state, the handler returns an error or panics and leaves the
    simulator as it was. The liquidity of a decoded event is an unsigned
    integer, and a liquidity that is not negative is refused. *)
Theorem processDecreaseLiquidityLog_never_applies (nps : NFTPositionSimulator)
    (log : Log) :
  fst (processDecreaseLiquidityLog LiquidityAddDelta GetFeeGrowthInside
         addressHex nps log) = nps
  /\ is_Ok (snd (processDecreaseLiquidityLog LiquidityAddDelta
                   GetFeeGrowthInside addressHex nps log)) = false.
Proof.
  unfold processDecreaseLiquidityLog.
  destruct (parseNFTDecreaseLiquidityEvent log) as [event| |] eqn:E; [|by simpl..].
  apply processDecreaseLiquidityEvent_nonneg.
  unfold parseNFTDecreaseLiquidityEvent in E.
  destruct (_ <? _)%nat; [discriminate|].
  destruct (dataWord (Data log) 0) as [w0|] eqn:E0; [|discriminate].
  destruct (dataWord (Data log) 1) as [w1|]; [|discriminate].
  destruct (dataWord (Data log) 2) as [w2|]; [|discriminate].
  injection E as <-. cbn [NFTDecreaseLiquidityEvent.Liquidity].
  unfold Decimal.NewFromBigInt. apply Qnum_nonneg. simpl.
  apply (dataWord_bounds _ _ _ E0).
Qed.

End DecreaseLogs.

(* ===================================================================== *)
(** ** The ledger: what every sequence of operations keeps *)
(* ===================================================================== *)

Lemma divQ128RoundDown_zero (x : Q) : Qnum x = 0%Z -> divQ128RoundDown x = 0%Q.
Proof. destruct x as [n d]. simpl. intros ->. reflexivity. Qed.

(** A position without liquidity earns no fees. *)
Lemma feesEarned_no_liquidity (fgi last : Q) : feesEarned fgi last 0%Q = 0%Q.
Proof.
  unfold feesEarned. apply divQ128RoundDown_zero.
  unfold Decimal.Mul. simpl. apply Z.mul_0_r.
Qed.

Lemma wellIndexed_sampleLedger : wellIndexed sampleLedger.
Proof.
  change sampleLedger
    with (storePosition
            (fst (CreatePosition NewTokenPositionManager 1%N "0xalice" "0xpool"
                    (-60) 60)) 1%N samplePosition).
  apply storePosition_wellIndexed
    with (p := NewTokenPosition 1%N "0xalice" "0xpool" (-60) 60).
  - reflexivity.
  - by unfold sameIdentity.
  - apply CreatePosition_wellIndexed; [reflexivity|apply wellIndexed_new].
Qed.

Section LedgerSequences.

Variable LiquidityAddDelta : Q -> Q -> result Q.

Lemma IncreaseLiquidity_failed (p : TokenPosition) (d f0 f1 : Q) :
  is_Ok (snd (IncreaseLiquidity LiquidityAddDelta p d f0 f1)) = false ->
  fst (IncreaseLiquidity LiquidityAddDelta p d f0 f1) = p.
Proof.
  unfold IncreaseLiquidity. destruct (_ || _); [done|].
  destruct (LiquidityAddDelta _ _); [|done..].
  destruct (_ || _); simpl; discriminate.
Qed.

Lemma DecreaseLiquidity_failed (p : TokenPosition) (d f0 f1 a0 a1 : Q) :
  is_Ok (snd (DecreaseLiquidity LiquidityAddDelta p d f0 f1 a0 a1)) = false ->
  fst (DecreaseLiquidity LiquidityAddDelta p d f0 f1 a0 a1) = p.
Proof.
  unfold DecreaseLiquidity. destruct (_ || _); [done|].
  destruct (Decimal.LessThan _ _); [done|].
  destruct (LiquidityAddDelta _ _); [|done..].
  simpl. discriminate.
Qed.

Lemma DecreaseLiquidity_identity (p : TokenPosition) (d f0 f1 a0 a1 : Q) :
  sameIdentity p (fst (DecreaseLiquidity LiquidityAddDelta p d f0 f1 a0 a1)).
Proof.
  unfold DecreaseLiquidity, sameIdentity.
  destruct (_ || _); [by simpl|].
  destruct (Decimal.LessThan _ _); [by simpl|].
  destruct (LiquidityAddDelta _ _); by simpl.
Qed.

Lemma applyOp_keeps (tpm : TokenPositionManager) (op : LedgerOp) (tokenID : N)
    (p : TokenPosition) :
  Positions tpm !! tokenID = Some p ->
  exists p',
    Positions (applyOp LiquidityAddDelta tpm op) !! tokenID = Some p'
    /\ sameRange p p'
    /\ (isTransferOf tokenID op = false -> Owner p' = Owner p).
Proof.
  intros H. destruct (decide (opToken op = tokenID)) as [E|E].
  - destruct op; simpl in E; subst tokenID0; cbn [applyOp isTransferOf].
    + rewrite (HandleMint_existing _ _ _ _ _ _ _ _ _ _ _ H). simpl.
      rewrite lookup_insert_eq. eexists. split; [done|].
      destruct (IncreaseLiquidity_identity LiquidityAddDelta p amount
                  feeGrowthInside0X128 feeGrowthInside1X128)
        as (? & ? & ? & ? & ?).
      by unfold sameRange.
    + rewrite (HandleIncreaseLiquidity_existing _ _ _ _ _ _ _ H). simpl.
      rewrite lookup_insert_eq. eexists. split; [done|].
      destruct (IncreaseLiquidity_identity LiquidityAddDelta p amount
                  feeGrowthInside0X128 feeGrowthInside1X128)
        as (? & ? & ? & ? & ?).
      by unfold sameRange.
    + rewrite (HandleDecreaseLiquidity_existing _ _ _ _ _ _ _ _ _ H). simpl.
      rewrite lookup_insert_eq. eexists. split; [done|].
      destruct (DecreaseLiquidity_identity p (Decimal.Neg liquidityDelta)
                  feeGrowthInside0X128 feeGrowthInside1X128 amount0 amount1)
        as (? & ? & ? & ? & ?).
      by unfold sameRange.
    + unfold HandleCollect. rewrite H. simpl. rewrite lookup_insert_eq.
      eexists. split; [done|]. by unfold sameRange.
    + rewrite (HandleTransfer_positions _ _ _ _ _ H), lookup_insert_eq.
      eexists. split; [done|]. split; [by unfold sameRange|].
      rewrite N.eqb_refl. discriminate.
  - rewrite applyOp_other by done. exists p. split; [done|].
    split; [by unfold sameRange|done].
Qed.

Lemma applyOp_absent (tpm : TokenPositionManager) (op : LedgerOp) (tokenID : N) :
  Positions tpm !! tokenID = None -> isMintOf tokenID op = false ->
  Positions (applyOp LiquidityAddDelta tpm op) !! tokenID = None.
Proof.
  intros H Hm. destruct (decide (opToken op = tokenID)) as [E|E].
  - destruct op; simpl in E; subst tokenID0; cbn [applyOp isMintOf] in *.
    + by rewrite N.eqb_refl in Hm.
    + unfold HandleIncreaseLiquidity. by rewrite H.
    + unfold HandleDecreaseLiquidity. by rewrite H.
    + unfold HandleCollect. by rewrite H.
    + unfold HandleTransfer. by rewrite H.
  - by rewrite applyOp_other.
Qed.

(** X7. The ledger never removes a position and never rewrites its token
    id, pool or tick range: whatever operations follow, with or without
    errors, a token that has a position keeps one with the same id, pool
    and range; its owner changes only by a transfer of that token. *)
Theorem positions_are_never_removed (ops : list LedgerOp)
    (tpm : TokenPositionManager) (tokenID : N) (p : TokenPosition) :
  Positions tpm !! tokenID = Some p ->
  exists p',
    Positions (applyOps LiquidityAddDelta tpm ops) !! tokenID = Some p'
    /\ sameRange p p'
    /\ (Forall (fun op => isTransferOf tokenID op = false) ops ->
        Owner p' = Owner p).
Proof.
  revert tpm p. induction ops as [|op ops IH]; intros tpm p H.
  - exists p. split; [done|]. split; [by unfold sameRange|done].
  - destruct (applyOp_keeps tpm op tokenID p H) as (p1 & H1 & (R1 & R2 & R3 & R4) & O1).
    destruct (IH _ _ H1) as (p' & H' & (S1 & S2 & S3 & S4) & O').
    exists p'. split; [exact H'|]. split.
    + unfold sameRange. repeat split; congruence.
    + intros HF. apply Forall_cons in HF as [Hop HF].
      rewrite (O' HF). by apply O1.
Qed.

(** X8. Only a mint creates a position: a token without a position has
    none after any sequence of operations that holds no mint of it. *)
Theorem positions_are_created_by_mint_only (ops : list LedgerOp)
    (tpm : TokenPositionManager) (tokenID : N) :
  Positions tpm !! tokenID = None ->
  Forall (fun op => isMintOf tokenID op = false) ops ->
  Positions (applyOps LiquidityAddDelta tpm ops) !! tokenID = None.
Proof.
  revert tpm. induction ops as [|op ops IH]; intros tpm H HF; [done|].
  apply Forall_cons in HF as [Hop HF]. simpl.
  apply IH; [|exact HF]. by apply applyOp_absent.
Qed.

(** X9. The mint of a new token, when the liquidity sum is defined,
    stores a position with the identity of the call, the summed
    liquidity, the snapshots of the call and nothing owed, and appends
    the token to the lists of its owner and of its pool. *)
Theorem HandleMint_new_position (tpm : TokenPositionManager) (tokenID : N)
    (owner pool : string) (tickLower tickUpper : Z) (amount fgi0 fgi1 l : Q) :
  Positions tpm !! tokenID = None ->
  (0 < amount)%Q ->
  LiquidityAddDelta Decimal.ZERO amount = Ok l ->
  HandleMint LiquidityAddDelta tpm tokenID owner pool tickLower tickUpper
    amount fgi0 fgi1
  = ({| Positions :=
          <[tokenID := {| TokenID := tokenID; Owner := owner; Pool := pool;
                          TickLower := tickLower; TickUpper := tickUpper;
                          Liquidity := l;
                          FeeGrowthInside0LastX128 := fgi0;
                          FeeGrowthInside1LastX128 := fgi1;
                          TokensOwed0 := Decimal.ZERO;
                          TokensOwed1 := Decimal.ZERO |}]> (Positions tpm);
        OwnerTokens :=
          <[owner := tokensAt (OwnerTokens tpm) owner ++ [tokenID]]>
            (OwnerTokens tpm);
        PoolTokens :=
          <[pool := tokensAt (PoolTokens tpm) pool ++ [tokenID]]>
            (PoolTokens tpm) |},
     Ok tt).
Proof.
  intros H Hpos Hl. unfold HandleMint, CreatePosition. rewrite H.
  unfold IncreaseLiquidity, NewTokenPosition.
  cbn [Liquidity FeeGrowthInside0LastX128 FeeGrowthInside1LastX128].
  assert (Hz : Decimal.IsZero amount = false).
  { destruct (Decimal.IsZero amount) eqn:E; [|done].
    apply IsZero_spec in E. lra. }
  assert (Hn : Decimal.IsNegative amount = false).
  { destruct (Decimal.IsNegative amount) eqn:E; [|done].
    apply IsNegative_spec in E. lra. }
  rewrite Hz, Hn. cbn [orb]. unfold Decimal.ZERO in *. rewrite Hl.
  rewrite !feesEarned_no_liquidity.
  change (Decimal.GreaterThan 0 0) with false. cbn [orb].
  unfold storePosition, storeOwnerTokens, storePoolTokens, setLiquidityAndSnapshots.
  cbn [Positions OwnerTokens PoolTokens TokenID Owner Pool TickLower TickUpper
       TokensOwed0 TokensOwed1].
  by rewrite insert_insert_eq.
Qed.

(** X10. The mint of a new token is not atomic: when the liquidity update
    fails (an amount that is not positive, or a liquidity sum that is
    refused), the call returns the error with the empty position
    created, stored under the token and listed for its owner and its
    pool. *)
Theorem HandleMint_failure_leaves_empty_position (tpm : TokenPositionManager)
    (tokenID : N) (owner pool : string) (tickLower tickUpper : Z)
    (amount fgi0 fgi1 : Q) :
  Positions tpm !! tokenID = None ->
  is_Ok (snd (HandleMint LiquidityAddDelta tpm tokenID owner pool
                tickLower tickUpper amount fgi0 fgi1)) = false ->
  let tpm' := fst (HandleMint LiquidityAddDelta tpm tokenID owner pool
                     tickLower tickUpper amount fgi0 fgi1) in
  let created := NewTokenPosition tokenID owner pool tickLower tickUpper in
  tpm' = fst (CreatePosition tpm tokenID owner pool tickLower tickUpper)
  /\ Positions tpm' !! tokenID = Some created
  /\ IsEmpty created = true
  /\ tokenID ∈ tokensAt (OwnerTokens tpm') owner
  /\ tokenID ∈ tokensAt (PoolTokens tpm') pool.
Proof.
  intros H. unfold HandleMint. rewrite H.
  destruct (CreatePosition tpm tokenID owner pool tickLower tickUpper)
    as [tpm1 position] eqn:Ec.
  unfold CreatePosition in Ec. injection Ec as <- <-.
  pose proof (IncreaseLiquidity_failed
                (NewTokenPosition tokenID owner pool tickLower tickUpper)
                amount fgi0 fgi1) as Hf.
  destruct (IncreaseLiquidity _ _ _ _ _) as [position' r]. simpl in Hf.
  cbn [snd fst]. intros Hr. rewrite (Hf Hr).
  rewrite storePosition_same
    by (cbn [Positions storePoolTokens storeOwnerTokens storePosition];
        apply lookup_insert_eq).
  cbn zeta. split; [reflexivity|].
  cbn [Positions OwnerTokens PoolTokens storePoolTokens storeOwnerTokens storePosition].
  split; [apply lookup_insert_eq|]. split; [reflexivity|].
  rewrite !tokensAt_insert, !decide_True by done.
  split; apply elem_of_app; right; by left.
Qed.

(** X11. A liquidity update of an existing or of a missing token is atomic:
    whenever [HandleIncreaseLiquidity] or [HandleDecreaseLiquidity] does
    not return normally, the ledger is as it was before the call. *)
Theorem failed_liquidity_update_changes_nothing (tpm : TokenPositionManager)
    (tokenID : N) (d fgi0 fgi1 amount0 amount1 : Q) :
  (is_Ok (snd (HandleIncreaseLiquidity LiquidityAddDelta tpm tokenID d fgi0 fgi1))
   = false ->
   fst (HandleIncreaseLiquidity LiquidityAddDelta tpm tokenID d fgi0 fgi1) = tpm)
  /\ (is_Ok (snd (HandleDecreaseLiquidity LiquidityAddDelta tpm tokenID d
                    fgi0 fgi1 amount0 amount1)) = false ->
      fst (HandleDecreaseLiquidity LiquidityAddDelta tpm tokenID d
             fgi0 fgi1 amount0 amount1) = tpm).
Proof.
  split.
  - destruct (Positions tpm !! tokenID) as [p|] eqn:E.
    + rewrite (HandleIncreaseLiquidity_existing _ _ _ _ _ _ _ E). cbn [fst snd].
      intros Hr. rewrite (IncreaseLiquidity_failed _ _ _ _ Hr).
      by apply storePosition_same.
    + unfold HandleIncreaseLiquidity. by rewrite E.
  - destruct (Positions tpm !! tokenID) as [p|] eqn:E.
    + rewrite (HandleDecreaseLiquidity_existing _ _ _ _ _ _ _ _ _ E). cbn [fst snd].
      intros Hr. rewrite (DecreaseLiquidity_failed _ _ _ _ _ _ Hr).
      by apply storePosition_same.
    + unfold HandleDecreaseLiquidity. by rewrite E.
Qed.

(** X15. Called with the amount to take out, [HandleDecreaseLiquidity]
    refuses an amount above the liquidity of the position with the
    underflow error and leaves the ledger as it was; for an amount the
    position holds, and when the liquidity sum is defined, it stores the
    new liquidity and the snapshots of the call and credits the fees
    earned since the last snapshot and the two amounts. *)
Theorem HandleDecreaseLiquidity_by_amount (tpm : TokenPositionManager)
    (tokenID : N) (p : TokenPosition) (l fgi0 fgi1 amount0 amount1 : Q) :
  Positions tpm !! tokenID = Some p ->
  (0 < l)%Q ->
  ((Liquidity p < l)%Q ->
   HandleDecreaseLiquidity LiquidityAddDelta tpm tokenID l fgi0 fgi1 amount0 amount1
   = (tpm, Err (ErrNew "liquidity underflow")))
  /\ (forall liquidityNext,
        (l <= Liquidity p)%Q ->
        LiquidityAddDelta (Liquidity p) (Decimal.Neg l) = Ok liquidityNext ->
        HandleDecreaseLiquidity LiquidityAddDelta tpm tokenID l fgi0 fgi1
          amount0 amount1
        = (storePosition tpm tokenID
             {| TokenID := TokenID p; Owner := Owner p; Pool := Pool p;
                TickLower := TickLower p; TickUpper := TickUpper p;
                Liquidity := liquidityNext;
                FeeGrowthInside0LastX128 := fgi0;
                FeeGrowthInside1LastX128 := fgi1;
                TokensOwed0 :=
                  Decimal.Add
                    (Decimal.Add (TokensOwed0 p)
                       (feesEarned fgi0 (FeeGrowthInside0LastX128 p) (Liquidity p)))
                    amount0;
                TokensOwed1 :=
                  Decimal.Add
                    (Decimal.Add (TokensOwed1 p)
                       (feesEarned fgi1 (FeeGrowthInside1LastX128 p) (Liquidity p)))
                    amount1 |},
           Ok tt)).
Proof.
  intros H Hpos.
  rewrite (HandleDecreaseLiquidity_existing _ _ _ _ _ _ _ _ _ H).
  unfold DecreaseLiquidity.
  assert (Hz : Decimal.IsZero (Decimal.Neg l) = false).
  { destruct (Decimal.IsZero (Decimal.Neg l)) eqn:E; [|done].
    apply IsZero_spec in E. unfold Decimal.Neg in E. lra. }
  assert (Hp : Decimal.IsPositive (Decimal.Neg l) = false).
  { destruct (Decimal.IsPositive (Decimal.Neg l)) eqn:E; [|done].
    apply IsPositive_spec in E. unfold Decimal.Neg in E. lra. }
  assert (Habs : (Decimal.Abs (Decimal.Neg l) == l)%Q).
  { unfold Decimal.Abs, Decimal.Neg. rewrite Qabs_opp. apply Qabs_pos. lra. }
  rewrite Hz, Hp. cbn [orb]. split.
  - intros Hlt.
    assert (Hu : Decimal.LessThan (Liquidity p) (Decimal.Abs (Decimal.Neg l)) = true).
    { apply LessThan_spec. rewrite Habs. exact Hlt. }
    rewrite Hu. cbn [fst snd]. by rewrite storePosition_same.
  - intros liquidityNext Hle Hl.
    assert (Hu : Decimal.LessThan (Liquidity p) (Decimal.Abs (Decimal.Neg l)) = false).
    { destruct (Decimal.LessThan _ _) eqn:E; [|done].
      apply LessThan_spec in E. rewrite Habs in E. lra. }
    rewrite Hu, Hl. reflexivity.
Qed.

(** X12. From a well-indexed ledger, every sequence of operations in which
    no transfer is refused for its sender leads to a well-indexed
    ledger: both indices are inverse to the position map and no owner
    list names a token twice. *)
Theorem unrefused_operations_keep_wellIndexed (ops : list LedgerOp)
    (tpm : TokenPositionManager) :
  wellIndexed tpm -> unrefused LiquidityAddDelta tpm ops ->
  wellIndexed (applyOps LiquidityAddDelta tpm ops).
Proof.
  revert tpm. induction ops as [|op ops IH]; intros tpm Hw Hu; [exact Hw|].
  destruct Hu as [Hop Hu]. simpl. apply IH; [|exact Hu].
  by apply applyOp_wellIndexed.
Qed.

End LedgerSequences.

Lemma HandleMint_new_position_witness :
  snd (HandleMint addDelta NewTokenPositionManager 7%N "0xalice" "0xpool"
         (-60) 60 (inject_Z 1000) (inject_Z 3) (inject_Z 4)) = Ok tt.
Proof.
  rewrite (HandleMint_new_position addDelta NewTokenPositionManager 7%N "0xalice" "0xpool"
             (-60) 60 (inject_Z 1000) (inject_Z 3) (inject_Z 4)
             (Decimal.Add Decimal.ZERO (inject_Z 1000)));
    [reflexivity|reflexivity|reflexivity|reflexivity].
Defined.

Lemma HandleMint_failure_leaves_empty_position_witness :
  snd (HandleMint addDelta NewTokenPositionManager 7%N "0xalice" "0xpool"
         (-60) 60 0%Q 0%Q 0%Q)
  = Err (ErrNew "liquidity delta must be positive")
  /\ Positions (fst (HandleMint addDelta NewTokenPositionManager 7%N "0xalice"
                       "0xpool" (-60) 60 0%Q 0%Q 0%Q)) !! 7%N
     = Some (NewTokenPosition 7%N "0xalice" "0xpool" (-60) 60).
Proof.
  split; [reflexivity|].
  apply (HandleMint_failure_leaves_empty_position addDelta NewTokenPositionManager 7%N
           "0xalice" "0xpool" (-60) 60 0%Q 0%Q 0%Q); reflexivity.
Defined.

Lemma HandleDecreaseLiquidity_by_amount_witness :
  snd (HandleDecreaseLiquidity addDelta sampleLedger 1%N (inject_Z 40)
         (inject_Z 12) (inject_Z 2) (inject_Z 7) (inject_Z 9)) = Ok tt
  /\ HandleDecreaseLiquidity addDelta sampleLedger 1%N (inject_Z (2 ^ 127 + 1))
       (inject_Z 12) (inject_Z 2) (inject_Z 7) (inject_Z 9)
     = (sampleLedger, Err (ErrNew "liquidity underflow")).
Proof.
  destruct (HandleDecreaseLiquidity_by_amount addDelta sampleLedger 1%N
              samplePosition (inject_Z 40) (inject_Z 12) (inject_Z 2)
              (inject_Z 7) (inject_Z 9) eq_refl eq_refl) as [_ Hok].
  destruct (HandleDecreaseLiquidity_by_amount addDelta sampleLedger 1%N
              samplePosition (inject_Z (2 ^ 127 + 1)) (inject_Z 12) (inject_Z 2)
              (inject_Z 7) (inject_Z 9) eq_refl eq_refl) as [Hunder _].
  split.
  - rewrite (Hok (Decimal.Add (Liquidity samplePosition) (Decimal.Neg (inject_Z 40))));
      [reflexivity|discriminate|reflexivity].
  - apply Hunder. reflexivity.
Defined.

Lemma positions_are_never_removed_witness :
  exists p',
    Positions (applyOps addDelta sampleLedger
                 [OpCollect 1%N (inject_Z 30) (inject_Z 500);
                  OpTransfer 1%N "0xalice" "0xbob";
                  OpDecreaseLiquidity 1%N (inject_Z 5) 0%Q 0%Q 0%Q 0%Q]) !! 1%N
    = Some p'
    /\ sameRange samplePosition p'.
Proof.
  destruct (positions_are_never_removed addDelta
              [OpCollect 1%N (inject_Z 30) (inject_Z 500);
               OpTransfer 1%N "0xalice" "0xbob";
               OpDecreaseLiquidity 1%N (inject_Z 5) 0%Q 0%Q 0%Q 0%Q]
              sampleLedger 1%N samplePosition eq_refl) as (p' & H & R & _).
  exists p'. by split.
Defined.

Lemma positions_are_created_by_mint_only_witness :
  Positions (applyOps addDelta sampleLedger
               [OpIncreaseLiquidity 2%N (inject_Z 30) 0%Q 0%Q;
                OpTransfer 2%N "0xalice" "0xbob";
                OpMint 1%N "0xalice" "0xpool" (-60) 60 (inject_Z 5) 0%Q 0%Q])
    !! 2%N = None.
Proof.
  apply (positions_are_created_by_mint_only addDelta); [reflexivity|].
  repeat constructor.
Defined.

Lemma unrefused_operations_keep_wellIndexed_witness :
  wellIndexed
    (applyOps addDelta NewTokenPositionManager
       [OpMint 1%N "0xalice" "0xpool" (-60) 60 (inject_Z 1000) 0%Q 0%Q;
        OpMint 2%N "0xalice" "0xpool" 0 120 (inject_Z 10) 0%Q 0%Q;
        OpTransfer 1%N "0xalice" "0xbob"]).
Proof.
  apply unrefused_operations_keep_wellIndexed; [apply wellIndexed_new|].
  cbn [unrefused refused]. split; [tauto|]. split; [tauto|]. split; [|exact I].
  intros (p & Hp & Hne). vm_compute in Hp. injection Hp as <-.
  by apply Hne.
Defined.

(** X13. On a well-indexed ledger, the transfer of a token from its owner to
    another address succeeds, rewrites the owner of the position, takes
    the token out of the list of the sender (whose other tokens stay,
    possibly in another order), appends it to the list of the receiver,
    and leaves the lists of every other owner and the pool index as they
    were. *)
Theorem HandleTransfer_moves_token (tpm : TokenPositionManager) (tokenID : N)
    (p : TokenPosition) (to : string) :
  wellIndexed tpm ->
  Positions tpm !! tokenID = Some p ->
  to <> Owner p ->
  let tpm' := fst (HandleTransfer tpm tokenID (Owner p) to) in
  snd (HandleTransfer tpm tokenID (Owner p) to) = Ok tt
  /\ Positions tpm' = <[tokenID := setOwner p to]> (Positions tpm)
  /\ (forall x, x ∈ tokensAt (OwnerTokens tpm') (Owner p)
                <-> x ∈ tokensAt (OwnerTokens tpm) (Owner p) /\ x <> tokenID)
  /\ tokensAt (OwnerTokens tpm') to = tokensAt (OwnerTokens tpm) to ++ [tokenID]
  /\ (forall a, a <> Owner p -> a <> to ->
        tokensAt (OwnerTokens tpm') a = tokensAt (OwnerTokens tpm) a)
  /\ PoolTokens tpm' = PoolTokens tpm.
Proof.
  intros [Hinv Hnd] H Hto. unfold HandleTransfer. rewrite H.
  rewrite String.eqb_refl. cbn [negb].
  unfold storeOwnerTokens, storePosition.
  cbn [OwnerTokens PoolTokens Positions].
  set (l := tokensAt (OwnerTokens tpm) (Owner p)).
  assert (Hin : tokenID ∈ l) by (apply (Hinv tokenID (Owner p)); eauto).
  destruct (indexOf tokenID l) as [i|] eqn:Ei;
    [|by apply indexOf_None in Ei].
  destruct (swapRemove_found tokenID l i (Hnd (Owner p)) Ei) as [_ Hr].
  cbn [fst snd OwnerTokens PoolTokens Positions].
  split; [reflexivity|]. split; [reflexivity|].
  split; [|split; [|split]].
  - intros x. rewrite !tokensAt_insert.
    repeat case_decide; try congruence. apply Hr.
  - rewrite !tokensAt_insert. repeat case_decide; congruence.
  - intros a Ha Hb. rewrite !tokensAt_insert.
    repeat case_decide; congruence.
  - reflexivity.
Qed.

Lemma HandleTransfer_moves_token_witness :
  snd (HandleTransfer sampleLedger 1%N "0xalice" "0xbob") = Ok tt
  /\ tokensAt (OwnerTokens (fst (HandleTransfer sampleLedger 1%N "0xalice" "0xbob")))
       "0xbob" = [1%N].
Proof.
  destruct (HandleTransfer_moves_token sampleLedger 1%N samplePosition "0xbob"
              wellIndexed_sampleLedger eq_refl) as (Hr & _ & _ & Hto & _).
  - discriminate.
  - split; [exact Hr|exact Hto].
Defined.

Lemma length_omap_lookup (ps : gmap N TokenPosition) (l : list N) :
  (forall x, x ∈ l -> is_Some (ps !! x)) ->
  length (omap (fun tokenID => ps !! tokenID) l) = length l.
Proof.
  induction l as [|x l IH]; intros H; [done|]. simpl.
  destruct (H x) as [q Hq]; [by left|]. rewrite Hq. simpl. f_equal.
  apply IH. intros y Hy. apply H. by right.
Qed.

(** X14. On a well-indexed ledger the two queries are exact: the positions
    returned for an owner (a pool) are the stored positions of that
    owner (that pool), and every token listed for an owner yields a
    position. *)
Theorem queries_return_the_positions (tpm : TokenPositionManager) :
  wellIndexed tpm ->
  (forall owner p,
     p ∈ GetPositionsByOwner tpm owner
     <-> exists tokenID, Positions tpm !! tokenID = Some p /\ Owner p = owner)
  /\ (forall pool p,
        p ∈ GetPositionsByPool tpm pool
        <-> exists tokenID, Positions tpm !! tokenID = Some p /\ Pool p = pool)
  /\ (forall owner,
        length (GetPositionsByOwner tpm owner)
        = length (tokensAt (OwnerTokens tpm) owner)).
Proof.
  intros [Hinv _]. unfold GetPositionsByOwner, GetPositionsByPool.
  split; [|split].
  - intros owner p. rewrite list_elem_of_omap. split.
    + intros (tokenID & Hin & Hp). exists tokenID. split; [done|].
      apply (Hinv tokenID owner) in Hin as (q & Hq & Hqo). congruence.
    + intros (tokenID & Hp & Ho). exists tokenID. split; [|done].
      apply (Hinv tokenID owner). eauto.
  - intros pool p. rewrite list_elem_of_omap. split.
    + intros (tokenID & Hin & Hp). exists tokenID. split; [done|].
      apply (Hinv tokenID pool) in Hin as (q & Hq & Hqo). congruence.
    + intros (tokenID & Hp & Ho). exists tokenID. split; [|done].
      apply (Hinv tokenID pool). eauto.
  - intros owner. apply length_omap_lookup. intros x Hx.
    apply (Hinv x owner) in Hx as (q & Hq & _). eauto.
Qed.

Lemma queries_return_the_positions_witness :
  samplePosition ∈ GetPositionsByOwner sampleLedger "0xalice"
  /\ length (GetPositionsByOwner sampleLedger "0xbob") = 0%nat.
Proof.
  destruct (queries_return_the_positions sampleLedger wellIndexed_sampleLedger)
    as (Ho & _ & Hl).
  split.
  - apply Ho. exists 1%N. by split.
  - rewrite Hl. reflexivity.
Defined.

(* ===================================================================== *)
(** ** The swap engine: guards, frame and the second variant *)
(* ===================================================================== *)

Lemma LessThan_false (a b : Q) : Decimal.LessThan a b = false <-> (b <= a)%Q.
Proof.
  destruct (Decimal.LessThan a b) eqn:E.
  - apply LessThan_spec in E. split; [discriminate|]. intros H. lra.
  - split; [|reflexivity]. intros _.
    destruct (Qlt_le_dec a b) as [H|H]; [|exact H].
    apply LessThan_spec in H. congruence.
Qed.

Lemma LessThanOrEqual_spec (a b : Q) :
  Decimal.LessThanOrEqual a b = true <-> (a <= b)%Q.
Proof.
  unfold Decimal.LessThanOrEqual, Decimal.Cmp. rewrite Qle_alt.
  destruct (a ?= b)%Q; split; intros H; try reflexivity; try discriminate;
    congruence.
Qed.

Lemma GreaterThanOrEqual_false (a b : Q) :
  Decimal.GreaterThanOrEqual a b = false <-> (a < b)%Q.
Proof.
  unfold Decimal.GreaterThanOrEqual, Decimal.Cmp. rewrite Qlt_alt.
  destruct (a ?= b)%Q; split; intros H; try reflexivity; try discriminate.
Qed.

Lemma GreaterThanOrEqual_zero (a : Q) :
  (a == 0)%Q -> Decimal.GreaterThanOrEqual a Decimal.ZERO = true.
Proof.
  intros H. unfold Decimal.GreaterThanOrEqual, Decimal.Cmp, Decimal.ZERO.
  apply Qeq_alt in H. by rewrite H.
Qed.

Lemma Div_defined (d d2 : Q) :
  ~ (d2 == 0)%Q -> exists q, Decimal.Div d d2 = Some q.
Proof.
  intros H. unfold Decimal.Div, Decimal.DivRound.
  destruct (Qnum d2 =? 0)%Z eqn:E; [|eexists; reflexivity].
  exfalso. apply H. apply Z.eqb_eq in E. unfold Qeq. rewrite E. reflexivity.
Qed.

Lemma Tolerant_validate_admissible (p : CorePool.t) (zeroForOne : bool) (limit : Q) :
  admissibleLimit p zeroForOne limit <-> Tolerant.validate p zeroForOne limit = None.
Proof.
  unfold admissibleLimit, Tolerant.validate. destruct zeroForOne.
  - destruct (Decimal.GreaterThan limit MIN_SQRT_RATIO) eqn:E1; cbn [negb].
    + destruct (Decimal.LessThan limit (CorePool.SqrtPriceX96 p)) eqn:E2; cbn [negb].
      * apply GreaterThan_spec in E1. apply LessThan_spec in E2. tauto.
      * apply LessThan_false in E2. split; [intros [_ H]; lra|discriminate].
    + apply GreaterThan_false in E1. split; [intros [H _]; lra|discriminate].
  - destruct (Decimal.LessThan limit MAX_SQRT_RATIO) eqn:E1; cbn [negb].
    + destruct (Decimal.GreaterThan limit (CorePool.SqrtPriceX96 p)) eqn:E2; cbn [negb].
      * apply LessThan_spec in E1. apply GreaterThan_spec in E2. tauto.
      * apply GreaterThan_false in E2. split; [intros [H _]; lra|discriminate].
    + apply LessThan_false in E1. split; [intros [_ H]; lra|discriminate].
Qed.

Lemma Exact_validate_admissible (p : CorePool.t) (zeroForOne : bool) (limit : Q) :
  admissibleLimit p zeroForOne limit <-> Exact.validate p zeroForOne limit = None.
Proof.
  unfold admissibleLimit, Exact.validate. destruct zeroForOne.
  - destruct (Decimal.GreaterThan limit MIN_SQRT_RATIO) eqn:E1; cbn [negb].
    + destruct (Decimal.LessThan limit (CorePool.SqrtPriceX96 p)) eqn:E2; cbn [negb].
      * apply GreaterThan_spec in E1. apply LessThan_spec in E2. tauto.
      * apply LessThan_false in E2. split; [intros [_ H]; lra|discriminate].
    + apply GreaterThan_false in E1. split; [intros [H _]; lra|discriminate].
  - destruct (Decimal.LessThan limit MAX_SQRT_RATIO) eqn:E1; cbn [negb].
    + destruct (Decimal.GreaterThan limit (CorePool.SqrtPriceX96 p)) eqn:E2; cbn [negb].
      * apply LessThan_spec in E1. apply GreaterThan_spec in E2. tauto.
      * apply GreaterThan_false in E2. split; [intros [H _]; lra|discriminate].
    + apply LessThan_false in E1. split; [intros [_ H]; lra|discriminate].
Qed.

(** X16. Both variants of [HandleSwap] go into their loop exactly when the
    price limit (the caller's, or the default of the direction) lies
    strictly between the bound of the direction and the current price;
    with any other limit they return an error and the pool they were
    called on, static or not. *)
Theorem HandleSwap_price_limit_guard (lib : MathLib) (p : CorePool.t)
    (zeroForOne : bool) (amountSpecified : Q) (limit : option Q) (isStatic : bool) :
  let sqrtPriceLimitX96 := priceLimit zeroForOne limit in
  let tolerant := Tolerant.HandleSwap lib p zeroForOne amountSpecified limit isStatic in
  let exact := Exact.HandleSwap lib p zeroForOne amountSpecified limit isStatic in
  (admissibleLimit p zeroForOne sqrtPriceLimitX96
   <-> Tolerant.validate p zeroForOne sqrtPriceLimitX96 = None)
  /\ (admissibleLimit p zeroForOne sqrtPriceLimitX96
      <-> Exact.validate p zeroForOne sqrtPriceLimitX96 = None)
  /\ (~ admissibleLimit p zeroForOne sqrtPriceLimitX96 ->
      (exists e, tolerant = (p, Err e)) /\ (exists e, exact = (p, Err e))).
Proof.
  cbn zeta. split; [apply Tolerant_validate_admissible|].
  split; [apply Exact_validate_admissible|].
  intros Hn. unfold Tolerant.HandleSwap, Exact.HandleSwap. split.
  - destruct (Tolerant.validate _ _ _) as [e|] eqn:E; [by exists e|].
    exfalso. apply Hn. by apply Tolerant_validate_admissible.
  - destruct (Exact.validate _ _ _) as [e|] eqn:E; [by exists e|].
    exfalso. apply Hn. by apply Exact_validate_admissible.
Qed.

Lemma commit_initialState (p : CorePool.t) (zeroForOne : bool) (amountSpecified : Q) :
  commit p zeroForOne (initialState p zeroForOne amountSpecified) = p.
Proof.
  unfold commit, initialState, CorePool.setSwapResult.
  cbn [sqrtPriceX96 tick liquidity feeGrowthGlobalX128].
  destruct (negb _); destruct zeroForOne; by destruct p.
Qed.

Lemma setTicks_same (p : CorePool.t) : CorePool.setTicks p (CorePool.Ticks p) = p.
Proof. by destruct p. Qed.

Lemma Exact_swapLoop_done (lib : MathLib) (passes : nat) (p : CorePool.t)
    (zeroForOne exactInput isStatic : bool) (limit : Q)
    (tm : TickManager) (state : swapState) :
  Exact.loopDone limit state = true ->
  Exact.swapLoop lib passes p zeroForOne exactInput isStatic limit tm state
  = (tm, Ok state).
Proof. intros H. destruct passes; simpl; by rewrite H. Qed.

Lemma Max_positive (a b : Q) : (0 < a)%Q \/ (0 < b)%Q -> (0 < Decimal.Max a b)%Q.
Proof.
  unfold Decimal.Max. destruct (Decimal.GreaterThan b a) eqn:E.
  - apply GreaterThan_spec in E. intros [H|H]; lra.
  - apply GreaterThan_false in E. intros [H|H]; lra.
Qed.

Lemma MIN_SQRT_RATIO_pos : (0 < MIN_SQRT_RATIO)%Q.
Proof. reflexivity. Qed.

(** X17. A swap of nothing changes nothing: with an admissible price limit
    and a zero amount, both variants return zero amounts and the current
    price, and the pool they were called on, also when the swap is not
    static (for the first variant, on a pool whose price is not
    negative, so that its relative price gap is defined). *)
Theorem swap_of_nothing_changes_nothing (lib : MathLib) (p : CorePool.t)
    (zeroForOne : bool) (amountSpecified : Q) (limit : option Q) (isStatic : bool) :
  (amountSpecified == 0)%Q ->
  admissibleLimit p zeroForOne (priceLimit zeroForOne limit) ->
  exists amount0 amount1,
    (amount0 == 0)%Q /\ (amount1 == 0)%Q
    /\ Exact.HandleSwap lib p zeroForOne amountSpecified limit isStatic
       = (p, Ok (amount0, amount1, CorePool.SqrtPriceX96 p))
    /\ ((0 <= CorePool.SqrtPriceX96 p)%Q ->
        Tolerant.HandleSwap lib p zeroForOne amountSpecified limit isStatic
        = (p, Ok (amount0, amount1, CorePool.SqrtPriceX96 p))).
Proof.
  intros Ha Hadm.
  set (state := initialState p zeroForOne amountSpecified).
  assert (Hfin : finish p zeroForOne true isStatic amountSpecified
                   (CorePool.Ticks p, Ok state)
                 = (p, Ok (finalAmounts zeroForOne true amountSpecified state))).
  { unfold finish. cbn [fst snd]. rewrite setTicks_same.
    unfold state. rewrite commit_initialState. by destruct isStatic. }
  assert (Hamounts : exists amount0 amount1,
             (amount0 == 0)%Q /\ (amount1 == 0)%Q
             /\ finalAmounts zeroForOne true amountSpecified state
                = (amount0, amount1, CorePool.SqrtPriceX96 p)).
  { unfold finalAmounts, state, initialState.
    cbn [amountSpecifiedRemaining amountCalculated sqrtPriceX96].
    destruct (Bool.eqb zeroForOne true); eexists; eexists;
      (split; [|split; [|reflexivity]]);
      unfold Decimal.Sub, Decimal.ZERO; lra. }
  destruct Hamounts as (amount0 & amount1 & H0 & H1 & Hamounts).
  exists amount0, amount1. split; [exact H0|]. split; [exact H1|]. split.
  - unfold Exact.HandleSwap.
    rewrite (proj1 (Exact_validate_admissible _ _ _) Hadm).
    rewrite (GreaterThanOrEqual_zero _ Ha). fold state.
    rewrite Exact_swapLoop_done.
    + by rewrite Hfin, Hamounts.
    + unfold Exact.loopDone, state, initialState. cbn [amountSpecifiedRemaining].
      apply orb_true_iff. left. by apply Equal_spec.
  - intros Hprice. unfold Tolerant.HandleSwap.
    rewrite (proj1 (Tolerant_validate_admissible _ _ _) Hadm).
    rewrite (GreaterThanOrEqual_zero _ Ha). fold state.
    change Tolerant.maxIterations with (S 1023).
    rewrite Tolerant_swapLoop_S.
    assert (Hexit : Tolerant.exitCheck (priceLimit zeroForOne limit) state = Ok true).
    { unfold Tolerant.exitCheck.
      assert (Hmax : (0 < Decimal.Max (sqrtPriceX96 state)
                            (priceLimit zeroForOne limit))%Q).
      { apply Max_positive. unfold state, initialState. cbn [sqrtPriceX96].
        pose proof MIN_SQRT_RATIO_pos.
        unfold admissibleLimit in Hadm. destruct zeroForOne; destruct Hadm; [left|right]; lra. }
      destruct (Div_defined
                  (Decimal.Abs (Decimal.Sub (sqrtPriceX96 state)
                                  (priceLimit zeroForOne limit)))
                  (Decimal.Max (sqrtPriceX96 state) (priceLimit zeroForOne limit)))
        as [gap Hgap]; [lra|].
      rewrite Hgap. cbn [ofDiv bind].
      assert (Hz : Decimal.LessThanOrEqual
                     (Decimal.Abs (amountSpecifiedRemaining state))
                     Tolerant.epsilonDecimal = true).
      { unfold state, initialState. cbn [amountSpecifiedRemaining].
        apply LessThanOrEqual_spec. unfold Decimal.Abs. rewrite Ha.
        discriminate. }
      by rewrite Hz. }
    rewrite Hexit. by rewrite Hfin, Hamounts.
Qed.

Lemma swap_of_nothing_changes_nothing_witness :
  exists amount0 amount1,
    (amount0 == 0)%Q /\ (amount1 == 0)%Q
    /\ Exact.HandleSwap tabulatedLib samplePoolWithTicks true 0%Q None false
       = (samplePoolWithTicks, Ok (amount0, amount1, inject_Z (2 ^ 96))).
Proof.
  destruct (swap_of_nothing_changes_nothing tabulatedLib samplePoolWithTicks true
              0%Q None false) as (amount0 & amount1 & H0 & H1 & He & _).
  - reflexivity.
  - split; reflexivity.
  - exists amount0, amount1. by repeat split.
Defined.

Lemma finish_frame (p : CorePool.t) (zeroForOne exactInput isStatic : bool)
    (amountSpecified : Q) (looped : TickManager * result swapState) :
  swapFrame p zeroForOne (finish p zeroForOne exactInput isStatic amountSpecified looped).
Proof.
  unfold swapFrame, finish, sameConfiguration.
  destruct looped as [tm [state| |]]; cbn [fst snd is_Ok].
  - destruct isStatic.
    + split; [by repeat split|]. split; [done|].
      split; [by destruct zeroForOne|discriminate].
    + split; [by repeat split|]. split; [done|].
      split; [by destruct zeroForOne|discriminate].
  - split; [by repeat split|]. split; [done|].
    split; [by destruct zeroForOne|]. intros _. by destruct p.
  - split; [by repeat split|]. split; [done|].
    split; [by destruct zeroForOne|]. intros _. by destruct p.
Qed.

Lemma swapFrame_refused (p : CorePool.t) (zeroForOne : bool) (e : error) :
  swapFrame p zeroForOne (p, Err e).
Proof.
  unfold swapFrame, sameConfiguration. cbn [fst snd].
  split; [by repeat split|]. split; [done|]. split; [by destruct zeroForOne|].
  intros _. by destruct p.
Qed.

(** X18. What no swap does, in either variant and whatever it returns: it
    never assigns the configuration of the pool, its token balances or
    its position store, nor the global fee growth of the token that is
    not paid in; and a swap that returns an error or panics has written
    the tick map at most, so that price, current tick and liquidity are
    those before the call. *)
Theorem HandleSwap_frame (lib : MathLib) (p : CorePool.t) (zeroForOne : bool)
    (amountSpecified : Q) (limit : option Q) (isStatic : bool) :
  swapFrame p zeroForOne
    (Tolerant.HandleSwap lib p zeroForOne amountSpecified limit isStatic)
  /\ swapFrame p zeroForOne
       (Exact.HandleSwap lib p zeroForOne amountSpecified limit isStatic).
Proof.
  unfold Tolerant.HandleSwap, Exact.HandleSwap. split.
  - destruct (Tolerant.validate _ _ _); [apply swapFrame_refused|apply finish_frame].
  - destruct (Exact.validate _ _ _); [apply swapFrame_refused|apply finish_frame].
Qed.

(** X19. [incTowardsInfinity] leaves zero where it is and moves every other
    amount one unit away from zero, on its side of zero. *)
Theorem incTowardsInfinity_away_from_zero (d : Q) :
  ((d == 0)%Q -> incTowardsInfinity d = d)
  /\ ((0 < d)%Q -> (incTowardsInfinity d == d + 1)%Q)
  /\ ((d < 0)%Q -> (incTowardsInfinity d == d - 1)%Q)
  /\ (Qabs (incTowardsInfinity d) == (if Decimal.IsZero d then 0 else Qabs d + 1))%Q.
Proof.
  unfold incTowardsInfinity.
  destruct (Decimal.IsZero d) eqn:Ez.
  - apply IsZero_spec in Ez. split; [done|]. split; [intros; lra|].
    split; [intros; lra|]. rewrite Ez. reflexivity.
  - assert (Hnz : ~ (d == 0)%Q).
    { intros H. apply IsZero_spec in H. congruence. }
    destruct (Decimal.IsPositive d) eqn:Ep.
    + apply IsPositive_spec in Ep. unfold Decimal.Add, Decimal.ONE.
      split; [intros; lra|]. split; [reflexivity|]. split; [intros; lra|].
      rewrite !Qabs_pos by lra. reflexivity.
    + assert (Hneg : (d < 0)%Q).
      { destruct (Qlt_le_dec d 0) as [H|H]; [exact H|].
        destruct (Qlt_le_dec 0 d) as [H'|H'].
        - apply IsPositive_spec in H'. congruence.
        - exfalso. apply Hnz. lra. }
      unfold Decimal.Sub, Decimal.ONE.
      split; [intros; lra|]. split; [intros; lra|]. split; [reflexivity|].
      rewrite !Qabs_neg by lra. lra.
Qed.

(** Witnesses of the properties of the second variant. *)
Lemma Exact_HandleSwap_exit_witness :
  exists state',
    ((amountSpecifiedRemaining state' == 0)%Q
     \/ (sqrtPriceX96 state' == priceLimit true (Some (inject_Z (2 ^ 96 - 1))))%Q)
    /\ (Decimal.Sub 0%Q 0%Q, 0%Q, inject_Z (2 ^ 96))
       = finalAmounts true (Decimal.GreaterThanOrEqual 0%Q Decimal.ZERO) 0%Q state'.
Proof.
  apply (Exact_HandleSwap_exit tabulatedLib samplePool samplePool true false 0%Q
           (Some (inject_Z (2 ^ 96 - 1)))).
  vm_compute. reflexivity.
Defined.

Lemma Exact_swap_fails_past_bound_witness :
  Exact.HandleSwap tabulatedLib samplePool true (1 # 2)%Q None false
  = (CorePool.setTicks samplePool (CorePool.Ticks samplePool),
     Err ErrExcessiveLoopIterations).
Proof.
  apply (Exact_swap_fails_past_bound tabulatedLib samplePool true false (1 # 2)%Q None
           (CorePool.Ticks samplePool) (initialState samplePool true (1 # 2)%Q)).
  - vm_compute. reflexivity.
  - apply Exact_passed_idle; vm_compute; reflexivity.
  - vm_compute. reflexivity.
Defined.

Lemma Exact_resolver_exact_witness :
  let param := {| TxHash := "0xtx"; Address := "0xpool";
                  Amount0 := 0%Q; Amount1 := 0%Q;
                  SqrtPriceX96 := inject_Z (2 ^ 96);
                  EventLiquidity := inject_Z (10 ^ 18) |} in
  exists before after,
    Exact.solutionList samplePool param = before ++ mkSwapSolution 0%Q None :: after
    /\ reproduces tabulatedLib samplePool param (mkSwapSolution 0%Q None)
    /\ Forall (fun s => ~ reproduces tabulatedLib samplePool param s) before.
Proof.
  intros param.
  apply (Exact_resolver_exact tabulatedLib samplePool samplePool param 0%Q None).
  vm_compute. reflexivity.
Defined.

Lemma Exact_resolver_unresolvable_witness :
  let param := {| TxHash := "0xtx"; Address := "0xpool";
                  Amount0 := 0%Q; Amount1 := 0%Q;
                  SqrtPriceX96 := inject_Z (2 ^ 96 + 1);
                  EventLiquidity := 0%Q |} in
  Exact.ResolveInputFromSwapResultEvent tabulatedLib drainedPool (Some param)
  = (drainedPool,
     Err (ErrFailedToFindSwapSolution "0xtx" "0xpool" 0%Q 0%Q (inject_Z (2 ^ 96 + 1)))).
Proof.
  intros param.
  apply (Exact_resolver_unresolvable tabulatedLib drainedPool param).
  - assert (Hl : Exact.solutionList drainedPool param
                 = [mkSwapSolution 0%Q None; mkSwapSolution 0%Q None;
                    mkSwapSolution 0%Q (Some (inject_Z (2 ^ 96 + 1)));
                    mkSwapSolution 0%Q (Some (inject_Z (2 ^ 96 + 1)))])
      by (vm_compute; reflexivity).
    rewrite Hl.
    repeat constructor;
      intros (amount0 & amount1 & priceX96 & H & _ & _ & Hp);
      vm_compute in H; injection H as <- <- <-; discriminate Hp.
  - intros s Hin.
    assert (Hl : Exact.solutionList drainedPool param
                 = [mkSwapSolution 0%Q None; mkSwapSolution 0%Q None;
                    mkSwapSolution 0%Q (Some (inject_Z (2 ^ 96 + 1)));
                    mkSwapSolution 0%Q (Some (inject_Z (2 ^ 96 + 1)))])
      by (vm_compute; reflexivity).
    rewrite Hl in Hin. simpl in Hin.
    destruct Hin as [<-|[<-|[<-|[<-|[]]]]]; vm_compute; discriminate.
Defined.

(* ===================================================================== *)
(** ** The pool: initialisation, mint, burn and collect *)
(* ===================================================================== *)

Lemma IsZero_false (a : Q) : Decimal.IsZero a = false <-> ~ (a == 0)%Q.
Proof.
  destruct (Decimal.IsZero a) eqn:E.
  - apply IsZero_spec in E. split; [discriminate|]. intros H. by destruct H.
  - split; [|reflexivity]. intros _ H. apply IsZero_spec in H. congruence.
Qed.

Lemma checkTicks_spec (tickLower tickUpper : Z) :
  Pool.checkTicks tickLower tickUpper = None
  <-> MIN_TICK <= tickLower /\ tickLower < tickUpper /\ tickUpper <= MAX_TICK.
Proof.
  unfold Pool.checkTicks.
  destruct (Z.ltb_spec tickLower tickUpper); cbn [negb];
    [|split; [discriminate|lia]].
  destruct (Z.geb_spec tickLower MIN_TICK); cbn [negb];
    [|split; [discriminate|lia]].
  destruct (Z.leb_spec tickUpper MAX_TICK); cbn [negb];
    [|split; [discriminate|lia]].
  split; [lia|reflexivity].
Qed.

(** X24. A pool is initialised once: an [Initialize] that succeeds with a
    price other than zero found the price of the pool at zero, assigned
    the price and the tick of that price and nothing else, and every
    later [Initialize] is refused and leaves the pool as it is. *)
Theorem Initialize_only_once (lib : Pool.Lib) (p p' : CorePool.t) (sqrtPriceX96 : Q) :
  Pool.Initialize lib p sqrtPriceX96 = (p', Ok tt) ->
  ~ (sqrtPriceX96 == 0)%Q ->
  (CorePool.SqrtPriceX96 p == 0)%Q
  /\ p' = Pool.setSqrtPriceX96
            (Pool.setTickCurrent p (fst (Pool.GetTickAtSqrtRatio lib sqrtPriceX96)))
            sqrtPriceX96
  /\ forall again,
       Pool.Initialize lib p' again = (p', Err (ErrNew "Already initialized!")).
Proof.
  unfold Pool.Initialize at 1.
  destruct (Decimal.IsZero (CorePool.SqrtPriceX96 p)) eqn:Ez; cbn [negb];
    [|discriminate].
  destruct (Pool.GetTickAtSqrtRatio lib sqrtPriceX96) as [tk [e|]]; [discriminate|].
  intros [= <-] Hnz. split; [by apply IsZero_spec|]. split; [reflexivity|].
  intros again. unfold Pool.Initialize.
  cbn [Pool.setSqrtPriceX96 CorePool.SqrtPriceX96].
  apply IsZero_false in Hnz. by rewrite Hnz.
Qed.

Lemma Initialize_only_once_witness :
  Pool.Initialize Pool.sampleLib
    (fst (Pool.Initialize Pool.sampleLib Pool.freshPool (inject_Z (2 ^ 96))))
    (inject_Z 5)
  = (fst (Pool.Initialize Pool.sampleLib Pool.freshPool (inject_Z (2 ^ 96))),
     Err (ErrNew "Already initialized!")).
Proof.
  destruct (Initialize_only_once Pool.sampleLib Pool.freshPool
              (fst (Pool.Initialize Pool.sampleLib Pool.freshPool (inject_Z (2 ^ 96))))
              (inject_Z (2 ^ 96))) as (_ & _ & H).
  - reflexivity.
  - discriminate.
  - apply H.
Defined.

Section PoolFacts.

Variable lib : Pool.Lib.

Lemma setPositions_setTicks (p : CorePool.t) (pm pm' : gmap string Position)
    (tm : TickManager) :
  Pool.setPositions (CorePool.setTicks (Pool.setPositions p pm) tm) pm'
  = CorePool.setTicks (Pool.setPositions p pm') tm.
Proof. by destruct p. Qed.

Lemma setTicks_setTicks (p : CorePool.t) (tm tm' : TickManager) :
  CorePool.setTicks (CorePool.setTicks p tm) tm' = CorePool.setTicks p tm'.
Proof. by destruct p. Qed.

(** [updatePosition] writes the position store and the tick map, and
    nothing else of the pool; with a zero delta it leaves the tick map. *)
Lemma updatePosition_book (p : CorePool.t) (owner : string) (lower upper : Z)
    (delta : Q) :
  exists pm tm,
    fst (Pool.updatePosition lib p owner lower upper delta)
    = CorePool.setTicks (Pool.setPositions p pm) tm
    /\ (Decimal.IsZero delta = true -> tm = CorePool.Ticks p).
Proof.
  unfold Pool.updatePosition.
  destruct (Pool.GetPositionAndInitIfAbsent _ _) as [pm1 position].
  destruct (Decimal.IsZero delta) eqn:Ez; cbn [negb].
  - assert (Hn : Decimal.IsNegative delta = false).
    { destruct (Decimal.IsNegative delta) eqn:En; [|done].
      apply IsZero_spec in Ez. apply IsNegative_spec in En. lra. }
    rewrite Hn.
    destruct (Pool.GetFeeGrowthInside _ _ _ _ _ _ _) as [[fi0 fi1]| |];
      [|by eexists; eexists..].
    destruct (Pool.PositionUpdate _ _ _ _ _) as [position' [[]| |]]; cbn [fst];
      rewrite setPositions_setTicks; by eexists; eexists.
  - destruct (Pool.updateTick lib p (CorePool.Ticks p) lower delta false)
      as [tm1 [flippedLower| |]];
      [|eexists; eexists; (split; [reflexivity|discriminate])..].
    destruct (Pool.updateTick lib p tm1 upper delta true)
      as [tm2 [flippedUpper| |]];
      [|eexists; eexists; (split; [reflexivity|discriminate])..].
    destruct (Pool.GetFeeGrowthInside _ _ _ _ _ _ _) as [[fi0 fi1]| |];
      [|eexists; eexists; (split; [reflexivity|discriminate])..].
    destruct (Pool.PositionUpdate _ _ _ _ _) as [position' [[]| |]]; cbn [fst];
      [|rewrite setPositions_setTicks;
        eexists; eexists; (split; [reflexivity|discriminate])..].
    destruct (Decimal.IsNegative delta); cbn [fst];
      rewrite setPositions_setTicks, ?setTicks_setTicks;
      eexists; eexists; (split; [reflexivity|discriminate]).
Qed.

Lemma samePrice_book (p : CorePool.t) (pm : gmap string Position) (tm : TickManager) :
  Pool.samePrice p (CorePool.setTicks (Pool.setPositions p pm) tm).
Proof. unfold Pool.samePrice, sameConfiguration. by repeat split. Qed.

Lemma samePrice_book_liquidity (p : CorePool.t) (pm : gmap string Position)
    (tm : TickManager) (l : Q) :
  Pool.samePrice p (Pool.setLiquidity (CorePool.setTicks (Pool.setPositions p pm) tm) l).
Proof. unfold Pool.samePrice, sameConfiguration. by repeat split. Qed.

(** [positionAmounts] assigns the liquidity of the pool, in range, and
    nothing else. *)
Lemma positionAmounts_liquidity (p : CorePool.t) (tickLower tickUpper : Z) (delta : Q) :
  fst (Pool.positionAmounts lib p tickLower tickUpper delta) = p
  \/ (tickLower <= CorePool.TickCurrent p < tickUpper
      /\ fst (Pool.positionAmounts lib p tickLower tickUpper delta)
         = Pool.setLiquidity p (fst (Pool.AddDelta lib (CorePool.Liquidity p) delta))).
Proof.
  unfold Pool.positionAmounts.
  destruct (Z.ltb_spec (CorePool.TickCurrent p) tickLower); [by left|].
  destruct (Z.ltb_spec (CorePool.TickCurrent p) tickUpper); [|by left].
  match goal with |- context [match ?r with Ok _ => _ | Err _ => _ | Panic => _ end] =>
    destruct r as [amounts| |] end; [|by left..].
  right. split; [lia|].
  by destruct (Pool.AddDelta lib (CorePool.Liquidity p) delta) as [l [e|]].
Qed.

Lemma modifyPosition_frame (p : CorePool.t) (owner : string)
    (tickLower tickUpper : Z) (delta : Q) :
  Pool.liquidityFrame lib p
    (fst (Pool.modifyPosition lib p owner tickLower tickUpper delta))
    tickLower tickUpper delta
  /\ exists pm tm l,
       fst (Pool.modifyPosition lib p owner tickLower tickUpper delta)
       = Pool.setLiquidity (CorePool.setTicks (Pool.setPositions p pm) tm) l.
Proof.
  assert (Hp : forall q, exists pm tm l,
              q = Pool.setLiquidity (CorePool.setTicks (Pool.setPositions q pm) tm) l).
  { intros q. exists (CorePool.PositionManager q), (CorePool.Ticks q),
      (CorePool.Liquidity q). by destruct q. }
  assert (Hsame : Pool.liquidityFrame lib p p tickLower tickUpper delta).
  { split; [|by left]. unfold Pool.samePrice, sameConfiguration. by repeat split. }
  unfold Pool.modifyPosition.
  destruct (Pool.checkTicks tickLower tickUpper); [by split|].
  destruct (_ && _); [by split|].
  destruct (updatePosition_book p owner tickLower tickUpper delta)
    as (pm & tm & Hbook & _).
  destruct (Pool.updatePosition lib p owner tickLower tickUpper delta)
    as [p1 [position| |]]; cbn [fst] in *; subst p1.
  - destruct (Decimal.IsZero delta) eqn:Ez; cbn [negb fst].
    + split.
      * split; [apply samePrice_book|by left].
      * exists pm, tm, (CorePool.Liquidity p). by destruct p.
    + pose proof (positionAmounts_liquidity
                    (CorePool.setTicks (Pool.setPositions p pm) tm)
                    tickLower tickUpper delta) as Ha.
      destruct (Pool.positionAmounts _ _ _ _ _) as [p2 r]. cbn [fst] in *.
      destruct Ha as [->|[Hin ->]].
      * split.
        -- split; [apply samePrice_book|by left].
        -- exists pm, tm, (CorePool.Liquidity p). by destruct p.
      * split.
        -- split; [apply samePrice_book_liquidity|]. right.
           split; [exact Hin|]. split; [exact Ez|reflexivity].
        -- by eexists; eexists; eexists.
  - split.
    + split; [apply samePrice_book|by left].
    + exists pm, tm, (CorePool.Liquidity p). by destruct p.
  - split.
    + split; [apply samePrice_book|by left].
    + exists pm, tm, (CorePool.Liquidity p). by destruct p.
Qed.

Lemma liquidityFrame_positions (p p' : CorePool.t) (tickLower tickUpper : Z)
    (delta : Q) (pm : gmap string Position) :
  Pool.liquidityFrame lib p p' tickLower tickUpper delta ->
  Pool.liquidityFrame lib p (Pool.setPositions p' pm) tickLower tickUpper delta.
Proof.
  intros [(Hc & H1 & H2 & H3 & H4) Hl]. split; [|exact Hl].
  unfold Pool.samePrice, sameConfiguration in *. cbn. tauto.
Qed.

(** X27. What no mint, burn or collect does, whatever it returns: a mint
    and a burn never assign the configuration, the balances, the price,
    the current tick or the global fee growths of the pool, and they
    assign its liquidity only for a range that holds the current tick
    and a delta other than zero, with what [AddDelta] returns; a collect
    writes the position store only. *)
Theorem Mint_Burn_Collect_frame (p : CorePool.t) (owner : string)
    (tickLower tickUpper : Z) (amount amount0Req amount1Req : Q) :
  Pool.liquidityFrame lib p
    (fst (Pool.Mint lib p owner tickLower tickUpper amount))
    tickLower tickUpper amount
  /\ Pool.liquidityFrame lib p
       (fst (Pool.Burn lib p owner tickLower tickUpper amount))
       tickLower tickUpper (Decimal.Neg amount)
  /\ fst (Pool.Collect lib p owner tickLower tickUpper amount0Req amount1Req)
     = Pool.setPositions p
         (CorePool.PositionManager
            (fst (Pool.Collect lib p owner tickLower tickUpper
                    amount0Req amount1Req))).
Proof.
  split; [|split].
  - unfold Pool.Mint. destruct (negb _).
    + split; [|by left]. unfold Pool.samePrice, sameConfiguration. by repeat split.
    + pose proof (proj1 (modifyPosition_frame p owner tickLower tickUpper amount)) as H.
      by destruct (Pool.modifyPosition _ _ _ _ _ _) as [p1 r].
  - unfold Pool.Burn.
    pose proof (proj1 (modifyPosition_frame p owner tickLower tickUpper
                         (Decimal.Neg amount))) as H.
    destruct (Pool.modifyPosition _ _ _ _ _ _) as [p1 [[key [amount0 amount1]]| |]];
      cbn [fst] in *; [|exact H..].
    destruct (_ || _); [|exact H].
    destruct (CorePool.PositionManager p1 !! key); [|exact H].
    cbn [fst]. by apply liquidityFrame_positions.
  - unfold Pool.Collect. destruct (Pool.checkTicks tickLower tickUpper).
    + cbn [fst]. by destruct p.
    + by destruct (Pool.CollectPosition _ _ _ _ _ _ _).
Qed.

(** X25. The three operations on a range check it first: the range is
    accepted exactly when the lower tick is below the upper one and both
    lie within the tick bounds, and on any other range the mint, the
    burn and the collect return an error and leave the pool as it was. *)
Theorem operations_check_the_range (p : CorePool.t) (owner : string)
    (tickLower tickUpper : Z) (amount amount0Req amount1Req : Q) :
  (Pool.checkTicks tickLower tickUpper = None
   <-> MIN_TICK <= tickLower /\ tickLower < tickUpper /\ tickUpper <= MAX_TICK)
  /\ (~ (MIN_TICK <= tickLower /\ tickLower < tickUpper /\ tickUpper <= MAX_TICK) ->
      (exists e, Pool.Mint lib p owner tickLower tickUpper amount = (p, Err e))
      /\ (exists e, Pool.Burn lib p owner tickLower tickUpper amount = (p, Err e))
      /\ (exists e, Pool.Collect lib p owner tickLower tickUpper
                      amount0Req amount1Req = (p, Err e))).
Proof.
  split; [apply checkTicks_spec|]. intros Hbad.
  destruct (Pool.checkTicks tickLower tickUpper) as [e|] eqn:E;
    [|exfalso; by apply Hbad, checkTicks_spec].
  split; [|split].
  - unfold Pool.Mint. destruct (negb _); [by eexists|].
    unfold Pool.modifyPosition. rewrite E. by exists e.
  - unfold Pool.Burn, Pool.modifyPosition. rewrite E. by exists e.
  - unfold Pool.Collect. rewrite E. by exists e.
Qed.

(** X26. The amounts are checked before anything is written: a mint of an
    amount that is not positive, and a burn, over a valid range, of more
    than the liquidity the position store reports for the position, are
    refused with their errors and leave the pool as it was. *)
Theorem Mint_and_Burn_check_the_amount (p : CorePool.t) (owner : string)
    (tickLower tickUpper : Z) (amount : Q) :
  ((amount <= 0)%Q ->
   Pool.Mint lib p owner tickLower tickUpper amount
   = (p, Err (ErrNew "Mint amount should greater than 0")))
  /\ (Pool.checkTicks tickLower tickUpper = None ->
      (0 < amount)%Q ->
      (PositionLiquidity
         (Pool.GetPositionReadonly lib (CorePool.PositionManager p) owner
            tickLower tickUpper) < amount)%Q ->
      Pool.Burn lib p owner tickLower tickUpper amount
      = (p, Err (ErrNew "Liquidity Underflow"))).
Proof.
  split.
  - intros H. unfold Pool.Mint.
    apply GreaterThan_false in H. unfold Decimal.ZERO. by rewrite H.
  - intros Hc Hpos Hlt. unfold Pool.Burn, Pool.modifyPosition. rewrite Hc.
    assert (Hn : Decimal.IsNegative (Decimal.Neg amount) = true).
    { apply IsNegative_spec. unfold Decimal.Neg. lra. }
    assert (Hg : Decimal.GreaterThanOrEqual
                   (PositionLiquidity
                      (Pool.GetPositionReadonly lib (CorePool.PositionManager p)
                         owner tickLower tickUpper))
                   (Decimal.Neg (Decimal.Neg amount)) = false).
    { apply GreaterThanOrEqual_false. unfold Decimal.Neg. lra. }
    by rewrite Hn, Hg.
Qed.

(** X28. The amounts of a mint that succeeds are one-sided outside the
    range: below the range only token 0 is due and above it only token
    1, and the liquidity of the pool stays; in the range the liquidity
    of the pool is the sum [AddDelta] returned without error. *)
Theorem Mint_amounts_by_range (p p' : CorePool.t) (owner : string)
    (tickLower tickUpper : Z) (amount amount0 amount1 : Q) :
  Pool.Mint lib p owner tickLower tickUpper amount = (p', Ok (amount0, amount1)) ->
  (CorePool.TickCurrent p < tickLower ->
   amount1 = Decimal.ZERO /\ CorePool.Liquidity p' = CorePool.Liquidity p)
  /\ (tickUpper <= CorePool.TickCurrent p ->
      amount0 = Decimal.ZERO /\ CorePool.Liquidity p' = CorePool.Liquidity p)
  /\ (tickLower <= CorePool.TickCurrent p < tickUpper ->
      Pool.AddDelta lib (CorePool.Liquidity p) amount
      = (CorePool.Liquidity p', None)).
Proof.
  unfold Pool.Mint.
  destruct (Decimal.GreaterThan amount Decimal.ZERO) eqn:Eg; cbn [negb];
    [|discriminate].
  assert (Hz : Decimal.IsZero amount = false).
  { apply IsZero_false. apply GreaterThan_spec in Eg. unfold Decimal.ZERO in Eg. lra. }
  unfold Pool.modifyPosition.
  destruct (Pool.checkTicks tickLower tickUpper) eqn:Ec; [discriminate|].
  apply checkTicks_spec in Ec.
  destruct (_ && _); [discriminate|].
  destruct (updatePosition_book p owner tickLower tickUpper amount)
    as (pm & tm & Hbook & _).
  destruct (Pool.updatePosition lib p owner tickLower tickUpper amount)
    as [p1 [position| |]]; cbn [fst] in Hbook; subst p1; [|discriminate..].
  rewrite Hz. cbn [negb].
  unfold Pool.positionAmounts.
  change (CorePool.TickCurrent (CorePool.setTicks (Pool.setPositions p pm) tm))
    with (CorePool.TickCurrent p).
  change (CorePool.Liquidity (CorePool.setTicks (Pool.setPositions p pm) tm))
    with (CorePool.Liquidity p).
  destruct (Z.ltb_spec (CorePool.TickCurrent p) tickLower).
  - destruct (Pool.GetSqrtRatioAtTick lib tickLower); cbn [bind]; [|discriminate..].
    destruct (Pool.GetSqrtRatioAtTick lib tickUpper); cbn [bind]; [|discriminate..].
    destruct (Pool.GetAmount0Delta _ _ _ _); cbn [bind]; [|discriminate..].
    intros [= <- <- <-]. split; [done|]. split; lia.
  - destruct (Z.ltb_spec (CorePool.TickCurrent p) tickUpper).
    + match goal with
      | |- context [match ?r with Ok _ => _ | Err _ => _ | Panic => _ end] =>
          destruct r as [amounts| |] end; [|discriminate..].
      destruct (Pool.AddDelta lib (CorePool.Liquidity p) amount) as [l [e|]];
        [discriminate|].
      cbn [bind]. intros [= <- _]. split; [lia|]. split; [lia|]. done.
    + destruct (Pool.GetSqrtRatioAtTick lib tickLower); cbn [bind]; [|discriminate..].
      destruct (Pool.GetSqrtRatioAtTick lib tickUpper); cbn [bind]; [|discriminate..].
      destruct (Pool.GetAmount1Delta _ _ _ _); cbn [bind]; [|discriminate..].
      intros [= <- <- <-]. split; [lia|]. split; [done|lia].
Qed.

(** X29. A burn of nothing is a poke: with a zero amount the burn writes
    the position store at most; the tick map, the liquidity and
    everything else of the pool are as before the call. *)
Theorem Burn_of_nothing_writes_positions_only (p : CorePool.t) (owner : string)
    (tickLower tickUpper : Z) (amount : Q) :
  (amount == 0)%Q ->
  fst (Pool.Burn lib p owner tickLower tickUpper amount)
  = Pool.setPositions p
      (CorePool.PositionManager
         (fst (Pool.Burn lib p owner tickLower tickUpper amount))).
Proof.
  intros Ha.
  assert (Hz : Decimal.IsZero (Decimal.Neg amount) = true).
  { apply IsZero_spec. unfold Decimal.Neg. lra. }
  assert (Hself : forall q, q = Pool.setPositions q (CorePool.PositionManager q))
    by (by intros []).
  unfold Pool.Burn, Pool.modifyPosition.
  destruct (Pool.checkTicks tickLower tickUpper); [apply Hself|].
  destruct (_ && _); [apply Hself|].
  destruct (updatePosition_book p owner tickLower tickUpper (Decimal.Neg amount))
    as (pm & tm & Hbook & Htm).
  rewrite (Htm Hz) in Hbook.
  destruct (Pool.updatePosition lib p owner tickLower tickUpper (Decimal.Neg amount))
    as [p1 [position| |]]; cbn [fst] in Hbook; subst p1;
    [|cbn [fst]; by destruct p..].
  rewrite Hz. cbn [negb].
  destruct (_ || _); [|cbn [fst]; by destruct p].
  destruct (_ !! position); cbn [fst]; by destruct p.
Qed.

End PoolFacts.

Lemma Mint_amounts_by_range_witness :
  CorePool.Liquidity
    (fst (Pool.Mint Pool.sampleLib samplePool "0xalice" 60 120 (inject_Z 5)))
  = CorePool.Liquidity samplePool
  /\ snd (Pool.Mint Pool.sampleLib samplePool "0xalice" 60 120 (inject_Z 5))
     = Ok (inject_Z 5, Decimal.ZERO).
Proof.
  assert (H : Pool.Mint Pool.sampleLib samplePool "0xalice" 60 120 (inject_Z 5)
              = (fst (Pool.Mint Pool.sampleLib samplePool "0xalice" 60 120 (inject_Z 5)),
                 Ok (inject_Z 5, Decimal.ZERO)))
    by (vm_compute; reflexivity).
  destruct (Mint_amounts_by_range Pool.sampleLib samplePool _ "0xalice" 60 120
              (inject_Z 5) (inject_Z 5) Decimal.ZERO H) as (Hbelow & _ & _).
  split; [by apply Hbelow|]. by rewrite H.
Defined.

Lemma Burn_of_nothing_writes_positions_only_witness :
  CorePool.Ticks (fst (Pool.Burn Pool.sampleLib samplePoolWithTicks "0xalice"
                         (-60) 60 0%Q))
  = sampleTicks.
Proof.
  rewrite (Burn_of_nothing_writes_positions_only Pool.sampleLib samplePoolWithTicks
             "0xalice" (-60) 60 0%Q); reflexivity.
Defined.
